(** * CRA AI Assistant V3.0: the AI gateway client (GLMService.ts)

    A shallow embedding of the request-resilience layer of
    [src/main/services/AIService/GLMService.ts]: the sliding-window rate
    limiter, retry with exponential backoff, the repair of truncated JSON,
    the six extraction operations and the service singleton.

    Conventions.
    - Wall-clock instants and durations are integers of milliseconds ([Z]),
      as [Date.now()] returns them; [Math.random()] and the delays computed
      from it are rationals ([Q]).
    - A JavaScript string is a [string]: a sequence of bytes, non-ASCII text
      being held in UTF-8.  Every pattern the code searches for is ASCII, and
      no ASCII byte occurs inside a multi-byte UTF-8 sequence, so searching,
      splitting and replacing agree with the UTF-16 original.  Lengths and
      offsets count bytes; the one place where a length is compared with a
      constant, the excerpt kept in a parse error, decides no statement.
    - An [async] method is modelled by its outcome once awaited; what the
      environment decides (the clock, [Math.random], the transport) is an
      explicit argument. *)

From Stdlib Require Import ZArith QArith String Ascii List Bool Lia Lqa.
From Stdlib Require Import DecimalString Qabs.
Import ListNotations.

Local Open Scope Z_scope.

(** ** Rate limiter *)

Record RateLimitConfig : Type := {
  maxRequests : Z;
  windowMs : Z
}.

Module RateLimiter.

(** [class RateLimiter]: the recorded timestamps, oldest first. *)
Record t : Type := {
  requests : list Z;
  config : RateLimitConfig
}.

Definition new (cfg : RateLimitConfig) : t :=
  {| requests := []; config := cfg |}.

(** The first step of [waitForSlot]: drop what left the window. *)
Definition inWindow (this : t) (now : Z) : list Z :=
  let windowStart := now - windowMs (config this) in
  filter (fun time => windowStart <? time) (requests this).

(** The delay [waitForSlot] sleeps for a call that starts at [now];
    [None] when no timer is set.  With an empty list [requests[0]] is
    [undefined], the wait is [NaN] and [NaN > 0] is false. *)
Definition waitTime (this : t) (now : Z) : option Z :=
  let kept := inWindow this now in
  if maxRequests (config this) <=? Z.of_nat (length kept) then
    match kept with
    | [] => None
    | oldestRequest :: _ =>
        let waitTime := oldestRequest + windowMs (config this) - now in
        if 0 <? waitTime then Some waitTime else None
    end
  else None.

Definition slept (this : t) (now : Z) : Z :=
  match waitTime this now with Some w => w | None => 0 end.

(** [waitForSlot], for a call whose first [Date.now()] reads [now].  The
    second [Date.now()], the one that is pushed, reads [now] plus the time
    slept plus [lag], the time the timer and the scheduler add on top: a
    timer does not fire before its delay has passed.  The result is the
    timestamp pushed and the limiter afterwards. *)
Definition waitForSlot (now : Z) (lag : N) (this : t) : Z * t :=
  let recorded := now + slept this now + Z.of_N lag in
  (recorded,
   {| requests := inWindow this now ++ [recorded]; config := config this |}).

Definition reset (this : t) : t :=
  {| requests := []; config := config this |}.

(** Sequential callers: each call starts [idle] ms after the previous one
    returned. *)
Record Call : Type := { idle : N; lag : N }.

(** What one call did: when it started, how long it slept, and the
    timestamp it recorded on admission. *)
Record Admission : Type := { startedAt : Z; sleptMs : Z; admittedAt : Z }.

Fixpoint run (clock : Z) (this : t) (calls : list Call) : list Admission :=
  match calls with
  | [] => []
  | c :: rest =>
      let now := clock + Z.of_N (idle c) in
      let '(recorded, this') := waitForSlot now (lag c) this in
      {| startedAt := now; sleptMs := slept this now; admittedAt := recorded |}
        :: run recorded this' rest
  end.



End RateLimiter.


(** ** JavaScript strings *)

Module JS.

Local Open Scope char_scope.
Local Open Scope string_scope.

Definition quote : ascii := "034".

(** Source texts are written with apostrophes where the JavaScript text has
    double quotes; [dq] puts the double quotes back. *)
Fixpoint dq (s : string) : string :=
  match s with
  | EmptyString => EmptyString
  | String c r => String (if Ascii.eqb c "'" then quote else c) (dq r)
  end.

Fixpoint startsWith (s prefix : string) : bool :=
  match prefix, s with
  | EmptyString, _ => true
  | String _ _, EmptyString => false
  | String a p', String b s' => Ascii.eqb a b && startsWith s' p'
  end.

(** [s.includes(needle)] *)
Fixpoint includes (s needle : string) : bool :=
  startsWith s needle ||
  match s with
  | EmptyString => false
  | String _ r => includes r needle
  end.

Fixpoint drop (n : nat) (s : string) : string :=
  match n, s with
  | O, _ => s
  | S _, EmptyString => EmptyString
  | S n', String _ r => drop n' r
  end.

(** [s.substring(0, n)] *)
Fixpoint take (n : nat) (s : string) : string :=
  match n, s with
  | O, _ => EmptyString
  | S _, EmptyString => EmptyString
  | S n', String c r => String c (take n' r)
  end.

(** [(s.match(/c/g) || []).length] for a one-character pattern. *)
Fixpoint count (c : ascii) (s : string) : nat :=
  match s with
  | EmptyString => O
  | String a r => (if Ascii.eqb a c then 1 else 0) + count c r
  end.

(** [s.indexOf(c)] and [s.lastIndexOf(c)]; [None] stands for -1. *)
Fixpoint indexOf (c : ascii) (s : string) : option nat :=
  match s with
  | EmptyString => None
  | String a r =>
      if Ascii.eqb a c then Some O else option_map S (indexOf c r)
  end.

Fixpoint lastIndexOf (c : ascii) (s : string) : option nat :=
  match s with
  | EmptyString => None
  | String a r =>
      match lastIndexOf c r with
      | Some i => Some (S i)
      | None => if Ascii.eqb a c then Some O else None
      end
  end.

(** [s.split(sep)] for a one-character separator. *)
Fixpoint split (sep : ascii) (s : string) : list string :=
  match s with
  | EmptyString => [EmptyString]
  | String a r =>
      if Ascii.eqb a sep then EmptyString :: split sep r
      else match split sep r with
           | [] => [String a EmptyString]
           | part :: parts => String a part :: parts
           end
  end.

Fixpoint repeatChar (c : ascii) (n : nat) : string :=
  match n with
  | O => EmptyString
  | S n' => String c (repeatChar c n')
  end.

(** The characters of the regular-expression class [\s], which are also the
    ones [trim] removes: the six ASCII ones, and in UTF-8 U+00A0, U+1680,
    U+2000 to U+200A, U+2028, U+2029, U+202F, U+205F, U+3000 and U+FEFF. *)
Definition isAsciiSpace (c : ascii) : bool :=
  let n := N_of_ascii c in
  (N.leb 9 n && N.leb n 13) || N.eqb n 32.

Definition isSpace2 (c1 c2 : ascii) : bool :=
  N.eqb (N_of_ascii c1) 194 && N.eqb (N_of_ascii c2) 160.

Definition isSpace3 (c1 c2 c3 : ascii) : bool :=
  let a := N_of_ascii c1 in
  let b := N_of_ascii c2 in
  let c := N_of_ascii c3 in
  (N.eqb a 225 && N.eqb b 154 && N.eqb c 128)
  || (N.eqb a 226 && N.eqb b 128
      && ((N.leb 128 c && N.leb c 138) || N.eqb c 168 || N.eqb c 169
          || N.eqb c 175))
  || (N.eqb a 226 && N.eqb b 129 && N.eqb c 159)
  || (N.eqb a 227 && N.eqb b 128 && N.eqb c 128)
  || (N.eqb a 239 && N.eqb b 187 && N.eqb c 191).

(** What is left of [s] after a greedy [\s*]. *)
Fixpoint skipWs (s : string) : string :=
  match s with
  | EmptyString => s
  | String c1 r1 =>
      if isAsciiSpace c1 then skipWs r1 else
      match r1 with
      | EmptyString => s
      | String c2 r2 =>
          if isSpace2 c1 c2 then skipWs r2 else
          match r2 with
          | EmptyString => s
          | String c3 r3 => if isSpace3 c1 c2 c3 then skipWs r3 else s
          end
      end
  end.

(** [s.trim().length === 0] *)
Definition trimIsEmpty (s : string) : bool :=
  match skipWs s with EmptyString => true | _ => false end.

(** Decimal rendering of an integer, as a template literal does it. *)
Definition decimal (z : Z) : string :=
  DecimalString.NilZero.string_of_int (Z.to_int z).

End JS.


(** ** Results and errors (shared/types/core.ts) *)

Module Core.

Local Open Scope string_scope.

Inductive ErrorCategory : Type := DOMAIN | INFRASTRUCTURE | UI | NETWORK.

Inductive ErrorSeverity : Type := CRITICAL | WARNING | INFO.

(** What the service stores in the [context] of an error. *)
Inductive ContextValue : Type :=
| CtxNumber (n : Z)
| CtxString (s : string)
| CtxUndefined.

(** [interface AppError], without its [timestamp] (a wall-clock [Date]) and
    its optional [recovery], which the service never sets. *)
Record AppError : Type := {
  code : string;
  category : ErrorCategory;
  severity : ErrorSeverity;
  userMessage : string;
  technicalMessage : string;
  context : option (list (string * ContextValue))
}.

Definition createError (code : string) (category : ErrorCategory)
    (severity : ErrorSeverity) (userMessage technicalMessage : string)
    (context : option (list (string * ContextValue))) : AppError :=
  {| code := code; category := category; severity := severity;
     userMessage := userMessage; technicalMessage := technicalMessage;
     context := context |}.

(** [type Result<T>]: [{ success: true, data }] or [{ success: false, error }]. *)
Inductive Result (T : Type) : Type :=
| ok (data : T)
| err (error : AppError).

Arguments ok {T} data.
Arguments err {T} error.

End Core.

(** ** Exceptions and promises *)

Module Err.

Inductive Kind : Type := Error | TypeError | SyntaxError.

(** A thrown [Error]: its [message] and the [code] Node.js attaches to
    system errors.  The wording of the messages the engine itself raises is
    V8's and no statement depends on it. *)
Record t : Type := {
  kind : Kind;
  message : string;
  code : option string
}.

Definition new (message : string) : t :=
  {| kind := Error; message := message; code := None |}.

Definition typeError (message : string) : t :=
  {| kind := TypeError; message := message; code := None |}.

End Err.

(** How a call ends: it returns (a promise resolves) or it throws (a promise
    rejects). *)
Inductive Settled (A : Type) : Type :=
| Resolved (a : A)
| Rejected (e : Err.t).

Arguments Resolved {A} a.
Arguments Rejected {A} e.

Definition andThen {A B : Type} (m : Settled A) (k : A -> Settled B)
  : Settled B :=
  match m with
  | Resolved a => k a
  | Rejected e => Rejected e
  end.

Notation "'let*' x ':=' m 'in' k" := (andThen m (fun x => k))
  (at level 10, x name, m at level 100, k at level 200).

(** [array.map(callback)] for a callback that may throw: elements are
    visited in order, with their index, and the first exception ends it. *)
Fixpoint mapWithIndex {A B : Type} (callback : A -> nat -> Settled B)
    (index : nat) (l : list A) : Settled (list B) :=
  match l with
  | [] => Resolved []
  | item :: rest =>
      let* b := callback item index in
      let* bs := mapWithIndex callback (S index) rest in
      Resolved (b :: bs)
  end.


(** ** JSON values and [JSON.parse] *)

Module JSON.

Import JS.
Local Open Scope string_scope.
Local Open Scope Z_scope.

(** A parsed value.  A number is the exact rational its literal denotes; an
    object keeps its members in source order, a repeated key being read
    through its last occurrence. *)
#[local] Set Warnings "-register-all".
Inductive value : Type :=
| Null
| Bool (b : bool)
| Number (q : Q)
| Str (s : string)
| Array (elements : list value)
| Object (members : list (string * value)).

Definition isJsonSpace (c : ascii) : bool :=
  let n := N_of_ascii c in
  N.eqb n 32 || N.eqb n 9 || N.eqb n 10 || N.eqb n 13.

Fixpoint skipSpace (s : string) : string :=
  match s with
  | String c r => if isJsonSpace c then skipSpace r else s
  | EmptyString => s
  end.

Definition digitValue (c : ascii) : option Z :=
  let n := N_of_ascii c in
  if N.leb 48 n && N.leb n 57 then Some (Z.of_N (n - 48)) else None.

(** Reads a run of decimal digits: the number read so far, how many digits
    were read, and the rest of the text. *)
Fixpoint digits (s : string) (acc : Z) (n : Z) : Z * Z * string :=
  match s with
  | EmptyString => (acc, n, s)
  | String c r =>
      match digitValue c with
      | Some d => digits r (10 * acc + d) (n + 1)
      | None => (acc, n, s)
      end
  end.

Definition scale (m e : Z) : Q :=
  if 0 <=? e then Qmake (m * 10 ^ e) 1
  else Qred (Qmake m (Z.to_pos (10 ^ (- e)))).

(** What follows the character [c] when the text starts with it. *)
Definition expect (c : ascii) (s : string) : option string :=
  match s with
  | String x r => if Ascii.eqb x c then Some r else None
  | EmptyString => None
  end.

(** The integer part: a single zero, or digits. *)
Definition parseInt (s : string) : option (Z * string) :=
  match expect "0" s with
  | Some r => Some (0, r)
  | None =>
      let '(i, n, r) := digits s 0 0 in
      if 0 <? n then Some (i, r) else None
  end.

(** The optional fraction after the integer part [i]: the digits read so
    far, how many of them follow the point, and the rest. *)
Definition parseFrac (i : Z) (s : string) : option (Z * Z * string) :=
  match expect "." s with
  | Some r =>
      let '(m, n, r') := digits r i 0 in
      if 0 <? n then Some (m, n, r') else None
  | None => Some (i, 0, s)
  end.

(** The optional exponent. *)
Definition parseExp (s : string) : option (Z * string) :=
  match (match expect "e" s with Some r => Some r | None => expect "E" s end)
  with
  | Some r =>
      let '(sign, r1) :=
        match expect "-" r with
        | Some r' => (-1, r')
        | None =>
            match expect "+" r with
            | Some r' => (1, r')
            | None => (1, r)
            end
        end in
      let '(e, n, r2) := digits r1 0 0 in
      if 0 <? n then Some (sign * e, r2) else None
  | None => Some (0, s)
  end.

(** A JSON number: an optional minus sign, an integer part without a
    leading zero, an optional fraction and an optional exponent. *)
Definition parseNumber (s : string) : option (Q * string) :=
  let '(neg, s1) :=
    match expect "-" s with
    | Some r => (true, r)
    | None => (false, s)
    end in
  match parseInt s1 with
  | None => None
  | Some (i, s2) =>
      match parseFrac i s2 with
      | None => None
      | Some (m, k, s3) =>
          match parseExp s3 with
          | None => None
          | Some (e, s4) =>
              Some (scale (if neg : bool then - m else m) (e - k), s4)
          end
      end
  end.

Definition hexValue (c : ascii) : option N :=
  let n := N_of_ascii c in
  if N.leb 48 n && N.leb n 57 then Some (n - 48)%N
  else if N.leb 65 n && N.leb n 70 then Some (n - 55)%N
  else if N.leb 97 n && N.leb n 102 then Some (n - 87)%N
  else None.

(** The UTF-8 bytes of one UTF-16 unit (an escaped surrogate is encoded on
    its own, as in CESU-8). *)
Definition utf8 (u : N) : string :=
  if N.ltb u 128 then String (ascii_of_N u) EmptyString
  else if N.ltb u 2048 then
    String (ascii_of_N (192 + u / 64))
      (String (ascii_of_N (128 + u mod 64)) EmptyString)
  else
    String (ascii_of_N (224 + u / 4096))
      (String (ascii_of_N (128 + (u / 64) mod 64))
         (String (ascii_of_N (128 + u mod 64)) EmptyString)).

Definition simpleEscape (c : ascii) : option ascii :=
  if Ascii.eqb c quote then Some quote
  else if Ascii.eqb c "\" then Some "\"%char
  else if Ascii.eqb c "/" then Some "/"%char
  else if Ascii.eqb c "b" then Some "008"%char
  else if Ascii.eqb c "f" then Some "012"%char
  else if Ascii.eqb c "n" then Some "010"%char
  else if Ascii.eqb c "r" then Some "013"%char
  else if Ascii.eqb c "t" then Some "009"%char
  else None.

Definition consTo (pre : string) (r : option (string * string))
  : option (string * string) :=
  match r with
  | Some (body, rest) => Some (pre ++ body, rest)
  | None => None
  end.

(** The body of a string literal, read from just after its opening quote:
    the decoded text and what follows the closing quote. *)
Fixpoint parseString (s : string) : option (string * string) :=
  match s with
  | EmptyString => None
  | String c r =>
      if Ascii.eqb c quote then Some (EmptyString, r)
      else if Ascii.eqb c "\" then
        match r with
        | EmptyString => None
        | String e r1 =>
            match simpleEscape e with
            | Some ch => consTo (String ch EmptyString) (parseString r1)
            | None =>
                if Ascii.eqb e "u" then
                  match r1 with
                  | String h1 (String h2 (String h3 (String h4 r2))) =>
                      match hexValue h1, hexValue h2, hexValue h3,
                            hexValue h4 with
                      | Some a, Some b, Some c', Some d =>
                          consTo (utf8 (((a * 16 + b) * 16 + c') * 16 + d))
                                 (parseString r2)
                      | _, _, _, _ => None
                      end
                  | _ => None
                  end
                else None
            end
        end
      else if N.ltb (N_of_ascii c) 32 then None
      else consTo (String c EmptyString) (parseString r)
  end.

(** Recursive descent.  Every call made on behalf of a nested value or of
    the next element spends one unit of [fuel]: entering a container costs
    two units and at least one character, moving to the next element one
    unit and at least two characters, so twice the length of the text, which
    is what [parse] gives, is never used up. *)
Fixpoint parseValue (fuel : nat) (s : string) : option (value * string) :=
  match fuel with
  | O => None
  | S fuel' =>
      match skipSpace s with
      | EmptyString => None
      | String c r as s' =>
          if Ascii.eqb c "{" then
            match expect "}" (skipSpace r) with
            | Some r' => Some (Object [], r')
            | None => parseMembers fuel' r []
            end
          else if Ascii.eqb c "[" then
            match expect "]" (skipSpace r) with
            | Some r' => Some (Array [], r')
            | None => parseElements fuel' r []
            end
          else if Ascii.eqb c quote then
            match parseString r with
            | Some (str, r') => Some (Str str, r')
            | None => None
            end
          else if startsWith s' "true" then Some (Bool true, drop 4 s')
          else if startsWith s' "false" then Some (Bool false, drop 5 s')
          else if startsWith s' "null" then Some (Null, drop 4 s')
          else
            match parseNumber s' with
            | Some (q, r') => Some (Number q, r')
            | None => None
            end
      end
  end

with parseElements (fuel : nat) (s : string) (acc : list value)
  : option (value * string) :=
  match fuel with
  | O => None
  | S fuel' =>
      match parseValue fuel' s with
      | None => None
      | Some (v, r) =>
          match expect "," (skipSpace r) with
          | Some r' => parseElements fuel' r' (v :: acc)
          | None =>
              match expect "]" (skipSpace r) with
              | Some r' => Some (Array (rev (v :: acc)), r')
              | None => None
              end
          end
      end
  end

with parseMembers (fuel : nat) (s : string) (acc : list (string * value))
  : option (value * string) :=
  match fuel with
  | O => None
  | S fuel' =>
      match expect quote (skipSpace s) with
      | None => None
      | Some r =>
          match parseString r with
          | None => None
          | Some (key, r1) =>
              match expect ":" (skipSpace r1) with
              | None => None
              | Some r2 =>
                  match parseValue fuel' r2 with
                  | None => None
                  | Some (v, r3) =>
                      match expect "," (skipSpace r3) with
                      | Some r4 => parseMembers fuel' r4 ((key, v) :: acc)
                      | None =>
                          match expect "}" (skipSpace r3) with
                          | Some r4 =>
                              Some (Object (rev ((key, v) :: acc)), r4)
                          | None => None
                          end
                      end
                  end
              end
          end
      end
  end.

(** [JSON.parse(text)]; [None] when it throws a [SyntaxError]. *)
Definition parse (text : string) : option value :=
  match parseValue (2 * String.length text + 2) text with
  | Some (v, rest) =>
      match skipSpace rest with
      | EmptyString => Some v
      | _ => None
      end
  | None => None
  end.

(** ** Reading a parsed value the way JavaScript does *)

(** The last member called [key], if any. *)
Fixpoint lookup (key : string) (members : list (string * value))
  : option value :=
  match members with
  | [] => None
  | (k, v) :: rest =>
      match lookup key rest with
      | Some v' => Some v'
      | None => if String.eqb k key then Some v else None
      end
  end.

(** [!!v]: [null], [false], [0] and the empty string are falsy.  A literal
    reads as the number zero when rounding it to a double gives zero, that
    is when its magnitude is at most 2^-1075. *)
Definition truthy (v : value) : bool :=
  match v with
  | Null => false
  | Bool b => b
  | Number q => negb (Qle_bool (Qabs q) (Qmake 1 (2 ^ 1075)))
  | Str s => match s with EmptyString => false | _ => true end
  | Array _ => true
  | Object _ => true
  end.

(** [v.key] for the property names the service reads, none of which is an
    index, [length] or a name that a prototype defines: reading a property
    of [null] throws, a primitive or an array has no such property, and the
    result [None] is [undefined]. *)
Definition get (v : value) (key : string) : Settled (option value) :=
  match v with
  | Null =>
      Rejected (Err.typeError "Cannot read properties of null")
  | Object members => Resolved (lookup key members)
  | _ => Resolved None
  end.

(** [x || []] *)
Definition orEmptyArray (x : option value) : value :=
  match x with
  | Some v => if truthy v then v else Array []
  | None => Array []
  end.

(** [x.map(callback)]: only an array has a [map] that can be called. *)
Definition map {B : Type} (x : value) (callback : value -> nat -> Settled B)
  : Settled (list B) :=
  match x with
  | Array elements => mapWithIndex callback 0 elements
  | _ => Rejected (Err.typeError "map is not a function")
  end.

(** Whether converting [v] to a primitive throws: a parsed object converts
    through [Object.prototype.toString] unless a member of its own shadows
    it, which then is not callable; an array joins its elements. *)
Fixpoint toPrimitiveThrows (v : value) : bool :=
  match v with
  | Object members =>
      match lookup "toString" members with Some _ => true | None => false end
  | Array elements => existsb toPrimitiveThrows elements
  | _ => false
  end.

(** A [Date], kept as the argument it was constructed from. *)
Inductive Date : Type := newDate (arg : option value).

(** [new Date(x)] *)
Definition constructDate (x : option value) : Settled Date :=
  match x with
  | Some v =>
      if toPrimitiveThrows v
      then Rejected (Err.typeError "Cannot convert object to primitive value")
      else Resolved (newDate x)
  | None => Resolved (newDate None)
  end.

End JSON.


(** ** The service (GLMService.ts) *)

(** [interface GLMConfig]: what the caller passes; an absent optional field
    is [None]. *)
Module GLMConfig.

Record t : Type := {
  apiKey : string;
  model : option string;
  temperature : option Q;
  topP : option Q;
  maxTokens : option Z;
  timeout : option Z;
  maxRetries : option Z;
  maxRequestsPerMinute : option Z;
  proxy : option string
}.

End GLMConfig.

(** [Required<GLMConfig>]: the configuration the service holds. *)
Module Config.

Record t : Type := {
  apiKey : string;
  model : string;
  temperature : Q;
  topP : Q;
  maxTokens : Z;
  timeout : Z;
  maxRetries : Z;
  maxRequestsPerMinute : Z;
  proxy : string
}.

(** [x || fallback], for a number (zero is falsy) and for a string (the
    empty string is falsy). *)
Definition orZ (x : option Z) (fallback : Z) : Z :=
  match x with
  | Some n => if n =? 0 then fallback else n
  | None => fallback
  end.

Definition orQ (x : option Q) (fallback : Q) : Q :=
  match x with
  | Some q => if Qeq_bool q 0 then fallback else q
  | None => fallback
  end.

Definition orString (x : option string) (fallback : string) : string :=
  match x with
  | Some EmptyString => fallback
  | Some s => s
  | None => fallback
  end.

Definition setApiKey (apiKey : string) (c : t) : t :=
  {| apiKey := apiKey; model := model c; temperature := temperature c;
     topP := topP c; maxTokens := maxTokens c; timeout := timeout c;
     maxRetries := maxRetries c;
     maxRequestsPerMinute := maxRequestsPerMinute c; proxy := proxy c |}.

End Config.

(** The prompt of a request.  prompts.ts is not embedded: a prompt stays the
    call that builds it, with the template named and the parameters as
    given ([truncateContent] is applied under its token budget). *)
Inductive Template : Type :=
| CRITERIA_EXTRACTION_PROMPT
| VISIT_SCHEDULE_EXTRACTION_PROMPT
| MEDICATION_RECOGNITION_PROMPT
| SUBJECT_NUMBER_EXTRACTION_PROMPT
| SUBJECT_VISIT_DATES_PROMPT
| SUBJECT_VISIT_ITEMS_PROMPT.

Inductive Text : Type :=
| Given (s : string)
| truncateContent (content : string) (maxTokens : Z).

Inductive Prompt : Type :=
| SYSTEM_PROMPT
| formatPrompt (template : Template) (params : list (string * Text)).

Record Message : Type := { role : string; content : Prompt }.

(** The bearer token [generateToken] signs, kept as the data it is computed
    from: HMAC-SHA256 and base64url are library calls. *)
Record Token : Type := {
  api_key : string;
  exp : Z;
  timestamp : Z;
  secret : string
}.

Record RequestBody : Type := {
  body_model : string;
  body_messages : list Message;
  body_temperature : Q;
  body_top_p : Q;
  body_max_tokens : Z
}.

(** A request written to the endpoint. *)
Record Sent : Type := {
  url : string;
  token : Token;
  body : RequestBody
}.

(** What a call does to the outside world, in order: the transport is
    invoked for an attempt, a request is written, a backoff timer is set. *)
Inductive Event : Type :=
| Invoke (attempt : nat)
| Request (sent : Sent)
| Backoff (delay : Q).

Definition isInvoke (e : Event) : bool :=
  match e with Invoke _ => true | _ => false end.

Definition isRequest (e : Event) : bool :=
  match e with Request _ => true | _ => false end.

(** How many times the transport was invoked. *)
Definition invocations (trace : list Event) : nat :=
  length (filter isInvoke trace).

(** How many requests were written. *)
Definition requestsSent (trace : list Event) : nat :=
  length (filter isRequest trace).

(** The delays of the backoff timers set, in order. *)
Fixpoint backoffs (trace : list Event) : list Q :=
  match trace with
  | [] => []
  | Backoff d :: rest => d :: backoffs rest
  | _ :: rest => backoffs rest
  end.

(** The shapes the operations return.  A field copied from the response
    holds whatever the response had there: a parsed value, or [None] for
    [undefined]. *)
Module Criterion.
Record t : Type := {
  id : string;
  number : option JSON.value;
  description : option JSON.value;
  category : option JSON.value;
  _aiExtracted : bool
}.
End Criterion.

Record CriteriaSet : Type := {
  inclusionCriteria : list Criterion.t;
  exclusionCriteria : list Criterion.t
}.

Module Procedure.
Record t : Type := {
  id : string;
  name : option JSON.value;
  category : option JSON.value;
  timing : option JSON.value;
  required : JSON.value
}.
End Procedure.

Module Assessment.
Record t : Type := {
  id : string;
  name : option JSON.value;
  type : option JSON.value;
  timing : option JSON.value;
  required : JSON.value
}.
End Assessment.

Module VisitSchedule.
Record t : Type := {
  id : string;
  visitNumber : option JSON.value;
  visitName : option JSON.value;
  windowStart : option JSON.value;
  windowEnd : option JSON.value;
  procedures : list Procedure.t;
  assessments : list Assessment.t;
  _aiExtracted : bool
}.
End VisitSchedule.

Module MedicationRecord.
Record t : Type := {
  id : string;
  medicationName : option JSON.value;
  dosage : option JSON.value;
  frequency : option JSON.value;
  route : option JSON.value;
  startDate : JSON.Date;
  endDate : option JSON.Date;
  indication : option JSON.value;
  _aiRecognized : bool;
  _confidence : option JSON.value
}.
End MedicationRecord.

(** What the environment decides during one operation. *)
Record Env : Type := {
  now : Z;                          (* [Date.now()] as [waitForSlot] starts *)
  lag : N;                          (* see [RateLimiter.waitForSlot] *)
  random : nat -> Q;                (* the k-th [Math.random()] *)
  attemptClock : nat -> Z;          (* [Date.now()] as attempt k signs *)
  exchange : nat -> Settled string; (* how the exchange of attempt k settles *)
  transformClock : Z                (* [Date.now()] while the reply is mapped *)
}.

(** [generateToken(apiKey)], called when [Date.now()] reads [now]. *)
Definition generateToken (apiKey : string) (now : Z) : Settled Token :=
  match JS.split "."%char apiKey with
  | [id; secret] =>
      Resolved {| api_key := id; exp := now + 3600000; timestamp := now;
                  secret := secret |}
  | _ => Rejected (Err.new "无效的API密钥格式"%string)
  end.

Module GLMService.

Import JS Core.
Local Open Scope string_scope.
Local Open Scope Z_scope.

Record t : Type := {
  config : Config.t;
  rateLimiter : RateLimiter.t;
  baseURL : string;
  initialized : bool
}.

(** [constructor(config)] *)
Definition new (config : GLMConfig.t) : t :=
  let resolved :=
    {| Config.apiKey := GLMConfig.apiKey config;
       Config.model := Config.orString (GLMConfig.model config) "glm-4";
       Config.temperature :=
         Config.orQ (GLMConfig.temperature config) (3 # 10);
       Config.topP := Config.orQ (GLMConfig.topP config) (7 # 10);
       Config.maxTokens := Config.orZ (GLMConfig.maxTokens config) 10000;
       Config.timeout := Config.orZ (GLMConfig.timeout config) 120000;
       Config.maxRetries := Config.orZ (GLMConfig.maxRetries config) 3;
       Config.maxRequestsPerMinute :=
         Config.orZ (GLMConfig.maxRequestsPerMinute config) 60;
       Config.proxy := Config.orString (GLMConfig.proxy config) EmptyString
    |} in
  {| config := resolved;
     baseURL := "https://open.bigmodel.cn/api/paas/v4/chat/completions";
     rateLimiter :=
       RateLimiter.new
         {| maxRequests := Config.maxRequestsPerMinute resolved;
            windowMs := 60000 |};
     initialized := false |}.

Definition setInitialized (b : bool) (this : t) : t :=
  {| config := config this; rateLimiter := rateLimiter this;
     baseURL := baseURL this; initialized := b |}.

Definition setRateLimiter (r : RateLimiter.t) (this : t) : t :=
  {| config := config this; rateLimiter := r;
     baseURL := baseURL this; initialized := initialized this |}.

Definition setConfig (c : Config.t) (this : t) : t :=
  {| config := c; rateLimiter := rateLimiter this;
     baseURL := baseURL this; initialized := initialized this |}.

Definition source : option (list (string * ContextValue)) :=
  Some [("source", CtxString "GLMService")].

(** [initialize()]: the result and the service afterwards. *)
Definition initialize (this : t) : Result unit * t :=
  match Config.apiKey (config this) with
  | EmptyString =>
      (err (createError "AI_NO_API_KEY" DOMAIN CRITICAL
              "请先设置GLM-4 API密钥" "API key is not configured" source),
       this)
  | _ => (ok tt, setInitialized true this)
  end.

(** [updateApiKey(apiKey)] *)
Definition updateApiKey (apiKey : string) (this : t) : Result unit * t :=
  initialize
    (setInitialized false
       (setConfig (Config.setApiKey apiKey (config this)) this)).

Definition resetRateLimiter (this : t) : t :=
  setRateLimiter (RateLimiter.reset (rateLimiter this)) this.

(** *** Retry *)

Definition lower (c : ascii) : ascii :=
  let n := N_of_ascii c in
  if N.leb 65 n && N.leb n 90 then ascii_of_N (n + 32) else c.

Fixpoint startsWithCI (s prefix : string) : bool :=
  match prefix, s with
  | EmptyString, _ => true
  | String _ _, EmptyString => false
  | String a p', String b s' =>
      Ascii.eqb (lower a) (lower b) && startsWithCI s' p'
  end.

(** [/pattern/i.test(s)] for a pattern that is plain text. *)
Fixpoint testCI (s pattern : string) : bool :=
  startsWithCI s pattern ||
  match s with
  | EmptyString => false
  | String _ r => testCI r pattern
  end.

Definition isDigit (c : ascii) : bool :=
  let n := N_of_ascii c in N.leb 48 n && N.leb n 57.

(** [/5\d\d/.test(s)] *)
Fixpoint test5xx (s : string) : bool :=
  match s with
  | EmptyString => false
  | String c r =>
      (Ascii.eqb c "5" &&
       match r with
       | String d1 (String d2 _) => isDigit d1 && isDigit d2
       | _ => false
       end)
      || test5xx r
  end.

Definition retryableCodes : list string :=
  ["ECONNRESET"; "ECONNABORTED"; "ETIMEDOUT"; "ENOTFOUND"; "EPIPE";
   "EAI_AGAIN"].

Definition isRetryableError (error : Err.t) : bool :=
  let errorMessage := Err.message error in
  let errorCode := Err.code error in
  match errorCode with
  | Some c => existsb (String.eqb c) retryableCodes
  | None => false
  end
  || testCI errorMessage "socket hang up"
  || testCI errorMessage "timeout"
  || testCI errorMessage "network"
  || testCI errorMessage "fetch failed"
  || test5xx errorMessage.

(** The errors the loop of [callWithRetry] retries: the message holds none
    of 401, 403 and 400, and [isRetryableError] accepts the error. *)
Definition retried (error : Err.t) : bool :=
  negb (includes (Err.message error) "401")
  && negb (includes (Err.message error) "403")
  && negb (includes (Err.message error) "400")
  && isRetryableError error.

Definition ctxCode (c : option string) : ContextValue :=
  match c with Some s => CtxString s | None => CtxUndefined end.

(** The error returned once every attempt has failed. *)
Definition exhausted (this : t) (context : string)
    (lastError : option Err.t) : AppError :=
  let errorCode :=
    match lastError with Some e => Err.code e | None => None end in
  let errorMessage :=
    match lastError with
    | Some e =>
        match Err.message e with
        | EmptyString => "Unknown error"
        | m => m
        end
    | None => "Unknown error"
    end in
  let userMessage :=
    match errorCode with
    | Some c =>
        if String.eqb c "ECONNRESET" then
          "API连接被服务器中断，可能是服务器繁忙或请求过大，请稍后重试"
        else if String.eqb c "ETIMEDOUT" then
          "API请求超时，请检查网络连接或稍后重试"
        else if String.eqb c "ENOTFOUND" then
          "无法连接到API服务器，请检查网络设置"
        else "AI请求失败，请检查网络连接"
    | None => "AI请求失败，请检查网络连接"
    end in
  createError "AI_REQUEST_FAILED" NETWORK CRITICAL userMessage errorMessage
    (Some [("attempts", CtxNumber (Config.maxRetries (config this)));
           ("context", CtxString context);
           ("errorCode", ctxCode errorCode)]).

(** The delay before the attempt after [attempt]:
    [1000 * Math.pow(2, attempt) + Math.random() * 500]. *)
Definition backoffDelay (attempt : nat) (random : Q) : Q :=
  (inject_Z (1000 * 2 ^ Z.of_nat attempt) + random * 500)%Q.

(** The loop of [callWithRetry], entered with [remaining] iterations left
    before [attempt] reaches [maxRetries].  [fn k] is what the [k]-th
    invocation of the transport does and how its promise settles; [random k]
    is what the [k]-th call of [Math.random] returns. *)
Fixpoint attempts {T : Type} (this : t) (random : nat -> Q)
    (fn : nat -> list Sent * Settled T) (context : string)
    (remaining attempt : nat) (lastError : option Err.t)
  : Result T * list Event :=
  match remaining with
  | O => (err (exhausted this context lastError), [])
  | S remaining' =>
      let '(sent, outcome) := fn attempt in
      let effects := Invoke attempt :: List.map Request sent in
      match outcome with
      | Resolved result => (ok result, effects)
      | Rejected error =>
          if includes (Err.message error) "401"
             || includes (Err.message error) "403" then
            (err (createError "AI_AUTH_FAILED" NETWORK CRITICAL
                    "API密钥无效或权限不足，请检查设置" (Err.message error)
                    (Some [("attempt", CtxNumber (Z.of_nat attempt));
                           ("context", CtxString context)])),
             effects)
          else if includes (Err.message error) "400" then
            (err (createError "AI_BAD_REQUEST" DOMAIN CRITICAL
                    "请求格式错误" (Err.message error)
                    (Some [("attempt", CtxNumber (Z.of_nat attempt));
                           ("context", CtxString context)])),
             effects)
          else if negb (isRetryableError error) then
            (err (createError "AI_REQUEST_FAILED" NETWORK CRITICAL
                    "AI请求失败，请检查网络连接" (Err.message error)
                    (Some [("attempts", CtxNumber (Z.of_nat attempt + 1));
                           ("context", CtxString context)])),
             effects)
          else
            let pause :=
              if Z.of_nat attempt <? Config.maxRetries (config this) - 1
              then [Backoff (backoffDelay attempt (random attempt))]
              else [] in
            let '(result, later) :=
              attempts this random fn context remaining' (S attempt)
                (Some error) in
            (result, (effects ++ pause ++ later)%list)
      end
  end.

(** [callWithRetry(fn, context)], for a call whose [waitForSlot] starts at
    [now]: the result, what was done, and the service afterwards. *)
Definition callWithRetry {T : Type} (this : t) (now : Z) (lag : N)
    (random : nat -> Q) (fn : nat -> list Sent * Settled T)
    (context : string) : Result T * list Event * t :=
  if negb (initialized this) then
    (err (createError "AI_NOT_INITIALIZED" DOMAIN CRITICAL
            "AI服务未初始化" "GLM service is not initialized" source),
     [], this)
  else
    let '(_, limiter) :=
      RateLimiter.waitForSlot now lag (rateLimiter this) in
    (attempts this random fn context
       (Z.to_nat (Config.maxRetries (config this))) 0 None,
     setRateLimiter limiter this).

(** The error [callAPI] throws for a response whose status is not 200. *)
Definition statusError (statusCode : Z) (data : string) : Err.t :=
  Err.new ("API returned status " ++ decimal statusCode ++ ": " ++ data).

(** [callAPI(messages)] when [Date.now()] reads [now]; [exchange] is how the
    HTTPS exchange settles once the request is written: with the content of
    the reply, or with the error the response handlers reject with. *)
Definition callAPI (this : t) (messages : list Message) (now : Z)
    (exchange : Settled string) : list Sent * Settled string :=
  let apiKey := Config.apiKey (config this) in
  if (match apiKey with EmptyString => true | _ => false end)
     || trimIsEmpty apiKey then
    ([], Rejected (Err.new "API 密钥未设置"))
  else if negb (includes apiKey ".") then
    ([], Rejected (Err.new "API 密钥格式无效"))
  else
    match generateToken apiKey now with
    | Rejected e => ([], Rejected e)
    | Resolved token =>
        let requestBody :=
          {| body_model := Config.model (config this);
             body_messages := messages;
             body_temperature := Config.temperature (config this);
             body_top_p := Config.topP (config this);
             body_max_tokens := Config.maxTokens (config this) |} in
        ([{| url := baseURL this; token := token; body := requestBody |}],
         exchange)
    end.

(** *** Repair and parsing of the response *)

Definition isCloser (s : string) : bool :=
  match s with
  | String c _ => Ascii.eqb c "}" || Ascii.eqb c "]"
  | EmptyString => false
  end.

(** Step 1 of the repair, a global [replace]: every comma that only white
    space separates from a closing brace or bracket is removed. *)
Fixpoint removeTrailingCommas (s : string) : string :=
  match s with
  | EmptyString => EmptyString
  | String c r =>
      if Ascii.eqb c "," && isCloser (skipWs r) then removeTrailingCommas r
      else String c (removeTrailingCommas r)
  end.

(** The tail of the pattern of step 3: neither a comma nor a closing brace
    or bracket up to the end of the text. *)
Fixpoint noSeparator (s : string) : bool :=
  match s with
  | EmptyString => true
  | String c r =>
      negb (Ascii.eqb c "," || Ascii.eqb c "}" || Ascii.eqb c "]")
      && noSeparator r
  end.

(** The pattern of step 3 read after the quote that opens the key: some
    colon comes before any other quote, and no comma and no closing brace
    or bracket follows that colon. *)
Fixpoint keyThenRest (s : string) : bool :=
  match s with
  | EmptyString => false
  | String c r =>
      if Ascii.eqb c ":" then noSeparator r || keyThenRest r
      else if Ascii.eqb c quote then false
      else keyThenRest r
  end.

(** The pattern of step 3 read after its comma: white space, a quote, then
    [keyThenRest]. *)
Definition incompleteProperty (afterComma : string) : bool :=
  match skipWs afterComma with
  | String c r => Ascii.eqb c quote && keyThenRest r
  | EmptyString => false
  end.

(** Step 3 of the repair, a [replace] without the global flag of a pattern
    anchored at the end: the text is cut at the first comma from which the
    pattern matches. *)
Fixpoint dropIncompleteProperty (s : string) : string :=
  match s with
  | EmptyString => EmptyString
  | String c r =>
      if Ascii.eqb c "," && incompleteProperty r then EmptyString
      else String c (dropIncompleteProperty r)
  end.

(** Step 2 of the repair: with an odd number of quotes, and at least two
    of them, the text is cut after its last quote and a quote is added. *)
Definition closeString (fixed : string) : string :=
  let quotes := count quote fixed in
  let insideString := negb (Nat.even quotes) in
  if insideString then
    match lastIndexOf quote fixed with
    | Some lastQuoteIndex =>
        let beforeLastQuote := take lastQuoteIndex fixed in
        match lastIndexOf quote beforeLastQuote with
        | Some lastKeyStart =>
            if (lastKeyStart <? lastQuoteIndex)%nat
            then take (lastQuoteIndex + 1) fixed ++ String quote EmptyString
            else fixed
        | None => fixed
        end
    | None => fixed
    end
  else fixed.

(** Step 4 of the repair: the missing brackets, then the missing braces. *)
Definition closeOpen (fixed : string) : string :=
  let openBraces := Z.of_nat (count "{" fixed) in
  let closeBraces := Z.of_nat (count "}" fixed) in
  let openBrackets := Z.of_nat (count "[" fixed) in
  let closeBrackets := Z.of_nat (count "]" fixed) in
  let missingBrackets := openBrackets - closeBrackets in
  let missingBraces := openBraces - closeBraces in
  fixed ++ repeatChar "]" (Z.to_nat missingBrackets)
        ++ repeatChar "}" (Z.to_nat missingBraces).

Definition fixIncompleteJSON (jsonStr : string) : string :=
  closeOpen (dropIncompleteProperty (closeString (removeTrailingCommas jsonStr))).

Definition fence : string := "```".

(** [([\s\S]*?)\s*```]: the shortest text after which white space and a
    closing fence follow. *)
Fixpoint lazyToFence (s : string) : option string :=
  if startsWith (skipWs s) fence then Some EmptyString
  else
    match s with
    | EmptyString => None
    | String c r => option_map (String c) (lazyToFence r)
    end.

(** Group 1 of the first match of [opener\s*([\s\S]*?)\s*```]. *)
Fixpoint matchFence (opener : string) (s : string) : option string :=
  match
    (if startsWith s opener
     then lazyToFence (skipWs (drop (String.length opener) s))
     else None)
  with
  | Some group => Some group
  | None =>
      match s with
      | EmptyString => None
      | String _ r => matchFence opener r
      end
  end.

(** The match of [/\{[\s\S]*\}/]: from the first opening brace to the last
    closing brace after it. *)
Definition matchObject (s : string) : option string :=
  match indexOf "{" s with
  | None => None
  | Some i =>
      let from := drop i s in
      match lastIndexOf "}" from with
      | Some j => Some (take (S j) from)
      | None => None
      end
  end.

(** The text [parseJSONResponse] tries to parse. *)
Definition candidate (response : string) : string :=
  match matchFence "```json" response with
  | Some group => group
  | None =>
      match matchFence fence response with
      | Some group => group
      | None =>
          match matchObject response with
          | Some object => object
          | None => response
          end
      end
  end.

(** The body of each [try] block: [JSON.parse(text)], then the logging of
    [Object.keys(parsed)], which throws on [null]. *)
Definition tryParse (text : string) : Settled JSON.value :=
  match JSON.parse text with
  | None =>
      Rejected {| Err.kind := Err.SyntaxError;
                  Err.message := "Unexpected token in JSON";
                  Err.code := None |}
  | Some JSON.Null =>
      Rejected (Err.typeError "Cannot convert undefined or null to object")
  | Some parsed => Resolved parsed
  end.

Definition parseJSONResponse (response : string) : Result JSON.value :=
  let jsonStr := candidate response in
  match tryParse jsonStr with
  | Resolved parsed => ok parsed
  | Rejected _ =>
      match tryParse (fixIncompleteJSON jsonStr) with
      | Resolved parsed => ok parsed
      | Rejected error =>
          err (createError "AI_PARSE_FAILED" DOMAIN CRITICAL
                 "AI响应解析失败，返回的JSON格式不完整或有错误"
                 (Err.message error)
                 (Some [("response", CtxString (take 1000 response))]))
      end
  end.

(** *** The extraction operations *)

Definition system : Message := {| role := "system"; content := SYSTEM_PROMPT |}.

Definition user (prompt : Prompt) : Message :=
  {| role := "user"; content := prompt |}.

(** [this.callWithRetry(async () => await this.callAPI(messages), context)] *)
Definition request (this : t) (env : Env) (messages : list Message)
    (context : string) : Result string * list Event * t :=
  callWithRetry this (now env) (lag env) (random env)
    (fun attempt =>
       callAPI this messages (attemptClock env attempt) (exchange env attempt))
    context.

(** [`${prefix}-${Date.now()}-${index}`] *)
Definition stamp (prefix : string) (clock : Z) (index : nat) : string :=
  prefix ++ "-" ++ decimal clock ++ "-" ++ decimal (Z.of_nat index).

(** [x ?? true] *)
Definition orTrue (x : option JSON.value) : JSON.value :=
  match x with
  | None => JSON.Bool true
  | Some JSON.Null => JSON.Bool true
  | Some v => v
  end.

Definition criterion (prefix : string) (clock : Z) (item : JSON.value)
    (index : nat) : Settled Criterion.t :=
  let* number := JSON.get item "number" in
  let* description := JSON.get item "description" in
  let* category := JSON.get item "category" in
  Resolved {| Criterion.id := stamp prefix clock index;
              Criterion.number := number;
              Criterion.description := description;
              Criterion.category := category;
              Criterion._aiExtracted := true |}.

Definition extractCriteria (this : t) (env : Env) (protocolContent : string)
  : Settled (Result CriteriaSet) * list Event * t :=
  let prompt :=
    formatPrompt CRITERIA_EXTRACTION_PROMPT
      [("content", truncateContent protocolContent 8000)] in
  let '(responseResult, trace, this') :=
    request this env [system; user prompt] "extractCriteria" in
  (match responseResult with
   | err error => Resolved (err error)
   | ok response =>
       match parseJSONResponse response with
       | err error => Resolved (err error)
       | ok data =>
           let* inc := JSON.get data "inclusionCriteria" in
           let* inclusionCriteria :=
             JSON.map (JSON.orEmptyArray inc)
               (criterion "inc" (transformClock env)) in
           let* exc := JSON.get data "exclusionCriteria" in
           let* exclusionCriteria :=
             JSON.map (JSON.orEmptyArray exc)
               (criterion "exc" (transformClock env)) in
           Resolved (ok {| inclusionCriteria := inclusionCriteria;
                           exclusionCriteria := exclusionCriteria |})
       end
   end, trace, this').

Definition procedure (clock : Z) (index : nat) (p : JSON.value) (i : nat)
  : Settled Procedure.t :=
  let* name := JSON.get p "name" in
  let* category := JSON.get p "category" in
  let* timing := JSON.get p "timing" in
  let* required := JSON.get p "required" in
  Resolved {| Procedure.id :=
                stamp "proc" clock index ++ "-" ++ decimal (Z.of_nat i);
              Procedure.name := name;
              Procedure.category := category;
              Procedure.timing := timing;
              Procedure.required := orTrue required |}.

Definition assessment (clock : Z) (index : nat) (a : JSON.value) (i : nat)
  : Settled Assessment.t :=
  let* name := JSON.get a "name" in
  let* type := JSON.get a "type" in
  let* timing := JSON.get a "timing" in
  let* required := JSON.get a "required" in
  Resolved {| Assessment.id :=
                stamp "assess" clock index ++ "-" ++ decimal (Z.of_nat i);
              Assessment.name := name;
              Assessment.type := type;
              Assessment.timing := timing;
              Assessment.required := orTrue required |}.

Definition visit (clock : Z) (item : JSON.value) (index : nat)
  : Settled VisitSchedule.t :=
  let* visitNumber := JSON.get item "visitNumber" in
  let* visitName := JSON.get item "visitName" in
  let* windowStart := JSON.get item "windowStart" in
  let* windowEnd := JSON.get item "windowEnd" in
  let* procs := JSON.get item "procedures" in
  let* procedures :=
    JSON.map (JSON.orEmptyArray procs) (procedure clock index) in
  let* assess := JSON.get item "assessments" in
  let* assessments :=
    JSON.map (JSON.orEmptyArray assess) (assessment clock index) in
  Resolved {| VisitSchedule.id := stamp "visit" clock index;
              VisitSchedule.visitNumber := visitNumber;
              VisitSchedule.visitName := visitName;
              VisitSchedule.windowStart := windowStart;
              VisitSchedule.windowEnd := windowEnd;
              VisitSchedule.procedures := procedures;
              VisitSchedule.assessments := assessments;
              VisitSchedule._aiExtracted := true |}.

Definition extractVisitSchedule (this : t) (env : Env)
    (protocolContent : string)
  : Settled (Result (list VisitSchedule.t)) * list Event * t :=
  let prompt :=
    formatPrompt VISIT_SCHEDULE_EXTRACTION_PROMPT
      [("content", truncateContent protocolContent 8000)] in
  let '(responseResult, trace, this') :=
    request this env [system; user prompt] "extractVisitSchedule" in
  (match responseResult with
   | err error => Resolved (err error)
   | ok response =>
       match parseJSONResponse response with
       | err error => Resolved (err error)
       | ok data =>
           let* schedule := JSON.get data "visitSchedule" in
           let* visitSchedule :=
             JSON.map (JSON.orEmptyArray schedule)
               (visit (transformClock env)) in
           Resolved (ok visitSchedule)
       end
   end, trace, this').

Definition medication (clock : Z) (item : JSON.value) (index : nat)
  : Settled MedicationRecord.t :=
  let* medicationName := JSON.get item "medicationName" in
  let* dosage := JSON.get item "dosage" in
  let* frequency := JSON.get item "frequency" in
  let* route := JSON.get item "route" in
  let* start := JSON.get item "startDate" in
  let* startDate := JSON.constructDate start in
  let* finish := JSON.get item "endDate" in
  let* endDate :=
    match finish with
    | Some v =>
        if JSON.truthy v then
          let* d := JSON.constructDate finish in Resolved (Some d)
        else Resolved None
    | None => Resolved None
    end in
  let* indication := JSON.get item "indication" in
  let* confidence := JSON.get item "confidence" in
  Resolved {| MedicationRecord.id := stamp "med" clock index;
              MedicationRecord.medicationName := medicationName;
              MedicationRecord.dosage := dosage;
              MedicationRecord.frequency := frequency;
              MedicationRecord.route := route;
              MedicationRecord.startDate := startDate;
              MedicationRecord.endDate := endDate;
              MedicationRecord.indication := indication;
              MedicationRecord._aiRecognized := true;
              MedicationRecord._confidence := confidence |}.

Definition recognizeMedications (this : t) (env : Env)
    (subjectContent : string)
  : Settled (Result (list MedicationRecord.t)) * list Event * t :=
  let prompt :=
    formatPrompt MEDICATION_RECOGNITION_PROMPT
      [("content", truncateContent subjectContent 8000)] in
  let '(responseResult, trace, this') :=
    request this env [system; user prompt] "recognizeMedications" in
  (match responseResult with
   | err error => Resolved (err error)
   | ok response =>
       match parseJSONResponse response with
       | err error => Resolved (err error)
       | ok data =>
           let* meds := JSON.get data "medications" in
           let* medications :=
             JSON.map (JSON.orEmptyArray meds)
               (medication (transformClock env)) in
           Resolved (ok medications)
       end
   end, trace, this').

(** [x || fallback] on what a property read returned. *)
Definition orValue (x : option JSON.value) (fallback : JSON.value)
  : JSON.value :=
  match x with
  | Some v => if JSON.truthy v then v else fallback
  | None => fallback
  end.

Definition extractSubjectNumber (this : t) (env : Env)
    (subjectContent : string)
  : Settled (Result JSON.value) * list Event * t :=
  let prompt :=
    formatPrompt SUBJECT_NUMBER_EXTRACTION_PROMPT
      [("content", truncateContent subjectContent 2000)] in
  let '(responseResult, trace, this') :=
    request this env [system; user prompt] "extractSubjectNumber" in
  (match responseResult with
   | err error => Resolved (err error)
   | ok response =>
       match parseJSONResponse response with
       | err error => Resolved (err error)
       | ok data =>
           let* subjectNumber := JSON.get data "subjectNumber" in
           Resolved (ok (orValue subjectNumber (JSON.Str EmptyString)))
       end
   end, trace, this').

Definition extractSubjectVisitDates (this : t) (env : Env)
    (subjectContent visitScheduleSummary : string)
  : Settled (Result JSON.value) * list Event * t :=
  let prompt :=
    formatPrompt SUBJECT_VISIT_DATES_PROMPT
      [("content", truncateContent subjectContent 8000);
       ("visitScheduleSummary", Given visitScheduleSummary)] in
  let '(responseResult, trace, this') :=
    request this env [system; user prompt] "extractSubjectVisitDates" in
  (match responseResult with
   | err error => Resolved (err error)
   | ok response =>
       match parseJSONResponse response with
       | err error => Resolved (err error)
       | ok data =>
           let* visits := JSON.get data "visits" in
           Resolved (ok (orValue visits (JSON.Array [])))
       end
   end, trace, this').

Definition extractSubjectVisitItems (this : t) (env : Env)
    (subjectContent visitItemsSummary : string)
  : Settled (Result JSON.value) * list Event * t :=
  let prompt :=
    formatPrompt SUBJECT_VISIT_ITEMS_PROMPT
      [("content", truncateContent subjectContent 8000);
       ("visitItemsSummary", Given visitItemsSummary)] in
  let '(responseResult, trace, this') :=
    request this env [system; user prompt] "extractSubjectVisitItems" in
  (match responseResult with
   | err error => Resolved (err error)
   | ok response =>
       match parseJSONResponse response with
       | err error => Resolved (err error)
       | ok data =>
           let* items := JSON.get data "items" in
           Resolved (ok (orValue items (JSON.Array [])))
       end
   end, trace, this').

End GLMService.

(** ** The singleton *)

(** The module of GLMService.ts at run time: the services constructed so far
    (a reference is a position in [heap]) and the variable
    [glmServiceInstance], [None] being [null]. *)
Record ModuleState : Type := {
  heap : list GLMService.t;
  glmServiceInstance : option nat
}.

Definition initialModule : ModuleState :=
  {| heap := []; glmServiceInstance := None |}.

(** [createGLMService(config)]: the reference returned and the module
    afterwards. *)
Definition createGLMService (config : GLMConfig.t) (m : ModuleState)
  : nat * ModuleState :=
  match glmServiceInstance m with
  | None =>
      let reference := length (heap m) in
      (reference,
       {| heap := heap m ++ [GLMService.new config];
          glmServiceInstance := Some reference |})
  | Some reference => (reference, m)
  end.

Definition getGLMService (m : ModuleState) : option nat :=
  glmServiceInstance m.

(** The service a reference denotes. *)
Definition deref (m : ModuleState) (reference : nat) : option GLMService.t :=
  nth_error (heap m) reference.


(** ** Reading the outcome of an operation *)

Definition resultOf {A B C : Type} (outcome : A * B * C) : A :=
  fst (fst outcome).

Definition traceOf {A B C : Type} (outcome : A * B * C) : B :=
  snd (fst outcome).

Definition serviceOf {A B C : Type} (outcome : A * B * C) : C :=
  snd outcome.


(** ** Vocabulary of the statements *)

(** The messages of the errors [callAPI] and [generateToken] throw for a
    missing or malformed key. *)
Definition credentialMessages : list string :=
  ["API 密钥未设置"%string; "API 密钥格式无效"%string;
   "无效的API密钥格式"%string].



(** The invocations and the backoff timers of a trace, in order. *)
Definition withoutRequests (trace : list Event) : list Event :=
  filter (fun e => negb (isRequest e)) trace.


(** The characters the repair acts on wherever they stand: the double
    quote, the comma, braces and brackets. *)
Definition structural (c : ascii) : bool :=
  Ascii.eqb c JS.quote || Ascii.eqb c "," || Ascii.eqb c "{"
  || Ascii.eqb c "}" || Ascii.eqb c "[" || Ascii.eqb c "]".

Fixpoint plainString (s : string) : bool :=
  match s with
  | EmptyString => true
  | String c r => negb (structural c) && plainString r
  end.

(** A value none of whose strings, keys included, holds such a character. *)
Fixpoint plain (v : JSON.value) : bool :=
  match v with
  | JSON.Str s => plainString s
  | JSON.Array elements => forallb plain elements
  | JSON.Object members =>
      forallb (fun member => plainString (fst member) && plain (snd member))
        members
  | _ => true
  end.

(** How a piece of a JSON text behaves under the repair. *)
Module Repair.

Local Open Scope string_scope.

(** Steps 1 and 3 of the repair leave [t] alone, whatever follows it. *)
Definition transparent (t : string) : Prop :=
  (forall rest, GLMService.removeTrailingCommas (t ++ rest)
                = t ++ GLMService.removeTrailingCommas rest)
  /\ (forall rest, GLMService.dropIncompleteProperty (t ++ rest)
                   = t ++ GLMService.dropIncompleteProperty rest).

(** Openers of [t] that its closers do not match. *)
Definition depth (opener closer : ascii) (t : string) : Z :=
  Z.of_nat (JS.count opener t) - Z.of_nat (JS.count closer t).

(** An even number of quotes, and the given depths in braces and in
    brackets. *)
Definition balanced (braces brackets : Z) (t : string) : Prop :=
  Nat.even (JS.count JS.quote t) = true
  /\ depth "{" "}" t = braces
  /\ depth "[" "]" t = brackets.

(** A comma written before [t] is not taken for a trailing comma, and is
    not taken for the start of an incomplete property when a comma or a
    closer comes somewhere after [t]. *)
Definition opens (t : string) : Prop :=
  (forall rest, GLMService.isCloser (JS.skipWs (t ++ rest)) = false)
  /\ (forall rest, GLMService.noSeparator rest = false ->
                   GLMService.incompleteProperty (t ++ rest) = false).

(** The same for a text that holds a comma or a closer itself. *)
Definition closes (t : string) : Prop :=
  (forall rest, GLMService.isCloser (JS.skipWs (t ++ rest)) = false)
  /\ (forall rest, GLMService.incompleteProperty (t ++ rest) = false)
  /\ (forall rest, GLMService.noSeparator (t ++ rest) = false).

(** The characters a value can start with, as far as the repair looks at
    them: ASCII, not white space, not a closer. *)
Definition starter (c : ascii) : bool :=
  negb (JS.isAsciiSpace c) && N.ltb (N_of_ascii c) 128
  && negb (Ascii.eqb c "}" || Ascii.eqb c "]").

(** White space of JSON, which a greedy [\s*] skips and which holds no
    structural character. *)
Definition blank (ws : string) : Prop :=
  plainString ws = true /\ forall x, JS.skipWs (ws ++ x) = JS.skipWs x.

(** The text of a value, and the text that runs from an element or a member
    to the closer of its container. *)
Definition valueText (t : string) : Prop :=
  transparent t /\ balanced 0 0 t /\ opens t.

Definition tailText (braces brackets : Z) (t : string) : Prop :=
  transparent t /\ balanced braces brackets t /\ closes t.

End Repair.

(** A key that passes the checks of [callAPI] and of [generateToken]. *)
Definition keyAccepted (apiKey : string) : bool :=
  negb (JS.trimIsEmpty apiKey)
  && JS.includes apiKey "."
  && Nat.eqb (length (JS.split "." apiKey)) 2.

(** ** Sample inputs *)

Module Sample.

Local Open Scope string_scope.

(** [{ apiKey }], the configuration the settings handlers pass. *)
Definition keyOnly (apiKey : string) : GLMConfig.t :=
  {| GLMConfig.apiKey := apiKey; GLMConfig.model := None;
     GLMConfig.temperature := None; GLMConfig.topP := None;
     GLMConfig.maxTokens := None; GLMConfig.timeout := None;
     GLMConfig.maxRetries := None; GLMConfig.maxRequestsPerMinute := None;
     GLMConfig.proxy := None |}.

(** A service constructed with that configuration and initialized. *)
Definition service (apiKey : string) : GLMService.t :=
  snd (GLMService.initialize (GLMService.new (keyOnly apiKey))).

Definition ECONNRESET : Err.t :=
  {| Err.kind := Err.Error; Err.message := "read ECONNRESET";
     Err.code := Some "ECONNRESET" |}.

(** A transport that fails twice with ECONNRESET and then succeeds. *)
Definition failsTwice {T : Type} (reply : T) (attempt : nat)
  : list Sent * Settled T :=
  match attempt with
  | 0%nat | 1%nat => ([], Rejected ECONNRESET)
  | _ => ([], Resolved reply)
  end.

(** A transport that always answers 401. *)
Definition unauthorized (attempt : nat) : list Sent * Settled string :=
  ([], Rejected (GLMService.statusError 401 "{}")).

Definition half (k : nat) : Q := 1 # 2.

(** An environment in which every exchange settles with [reply]. *)
Definition replying (reply : string) : Env :=
  {| now := 1000; lag := 0; random := half;
     attemptClock := fun _ => 1000;
     exchange := fun _ => Resolved reply;
     transformClock := 2000 |}.

End Sample.


(** ** The exchange with the endpoint *)

(** What [callAPI] does once the request is written: the handlers it
    registers on the request and on the response. *)
Module Wire.

Import JS.
Local Open Scope string_scope.
Local Open Scope Z_scope.

(** [x?.key] for a name that no prototype defines: [undefined] unless [x]
    is an object that has the member. *)
Definition optional (x : option JSON.value) (key : string)
  : option JSON.value :=
  match x with
  | Some (JSON.Object members) => JSON.lookup key members
  | _ => None
  end.

(** [choices[0]?.message]: indexing [undefined] or [null] throws; an array
    gives its first element and an object its member [0]; the first
    character of a string has no member [message], and a number or a boolean
    has no element. *)
Definition firstMessage (choices : option JSON.value)
  : Settled (option JSON.value) :=
  match choices with
  | None | Some JSON.Null =>
      Rejected (Err.typeError "Cannot read properties of undefined")
  | Some (JSON.Array elements) =>
      Resolved (optional (hd_error elements) "message")
  | Some (JSON.Object members) =>
      Resolved (optional (JSON.lookup "0" members) "message")
  | Some _ => Resolved None
  end.

(** [response.choices[0]?.message?.content] *)
Definition content (response : JSON.value) : Settled (option JSON.value) :=
  let* choices := JSON.get response "choices" in
  let* message := firstMessage choices in
  Resolved (optional message "content").

(** The handler of the [end] event of the response: the status, then
    [JSON.parse(data)], then [response.choices[0]?.message?.content]; what
    is thrown on the way rejects the promise. *)
Definition onEnd (statusCode : Z) (data : string) : Settled JSON.value :=
  if negb (statusCode =? 200) then
    Rejected (GLMService.statusError statusCode data)
  else
    match JSON.parse data with
    | None =>
        Rejected {| Err.kind := Err.SyntaxError;
                    Err.message := "Unexpected token in JSON";
                    Err.code := None |}
    | Some response =>
        let* content := content response in
        match content with
        | Some text =>
            if JSON.truthy text then Resolved text
            else Rejected (Err.new "Empty response content from API")
        | None => Rejected (Err.new "Empty response content from API")
        end
    end.

(** The error the handler of the [error] event of the request rejects
    with. *)
Definition onError (error : Err.t) : Err.t :=
  Err.new ("Network error: " ++ Err.message error).

(** The error the handler of the [timeout] event rejects with. *)
Definition onTimeout (this : GLMService.t) : Err.t :=
  Err.new ("Request timeout after "
           ++ decimal (Config.timeout (GLMService.config this)) ++ "ms").

(** What happens to a request that was written, the first event that
    settles the promise: the response ends, the request fails, or the
    timeout fires. *)
Inductive Exchange : Type :=
| Ended (statusCode : Z) (data : string)
| Failed (error : Err.t)
| TimedOut.

Definition settle (this : GLMService.t) (x : Exchange) : Settled JSON.value :=
  match x with
  | Ended statusCode data => onEnd statusCode data
  | Failed error => Rejected (onError error)
  | TimedOut => Rejected (onTimeout this)
  end.

(** How the promise of [callAPI], a promise of a string, settles when the
    handlers settle it with [m]; [None] when the content is not a string. *)
Definition promised (m : Settled JSON.value) : option (Settled string) :=
  match m with
  | Resolved (JSON.Str content) => Some (Resolved content)
  | Resolved _ => None
  | Rejected e => Some (Rejected e)
  end.

End Wire.

(** ** The IPC handlers (AIHandler.ts, SettingsHandler.ts) *)

(** What a handler returns to the renderer: the Result of the service as it
    is, or an error object of the handler's own making, which has a code, a
    user message and a technical message and nothing else. *)
Inductive Reply (T : Type) : Type :=
| Returned (result : Core.Result T)
| Failure (code userMessage technicalMessage : string).

Arguments Returned {T} result.
Arguments Failure {T} code userMessage technicalMessage.

(** The module once the service [reference] denotes has become [service]:
    a method that assigns to a field of [this] changes the one object every
    holder of the reference sees. *)
Fixpoint store (reference : nat) (service : GLMService.t)
    (services : list GLMService.t) : list GLMService.t :=
  match services, reference with
  | [], _ => []
  | _ :: rest, O => service :: rest
  | first :: rest, S reference' => first :: store reference' service rest
  end.

Definition assign (reference : nat) (service : GLMService.t)
    (m : ModuleState) : ModuleState :=
  {| heap := store reference service (heap m);
     glmServiceInstance := glmServiceInstance m |}.

Module SettingsHandler.

Local Open Scope string_scope.

(** The handler of [settings:setApiKey].  [saved] is how [saveSettings]
    ends, which throws when the file cannot be written; [loadSettings]
    catches what it throws.  The service is then obtained from
    [createGLMService] with the new key, and [initialize] is called on it.
    A reference returned by [createGLMService] lies in the heap, so that
    the last case does not arise. *)
Definition setApiKey (apiKey : string) (saved : Settled unit)
    (m : ModuleState) : Reply unit * ModuleState :=
  match saved with
  | Rejected error =>
      (Failure "API_KEY_SET_FAILED" "设置API密钥失败" (Err.message error), m)
  | Resolved _ =>
      let '(glmService, m1) := createGLMService (Sample.keyOnly apiKey) m in
      match deref m1 glmService with
      | Some service =>
          let '(initResult, service') := GLMService.initialize service in
          (match initResult with
           | Core.err error => Returned (Core.err error)
           | Core.ok _ => Returned (Core.ok tt)
           end,
           assign glmService service' m1)
      | None =>
          (Failure "API_KEY_SET_FAILED" "设置API密钥失败"
             "Cannot read properties of undefined", m1)
      end
  end.

End SettingsHandler.

Module AIHandler.

Local Open Scope string_scope.

(** The shape the handlers of the AI channels share: without a service the
    handler answers AI_NOT_INITIALIZED itself; otherwise it awaits the
    operation, returns its Result, and turns what the operation throws into
    an error object with the code and the user message of the channel. *)
Definition handle {T : Type} (code userMessage : string)
    (operation : GLMService.t
                 -> Settled (Core.Result T) * list Event * GLMService.t)
    (m : ModuleState) : Reply T * list Event * ModuleState :=
  match getGLMService m with
  | None =>
      (Failure "AI_NOT_INITIALIZED" "AI服务未初始化，请先设置API密钥"
         "GLM service not initialized", [], m)
  | Some glmService =>
      match deref m glmService with
      | Some service =>
          let '(outcome, trace, service') := operation service in
          (match outcome with
           | Resolved result => Returned result
           | Rejected error => Failure code userMessage (Err.message error)
           end, trace, assign glmService service' m)
      | None =>
          (Failure code userMessage "Cannot read properties of undefined",
           [], m)
      end
  end.

(** [ai:extractCriteria] *)
Definition extractCriteria (env : Env) (protocolContent : string)
    (m : ModuleState) : Reply CriteriaSet * list Event * ModuleState :=
  handle "AI_EXTRACT_CRITERIA_FAILED" "提取入排标准失败"
    (fun glmService =>
       GLMService.extractCriteria glmService env protocolContent) m.

(** [ai:extractVisitSchedule] *)
Definition extractVisitSchedule (env : Env) (protocolContent : string)
    (m : ModuleState)
  : Reply (list VisitSchedule.t) * list Event * ModuleState :=
  handle "AI_EXTRACT_VISIT_SCHEDULE_FAILED" "提取访视计划失败"
    (fun glmService =>
       GLMService.extractVisitSchedule glmService env protocolContent) m.

(** [ai:recognizeMedications] *)
Definition recognizeMedications (env : Env) (subjectContent : string)
    (m : ModuleState)
  : Reply (list MedicationRecord.t) * list Event * ModuleState :=
  handle "AI_RECOGNIZE_MEDICATIONS_FAILED" "识别用药信息失败"
    (fun glmService =>
       GLMService.recognizeMedications glmService env subjectContent) m.

End AIHandler.

(** ** The helper functions of prompts.ts *)

Module Prompts.

Local Open Scope string_scope.

(** The text [replace] puts in the place of a match when the replacement is
    the string [template] and the pattern has no capture group: [$$] stands
    for a dollar sign, [$&] for the text matched, [$`] for the text before
    the match and [$'] for the text after it; any other dollar sign stands
    for itself. *)
Fixpoint getSubstitution (matched before after template : string) : string :=
  match template with
  | EmptyString => EmptyString
  | String c r =>
      if Ascii.eqb c "$" then
        match r with
        | String d r' =>
            if Ascii.eqb d "$" then
              String "$" (getSubstitution matched before after r')
            else if Ascii.eqb d "&" then
              matched ++ getSubstitution matched before after r'
            else if Ascii.eqb d "`" then
              before ++ getSubstitution matched before after r'
            else if Ascii.eqb d "'" then
              after ++ getSubstitution matched before after r'
            else String "$" (getSubstitution matched before after r)
        | EmptyString => String "$" EmptyString
        end
      else String c (getSubstitution matched before after r)
  end.

(** [text.replace(new RegExp(pattern, 'g'), value)] for a pattern that is
    plain text and not empty, read from the point where [before] has been
    passed and [s] remains, [skip] characters of which belong to the last
    match: the matches are found from left to right in the text as it was,
    and do not overlap. *)
Fixpoint replaceFrom (pattern value before s : string) (skip : nat) : string :=
  match s with
  | EmptyString => EmptyString
  | String c r =>
      match skip with
      | S skip' =>
          replaceFrom pattern value (before ++ String c EmptyString) r skip'
      | O =>
          if JS.startsWith s pattern then
            getSubstitution pattern before
              (JS.drop (String.length pattern) s) value
            ++ replaceFrom pattern value (before ++ String c EmptyString) r
                 (String.length pattern - 1)
          else
            String c
              (replaceFrom pattern value (before ++ String c EmptyString) r 0)
      end
  end.

(** The text the pattern [\{key\}] matches. *)
Definition placeholder (key : string) : string := "{" ++ key ++ "}".

(** [formatPrompt(template, params)], [params] being the entries of the
    object in the order [Object.entries] lists them.  The key goes into the
    regular expression as it is: this covers the keys made of letters,
    digits and underscores, which is what the service passes. *)
Fixpoint formatPrompt (template : string) (params : list (string * string))
  : string :=
  match params with
  | [] => template
  | (key, value) :: rest =>
      formatPrompt (replaceFrom (placeholder key) value EmptyString template 0)
        rest
  end.

(** A text as the sequence of its UTF-16 code units, which is what [length]
    and [substring] count. *)
Definition units : Type := list N.

(** The two line feeds and the bracketed notice appended to a truncated
    text. *)
Definition notice : units :=
  [10; 10; 91; 20869; 23481; 24050; 25130; 26029; 46; 46; 46; 93]%N.

(** [truncateContent(content, maxTokens)]; [substring] reads a negative
    bound as zero. *)
Definition truncateContent (content : units) (maxTokens : Z) : units :=
  let maxChars := (maxTokens * 2)%Z in
  if (Z.of_nat (length content) <=? maxChars)%Z then content
  else (firstn (Z.to_nat maxChars) content ++ notice)%list.

End Prompts.

(** ** Vocabulary of the further statements *)


(** [error] reports the failure [e] of attempt number [attempt], which the
    loop of [callWithRetry] did not retry: an authentication failure when
    the message holds 401 or 403, else a bad request when it holds 400, else
    a failed request. *)
Definition reports (e : Err.t) (attempt : nat) (context : string)
    (error : Core.AppError) : Prop :=
  Core.technicalMessage error = Err.message e
  /\ Core.severity error = Core.CRITICAL
  /\ (JS.includes (Err.message e) "401"
      || JS.includes (Err.message e) "403" = true ->
      Core.code error = "AI_AUTH_FAILED"%string
      /\ Core.category error = Core.NETWORK
      /\ Core.userMessage error = "API密钥无效或权限不足，请检查设置"%string)
  /\ (JS.includes (Err.message e) "401"
      || JS.includes (Err.message e) "403" = false ->
      JS.includes (Err.message e) "400" = true ->
      Core.code error = "AI_BAD_REQUEST"%string
      /\ Core.category error = Core.DOMAIN
      /\ Core.userMessage error = "请求格式错误"%string)
  /\ (JS.includes (Err.message e) "401"
      || JS.includes (Err.message e) "403" = false ->
      JS.includes (Err.message e) "400" = false ->
      Core.code error = "AI_REQUEST_FAILED"%string
      /\ Core.category error = Core.NETWORK
      /\ Core.userMessage error = "AI请求失败，请检查网络连接"%string
      /\ Core.context error
         = Some [("attempts"%string, Core.CtxNumber (Z.of_nat attempt + 1));
                 ("context"%string, Core.CtxString context)]).

(** An operation that was refused because the service is not initialized:
    the error AI_NOT_INITIALIZED, nothing done, the service unchanged. *)
Definition refused {A : Type} (this : GLMService.t)
    (outcome : Settled (Core.Result A) * list Event * GLMService.t) : Prop :=
  (exists error,
      resultOf outcome = Resolved (Core.err error)
      /\ Core.code error = "AI_NOT_INITIALIZED"%string
      /\ Core.category error = Core.DOMAIN)
  /\ traceOf outcome = []
  /\ serviceOf outcome = this.

(** The transport an operation passes to [callWithRetry]:
    [async () => await this.callAPI(messages)]. *)
Definition transport (this : GLMService.t) (env : Env)
    (messages : list Message) (attempt : nat) : list Sent * Settled string :=
  GLMService.callAPI this messages (attemptClock env attempt)
    (exchange env attempt).

(** A text made of ASCII white space. *)
Fixpoint asciiSpaces (s : string) : bool :=
  match s with
  | EmptyString => true
  | String c r => JS.isAsciiSpace c && asciiSpaces r
  end.







(** A key made of letters, digits and underscores. *)
Definition wordChar (c : ascii) : bool :=
  let n := N_of_ascii c in
  (N.leb 48 n && N.leb n 57) || (N.leb 65 n && N.leb n 90)
  || (N.leb 97 n && N.leb n 122) || N.eqb n 95.

Fixpoint wordKey (key : string) : bool :=
  match key with
  | EmptyString => true
  | String c r => wordChar c && wordKey r
  end.

(** ** Further sample inputs *)

Module Scenario.

(** An environment in which every exchange is rejected with [e]. *)
Definition failing (e : Err.t) : Env :=
  {| now := 1000; lag := 0; random := Sample.half;
     attemptClock := fun _ => 1000;
     exchange := fun _ => Rejected e;
     transformClock := 2000 |}.

End Scenario.

(** ** Proof steps *)

(** Reads a test on bytes as the arithmetic it states. *)
Ltac bytes :=
  cbv zeta in *;
  repeat match goal with
         | H : _ || _ = true |- _ => apply orb_true_iff in H as [H|H]
         | H : _ && _ = true |- _ =>
             let H' := fresh H in apply andb_true_iff in H as [H H']
         | H : N.leb _ _ = true |- _ => apply N.leb_le in H
         | H : N.eqb _ _ = true |- _ => apply N.eqb_eq in H
         end.


(** * Theorems *)

(** ** The sliding window of the rate limiter *)

Section SlidingWindow.

Import RateLimiter.

Variable cfg : RateLimitConfig.
Hypothesis ceiling_pos : 1 <= maxRequests cfg.
Hypothesis window_pos : 0 < windowMs cfg.


Lemma filter_length_le {A} (f : A -> bool) (l : list A) :
  (length (filter f l) <= length l)%nat.
Proof. induction l as [|a l IH]; simpl; [lia|]. destruct (f a); simpl; lia. Qed.








Lemma run_cons clock this c rest :
  run clock this (c :: rest) =
  let now := clock + Z.of_N (idle c) in
  {| startedAt := now; sleptMs := slept this now;
     admittedAt := fst (waitForSlot now (lag c) this) |}
    :: run (fst (waitForSlot now (lag c) this))
           (snd (waitForSlot now (lag c) this)) rest.
Proof. reflexivity. Qed.



End SlidingWindow.



(** ** Repair of truncated JSON *)

(** C2.  On the text truncated in the middle of an array, after a comma,
    the repair leaves that comma and appends the closing bracket and brace
    after it, the result is not valid JSON, and [parseJSONResponse] returns
    the error AI_PARSE_FAILED. *)
Theorem parseJSONResponse_truncated_after_comma :
  GLMService.candidate (JS.dq "{'a': 1, 'b': [1, 2,")
    = JS.dq "{'a': 1, 'b': [1, 2,"
  /\ GLMService.fixIncompleteJSON (JS.dq "{'a': 1, 'b': [1, 2,")
    = JS.dq "{'a': 1, 'b': [1, 2,]}"
  /\ JSON.parse (JS.dq "{'a': 1, 'b': [1, 2,]}") = None
  /\ exists error,
       GLMService.parseJSONResponse (JS.dq "{'a': 1, 'b': [1, 2,")
         = Core.err error
       /\ Core.code error = "AI_PARSE_FAILED"%string.
Proof.
  repeat split; try (vm_compute; reflexivity).
  eexists. split; vm_compute; reflexivity.
Qed.

(** C3, counterexample.  The text [["a,]"]] is valid JSON, and the repair
    turns it into a text that parses to another value: the comma inside the
    string literal is taken for a trailing comma. *)
Lemma fixIncompleteJSON_changes_valid_json :
  JSON.parse (JS.dq "['a,]']") = Some (JSON.Array [JSON.Str "a,]"])
  /\ JSON.parse (GLMService.fixIncompleteJSON (JS.dq "['a,]']"))
     = Some (JSON.Array [JSON.Str "a]"])
  /\ JSON.parse (GLMService.fixIncompleteJSON (JS.dq "['a,]']"))
     <> JSON.parse (JS.dq "['a,]']").
Proof.
  split; [vm_compute; reflexivity|].
  split; [vm_compute; reflexivity|].
  vm_compute. discriminate.
Qed.

(** ** Valid JSON under the repair *)

Section ValidUnderRepair.

Local Open Scope string_scope.

Lemma append_assoc (a b c : string) : (a ++ b) ++ c = a ++ (b ++ c).
Proof. induction a as [|x a IH]; simpl; [reflexivity|]. rewrite IH. reflexivity. Qed.

Lemma append_nil_r (a : string) : a ++ EmptyString = a.
Proof. induction a as [|x a IH]; simpl; [reflexivity|]. rewrite IH. reflexivity. Qed.

Lemma count_append (c : ascii) (a b : string) :
  JS.count c (a ++ b) = (JS.count c a + JS.count c b)%nat.
Proof.
  induction a as [|x a IH]; simpl; [reflexivity|]. rewrite IH. lia.
Qed.

Lemma depth_append (o c : ascii) (a b : string) :
  Repair.depth o c (a ++ b) = Repair.depth o c a + Repair.depth o c b.
Proof. unfold Repair.depth. rewrite !count_append. lia. Qed.

Lemma plainString_append (a b : string) :
  plainString (a ++ b) = plainString a && plainString b.
Proof.
  induction a as [|x a IH]; simpl; [reflexivity|].
  rewrite IH, andb_assoc. reflexivity.
Qed.

Lemma plainString_count (x : ascii) (p : string) :
  structural x = true -> plainString p = true -> JS.count x p = 0%nat.
Proof.
  intros Hx. induction p as [|c p IH]; simpl; [reflexivity|].
  intros H. apply andb_true_iff in H as [Hc Hp].
  destruct (Ascii.eqb_spec c x) as [->|_].
  - rewrite Hx in Hc. discriminate.
  - rewrite (IH Hp). reflexivity.
Qed.

Lemma noSeparator_append (a b : string) :
  GLMService.noSeparator (a ++ b)
  = GLMService.noSeparator a && GLMService.noSeparator b.
Proof.
  induction a as [|x a IH]; simpl; [reflexivity|].
  rewrite IH, andb_assoc. reflexivity.
Qed.

Lemma transparent_quiet (p : string) :
  JS.count "," p = 0%nat -> Repair.transparent p.
Proof.
  induction p as [|c p IH]; intros H.
  - split; intros rest; reflexivity.
  - simpl in H. destruct (Ascii.eqb c ",") eqn:E; [discriminate|].
    destruct (IH H) as [H1 H3].
    split; intros rest; simpl; rewrite E; simpl; [rewrite H1|rewrite H3];
      reflexivity.
Qed.

Lemma transparent_append (a b : string) :
  Repair.transparent a -> Repair.transparent b -> Repair.transparent (a ++ b).
Proof.
  intros [A1 A3] [B1 B3].
  split; intros rest; rewrite !append_assoc; [rewrite A1, B1|rewrite A3, B3];
    reflexivity.
Qed.

Lemma transparent_comma (t : string) :
  Repair.closes t -> Repair.transparent t ->
  Repair.transparent (String "," t).
Proof.
  intros (Hc & Hk & _) [T1 T3].
  split; intros rest; simpl; [rewrite Hc, T1|rewrite Hk, T3]; reflexivity.
Qed.

Lemma balanced_append (a b c d : Z) (t1 t2 : string) :
  Repair.balanced a b t1 -> Repair.balanced c d t2 ->
  Repair.balanced (a + c) (b + d) (t1 ++ t2).
Proof.
  intros (Q1 & B1 & K1) (Q2 & B2 & K2). unfold Repair.balanced.
  rewrite count_append, Nat.even_add, Q1, Q2, !depth_append, B1, B2, K1, K2.
  repeat split.
Qed.

Lemma balanced_plain (p : string) :
  plainString p = true -> Repair.balanced 0 0 p.
Proof.
  intros H. unfold Repair.balanced, Repair.depth.
  rewrite !(plainString_count _ p) by (reflexivity || exact H).
  repeat split.
Qed.

Lemma balanced_literal (lit : string) :
  plainString lit = true ->
  Repair.balanced 0 0 (String JS.quote (lit ++ String JS.quote EmptyString)).
Proof.
  intros H. unfold Repair.balanced, Repair.depth. cbn [JS.count].
  rewrite !count_append. cbn [JS.count].
  rewrite !(plainString_count _ lit) by (reflexivity || exact H).
  repeat split.
Qed.

Lemma quiet_literal (lit : string) :
  plainString lit = true ->
  JS.count "," (String JS.quote (lit ++ String JS.quote EmptyString)) = 0%nat.
Proof.
  intros H. cbn [JS.count]. rewrite count_append. cbn [JS.count].
  rewrite (plainString_count _ lit) by (reflexivity || exact H). reflexivity.
Qed.

Lemma jsonSpace_plain (c : ascii) :
  JSON.isJsonSpace c = true ->
  structural c = false /\ JS.isAsciiSpace c = true.
Proof.
  destruct c as [[] [] [] [] [] [] [] []]; intros H; try discriminate H;
    split; reflexivity.
Qed.

Lemma skipSpace_split (s : string) :
  exists ws, s = ws ++ JSON.skipSpace s /\ Repair.blank ws.
Proof.
  induction s as [|c s (ws & Hs & Hp & Hw)].
  - exists EmptyString. repeat split.
  - simpl. destruct (JSON.isJsonSpace c) eqn:E.
    + destruct (jsonSpace_plain c E) as [Hstr Hsp].
      exists (String c ws). split; [simpl; f_equal; exact Hs|]. split.
      * simpl. rewrite Hstr, Hp. reflexivity.
      * intros x. simpl. rewrite Hsp. apply Hw.
    + exists EmptyString. repeat split.
Qed.

Lemma skipWs_starter (c : ascii) (r : string) :
  Repair.starter c = true -> JS.skipWs (String c r) = String c r.
Proof.
  destruct c as [[] [] [] [] [] [] [] []]; intros H; try discriminate H;
    destruct r as [|c2 [|c3 r3]]; reflexivity.
Qed.

Lemma starter_not_closer (c : ascii) (r : string) :
  Repair.starter c = true -> GLMService.isCloser (String c r) = false.
Proof.
  unfold Repair.starter. intros H. apply andb_true_iff in H as [_ H].
  apply negb_true_iff in H. exact H.
Qed.

Lemma keyThenRest_literal (lit x : string) :
  JS.count JS.quote lit = 0%nat -> GLMService.noSeparator x = false ->
  GLMService.keyThenRest (lit ++ String JS.quote x) = false.
Proof.
  intros Hq Hx. induction lit as [|c lit IH]; [reflexivity|].
  simpl in Hq. destruct (Ascii.eqb c JS.quote) eqn:Eq; [discriminate|].
  simpl. rewrite Eq, (IH Hq).
  destruct (Ascii.eqb c ":"); [|reflexivity].
  rewrite noSeparator_append. simpl. rewrite Hx, !andb_false_r. reflexivity.
Qed.

Lemma opens_starter (c : ascii) (r : string) :
  Repair.starter c = true -> Ascii.eqb c JS.quote = false ->
  Repair.opens (String c r).
Proof.
  intros Hs Hq. split; intros rest.
  - simpl append. rewrite (skipWs_starter c _ Hs).
    apply (starter_not_closer c _ Hs).
  - intros _. unfold GLMService.incompleteProperty. simpl append.
    rewrite (skipWs_starter c _ Hs), Hq. reflexivity.
Qed.

Lemma opens_literal (lit r : string) :
  JS.count JS.quote lit = 0%nat ->
  Repair.opens (String JS.quote (lit ++ String JS.quote r)).
Proof.
  intros Hq. split; intros rest.
  - simpl append. rewrite (skipWs_starter JS.quote _ eq_refl). reflexivity.
  - intros Hsep. unfold GLMService.incompleteProperty. simpl append.
    rewrite (skipWs_starter JS.quote _ eq_refl). rewrite Ascii.eqb_refl.
    rewrite append_assoc. simpl append.
    apply keyThenRest_literal; [exact Hq|].
    rewrite noSeparator_append, Hsep. apply andb_false_r.
Qed.

Lemma opens_blank (ws t : string) :
  Repair.blank ws -> Repair.opens t -> Repair.opens (ws ++ t).
Proof.
  intros [_ Hw] [Hc Hk]. split; intros rest; rewrite append_assoc.
  - rewrite Hw. apply Hc.
  - intros Hsep. unfold GLMService.incompleteProperty. rewrite Hw.
    apply (Hk rest Hsep).
Qed.

Lemma opens_append (t x : string) :
  Repair.opens t -> Repair.opens (t ++ x).
Proof.
  intros [Hc Hk]. split; intros rest; rewrite append_assoc.
  - apply Hc.
  - intros Hsep. apply Hk. rewrite noSeparator_append, Hsep.
    apply andb_false_r.
Qed.

Lemma closes_of_opens (t x : string) :
  Repair.opens t -> GLMService.noSeparator x = false ->
  Repair.closes (t ++ x).
Proof.
  intros [Hc Hk] Hx.
  assert (Hsep : forall rest, GLMService.noSeparator (x ++ rest) = false)
    by (intros rest; rewrite noSeparator_append, Hx; reflexivity).
  repeat split; intros rest; rewrite append_assoc.
  - apply Hc.
  - apply Hk, Hsep.
  - rewrite noSeparator_append, Hsep. apply andb_false_r.
Qed.

Lemma transparent_blank (ws : string) :
  Repair.blank ws -> Repair.transparent ws.
Proof.
  intros [Hp _]. apply transparent_quiet.
  apply plainString_count; [reflexivity|exact Hp].
Qed.

(** *** The lexical parts *)

Lemma expect_some (c : ascii) (s r : string) :
  JSON.expect c s = Some r -> s = String c r.
Proof.
  destruct s as [|x s]; simpl; [discriminate|].
  destruct (Ascii.eqb_spec x c) as [->|_]; [|discriminate].
  intros H. injection H as ->. reflexivity.
Qed.

Lemma consTo_some (pre : string) (x : option (string * string))
    (body rest : string) :
  JSON.consTo pre x = Some (body, rest) ->
  exists b, x = Some (b, rest) /\ body = pre ++ b.
Proof.
  destruct x as [[b r]|]; simpl; [|discriminate].
  intros H. injection H as <- <-. exists b. split; reflexivity.
Qed.

Lemma escape_plain (e ch : ascii) :
  JSON.simpleEscape e = Some ch -> structural ch = false ->
  structural e = false.
Proof.
  destruct e as [[] [] [] [] [] [] [] []]; intros H; try discriminate H;
    injection H as <-; intros Hs; try discriminate Hs; reflexivity.
Qed.

Lemma hex_plain (h : ascii) (a : N) :
  JSON.hexValue h = Some a -> structural h = false.
Proof.
  destruct h as [[] [] [] [] [] [] [] []]; intros H; try discriminate H;
    reflexivity.
Qed.

Lemma digit_facts (c : ascii) (d : Z) :
  JSON.digitValue c = Some d ->
  structural c = false /\ Repair.starter c = true
  /\ Ascii.eqb c JS.quote = false.
Proof.
  destruct c as [[] [] [] [] [] [] [] []]; intros H; try discriminate H;
    repeat split.
Qed.

Lemma parseString_plain (n : nat) : forall s body rest,
  (String.length s <= n)%nat ->
  JSON.parseString s = Some (body, rest) -> plainString body = true ->
  exists lit, s = lit ++ String JS.quote rest /\ plainString lit = true.
Proof.
  induction n as [|n IH]; intros s body rest Hlen Hparse Hplain.
  - destruct s; [discriminate Hparse|simpl in Hlen; lia].
  - destruct s as [|c r]; [discriminate Hparse|].
    simpl in Hlen. cbn [JSON.parseString] in Hparse.
    destruct (Ascii.eqb_spec c JS.quote) as [->|Hq].
    { injection Hparse as <- <-. exists EmptyString. split; reflexivity. }
    destruct (Ascii.eqb c "\") eqn:Ebs.
    + apply Ascii.eqb_eq in Ebs. subst c.
      destruct r as [|e r1]; [discriminate Hparse|]. simpl in Hlen.
      destruct (JSON.simpleEscape e) as [ch|] eqn:Eesc.
      * apply consTo_some in Hparse as (b & Hb & ->).
        simpl in Hplain. apply andb_true_iff in Hplain as [Hch Hb'].
        apply negb_true_iff in Hch.
        destruct (IH r1 b rest) as (lit & -> & Hlit); [lia|exact Hb|exact Hb'|].
        exists (String "\" (String e lit)). split; [reflexivity|].
        simpl. rewrite (escape_plain e ch Eesc Hch), Hlit. reflexivity.
      * destruct (Ascii.eqb_spec e "u") as [->|_]; [|discriminate Hparse].
        destruct r1 as [|h1 [|h2 [|h3 [|h4 r2]]]]; try discriminate Hparse.
        destruct (JSON.hexValue h1) as [a1|] eqn:E1; [|discriminate Hparse].
        destruct (JSON.hexValue h2) as [a2|] eqn:E2; [|discriminate Hparse].
        destruct (JSON.hexValue h3) as [a3|] eqn:E3; [|discriminate Hparse].
        destruct (JSON.hexValue h4) as [a4|] eqn:E4; [|discriminate Hparse].
        apply consTo_some in Hparse as (b & Hb & ->).
        rewrite plainString_append in Hplain.
        apply andb_true_iff in Hplain as [_ Hb'].
        simpl in Hlen.
        destruct (IH r2 b rest) as (lit & -> & Hlit); [lia|exact Hb|exact Hb'|].
        exists (String "\" (String "u" (String h1 (String h2 (String h3
                  (String h4 lit)))))).
        split; [reflexivity|].
        cbn [plainString].
        rewrite (hex_plain h1 _ E1), (hex_plain h2 _ E2), (hex_plain h3 _ E3),
          (hex_plain h4 _ E4), Hlit.
        reflexivity.
    + destruct (N.ltb (N_of_ascii c) 32); [discriminate Hparse|].
      apply consTo_some in Hparse as (b & Hb & ->).
      simpl in Hplain. apply andb_true_iff in Hplain as [Hc Hb'].
      destruct (IH r b rest) as (lit & -> & Hlit); [lia|exact Hb|exact Hb'|].
      exists (String c lit). split; [reflexivity|].
      simpl. rewrite Hc, Hlit. reflexivity.
Qed.

Lemma digits_plain (s : string) : forall acc n m k rest,
  JSON.digits s acc n = (m, k, rest) ->
  exists ds, s = ds ++ rest /\ plainString ds = true /\ n <= k
    /\ (n < k -> exists c d ds', ds = String c ds'
                    /\ JSON.digitValue c = Some d).
Proof.
  induction s as [|c s IH]; intros acc n m k rest H; simpl in H.
  - injection H as <- <- <-. exists EmptyString. repeat split; lia.
  - destruct (JSON.digitValue c) as [d|] eqn:Ed.
    + destruct (IH _ _ _ _ _ H) as (ds & -> & Hp & Hle & _).
      destruct (digit_facts c d Ed) as (Hs & _).
      exists (String c ds). split; [reflexivity|]. split.
      { simpl. rewrite Hs, Hp. reflexivity. }
      split; [lia|]. intros _. exists c, d, ds. split; [reflexivity|exact Ed].
    + injection H as <- <- <-. exists EmptyString. repeat split; lia.
Qed.

Lemma parseInt_plain (s : string) (i : Z) (r : string) :
  JSON.parseInt s = Some (i, r) ->
  exists c t, s = String c t ++ r /\ plainString (String c t) = true
    /\ Repair.starter c = true /\ Ascii.eqb c JS.quote = false.
Proof.
  unfold JSON.parseInt. destruct (JSON.expect "0" s) as [r0|] eqn:E0.
  - intros H. injection H as <- <-. apply expect_some in E0 as ->.
    exists "0"%char, EmptyString. repeat split.
  - destruct (JSON.digits s 0 0) as [[i' n] r'] eqn:Ed.
    destruct (0 <? n)%Z eqn:En; [|discriminate].
    intros H. injection H as <- <-.
    destruct (digits_plain s _ _ _ _ _ Ed) as (ds & -> & Hp & _ & Hhead).
    destruct Hhead as (c & d & ds' & -> & Hc); [lia|].
    destruct (digit_facts c d Hc) as (_ & Hst & Hq).
    exists c, ds'. repeat split; assumption.
Qed.

Lemma parseFrac_plain (i : Z) (s : string) (m k : Z) (r : string) :
  JSON.parseFrac i s = Some (m, k, r) ->
  exists t, s = t ++ r /\ plainString t = true.
Proof.
  unfold JSON.parseFrac. destruct (JSON.expect "." s) as [r0|] eqn:E0.
  - destruct (JSON.digits r0 i 0) as [[m' n] r'] eqn:Ed.
    destruct (0 <? n)%Z; [|discriminate].
    intros H. injection H as <- <- <-. apply expect_some in E0 as ->.
    destruct (digits_plain r0 _ _ _ _ _ Ed) as (ds & -> & Hp & _).
    exists (String "." ds). split; [reflexivity|]. simpl. exact Hp.
  - intros H. injection H as <- <- <-. exists EmptyString.
    split; reflexivity.
Qed.

Lemma parseExp_plain (s : string) (e : Z) (r : string) :
  JSON.parseExp s = Some (e, r) ->
  exists t, s = t ++ r /\ plainString t = true.
Proof.
  unfold JSON.parseExp.
  destruct (match JSON.expect "e" s with
            | Some r0 => Some r0
            | None => JSON.expect "E" s
            end) as [r0|] eqn:E0.
  - assert (Hs : exists c, s = String c r0 /\ structural c = false).
    { destruct (JSON.expect "e" s) as [r1|] eqn:Ee.
      - injection E0 as ->. apply expect_some in Ee. eexists. split;
          [exact Ee|reflexivity].
      - apply expect_some in E0. eexists. split; [exact E0|reflexivity]. }
    destruct Hs as (c & -> & Hc). clear E0.
    assert (Hsign : exists sg, r0 = sg ++ snd
              (match JSON.expect "-" r0 with
               | Some r' => ((-1)%Z, r')
               | None => match JSON.expect "+" r0 with
                         | Some r' => (1%Z, r')
                         | None => (1%Z, r0)
                         end
               end) /\ plainString sg = true).
    { destruct (JSON.expect "-" r0) as [r1|] eqn:Em.
      - apply expect_some in Em as ->. exists "-". split; reflexivity.
      - destruct (JSON.expect "+" r0) as [r1|] eqn:Ep.
        + apply expect_some in Ep as ->. exists "+". split; reflexivity.
        + exists EmptyString. split; reflexivity. }
    destruct (match JSON.expect "-" r0 with
              | Some r' => ((-1)%Z, r')
              | None => match JSON.expect "+" r0 with
                        | Some r' => (1%Z, r')
                        | None => (1%Z, r0)
                        end
              end) as [sign r1].
    destruct Hsign as (sg & Hr0 & Hsg). simpl in Hr0.
    destruct (JSON.digits r1 0 0) as [[e' n] r2] eqn:Ed.
    destruct (0 <? n)%Z; [|discriminate].
    intros H. injection H as <- <-.
    destruct (digits_plain r1 _ _ _ _ _ Ed) as (ds & -> & Hp & _).
    exists (String c (sg ++ ds)). split.
    + simpl. rewrite Hr0, append_assoc. reflexivity.
    + simpl. rewrite Hc, plainString_append, Hsg, Hp. reflexivity.
  - intros H. injection H as <- <-. exists EmptyString. split; reflexivity.
Qed.

Lemma parseNumber_plain (s : string) (q : Q) (r : string) :
  JSON.parseNumber s = Some (q, r) ->
  exists c t, s = String c t ++ r /\ plainString (String c t) = true
    /\ Repair.starter c = true /\ Ascii.eqb c JS.quote = false.
Proof.
  unfold JSON.parseNumber.
  assert (Hsign : exists sg, s = sg ++ snd
            (match JSON.expect "-" s with
             | Some r' => (true, r')
             | None => (false, s)
             end) /\ (sg = EmptyString \/ sg = "-")).
  { destruct (JSON.expect "-" s) as [r1|] eqn:Em.
    - apply expect_some in Em as ->. exists "-". split; [reflexivity|auto].
    - exists EmptyString. split; [reflexivity|auto]. }
  destruct (match JSON.expect "-" s with
            | Some r' => (true, r')
            | None => (false, s)
            end) as [neg s1].
  destruct Hsign as (sg & Hs & Hsg). simpl in Hs.
  destruct (JSON.parseInt s1) as [[i s2]|] eqn:Ei; [|discriminate].
  destruct (JSON.parseFrac i s2) as [[[m k] s3]|] eqn:Ef; [|discriminate].
  destruct (JSON.parseExp s3) as [[e s4]|] eqn:Ee; [|discriminate].
  intros H. injection H as _ <-.
  destruct (parseInt_plain _ _ _ Ei) as (c & t & -> & Hct & Hst & Hq).
  destruct (parseFrac_plain _ _ _ _ _ Ef) as (tf & -> & Hf).
  destruct (parseExp_plain _ _ _ Ee) as (te & -> & He).
  destruct Hsg as [-> | ->]; subst s.
  - exists c, (t ++ tf ++ te). split.
    + simpl. rewrite !append_assoc. reflexivity.
    + split; [|split; assumption].
      simpl in Hct |- *. apply andb_true_iff in Hct as [Hc Ht].
      rewrite Hc, !plainString_append, Ht, Hf, He. reflexivity.
  - exists "-"%char, (String c t ++ tf ++ te). split.
    + simpl. rewrite !append_assoc. reflexivity.
    + split; [|split; reflexivity].
      simpl in Hct |- *. apply andb_true_iff in Hct as [Hc Ht].
      rewrite Hc, !plainString_append, Ht, Hf, He. reflexivity.
Qed.

Lemma startsWith_split (p s : string) :
  JS.startsWith s p = true -> s = p ++ JS.drop (String.length p) s.
Proof.
  revert s. induction p as [|a p IH]; intros s H; [reflexivity|].
  destruct s as [|b s]; [discriminate H|]. simpl in H.
  apply andb_true_iff in H as [Hab Hp]. apply Ascii.eqb_eq in Hab. subst b.
  simpl. f_equal. apply IH. exact Hp.
Qed.

(** *** The texts of values *)

Lemma valueText_primitive (ws : string) (c : ascii) (t : string) :
  Repair.blank ws -> plainString (String c t) = true ->
  Repair.starter c = true -> Ascii.eqb c JS.quote = false ->
  Repair.valueText (ws ++ String c t).
Proof.
  intros Hws Hp Hs Hq. split; [|split].
  - apply transparent_append; [apply transparent_blank; exact Hws|].
    apply transparent_quiet, plainString_count; [reflexivity|exact Hp].
  - apply (balanced_append 0 0 0 0); apply balanced_plain;
      [apply Hws|exact Hp].
  - apply opens_blank; [exact Hws|]. apply opens_starter; assumption.
Qed.

Lemma valueText_string (ws lit : string) :
  Repair.blank ws -> plainString lit = true ->
  Repair.valueText (ws ++ String JS.quote (lit ++ String JS.quote EmptyString)).
Proof.
  intros Hws Hp. split; [|split].
  - apply transparent_append; [apply transparent_blank; exact Hws|].
    apply transparent_quiet, quiet_literal, Hp.
  - apply (balanced_append 0 0 0 0);
      [apply balanced_plain, Hws|apply balanced_literal, Hp].
  - apply opens_blank; [exact Hws|]. apply opens_literal.
    apply plainString_count; [reflexivity|exact Hp].
Qed.

(** A container: white space, the opener, and the text up to its closer. *)
Lemma valueText_array (ws t : string) :
  Repair.blank ws -> Repair.transparent t -> Repair.balanced 0 (-1) t ->
  Repair.valueText (ws ++ String "[" t).
Proof.
  intros Hws Ht Hb. split; [|split].
  - apply transparent_append; [apply transparent_blank; exact Hws|].
    change (String "[" t) with ("[" ++ t).
    apply transparent_append; [apply transparent_quiet; reflexivity|exact Ht].
  - apply (balanced_append 0 0 0 0); [apply balanced_plain, Hws|].
    change (String "[" t) with ("[" ++ t).
    apply (balanced_append 0 1 0 (-1)); [repeat split|exact Hb].
  - apply opens_blank; [exact Hws|]. apply opens_starter; reflexivity.
Qed.

Lemma valueText_object (ws t : string) :
  Repair.blank ws -> Repair.transparent t -> Repair.balanced (-1) 0 t ->
  Repair.valueText (ws ++ String "{" t).
Proof.
  intros Hws Ht Hb. split; [|split].
  - apply transparent_append; [apply transparent_blank; exact Hws|].
    change (String "{" t) with ("{" ++ t).
    apply transparent_append; [apply transparent_quiet; reflexivity|exact Ht].
  - apply (balanced_append 0 0 0 0); [apply balanced_plain, Hws|].
    change (String "{" t) with ("{" ++ t).
    apply (balanced_append 1 0 (-1) 0); [repeat split|exact Hb].
  - apply opens_blank; [exact Hws|]. apply opens_starter; reflexivity.
Qed.

(** The closer of a container, after white space. *)
Lemma tailText_closer (ws : string) (c : ascii) :
  Repair.blank ws -> (c = "]"%char \/ c = "}"%char) ->
  Repair.transparent (ws ++ String c EmptyString)
  /\ Repair.balanced (Repair.depth "{" "}" (String c EmptyString))
       (Repair.depth "[" "]" (String c EmptyString))
       (ws ++ String c EmptyString)
  /\ GLMService.noSeparator (ws ++ String c EmptyString) = false.
Proof.
  intros Hws Hc. split; [|split].
  - apply transparent_append; [apply transparent_blank; exact Hws|].
    apply transparent_quiet. destruct Hc as [-> | ->]; reflexivity.
  - apply (balanced_append 0 0); [apply balanced_plain, Hws|].
    destruct Hc as [-> | ->]; repeat split.
  - rewrite noSeparator_append. destruct Hc as [-> | ->]; apply andb_false_r.
Qed.

(** The last element or member of a container, up to the closer. *)
Lemma tailText_last (v ws : string) (c : ascii) :
  Repair.valueText v -> Repair.blank ws -> (c = "]"%char \/ c = "}"%char) ->
  Repair.tailText (Repair.depth "{" "}" (String c EmptyString))
    (Repair.depth "[" "]" (String c EmptyString))
    (v ++ ws ++ String c EmptyString).
Proof.
  intros (Hvt & Hvb & Hvo) Hws Hc.
  destruct (tailText_closer ws c Hws Hc) as (Ht & Hb & Hsep).
  split; [|split].
  - apply transparent_append; assumption.
  - apply (balanced_append 0 0); assumption.
  - apply closes_of_opens; assumption.
Qed.

(** An element or a member, a comma, and the rest up to the closer. *)
Lemma tailText_more (v ws t : string) (braces brackets : Z) :
  Repair.valueText v -> Repair.blank ws ->
  Repair.tailText braces brackets t ->
  Repair.tailText braces brackets (v ++ ws ++ String "," t).
Proof.
  intros (Hvt & Hvb & Hvo) Hws (Ht & Hb & Hc).
  split; [|split].
  - apply transparent_append; [exact Hvt|].
    apply transparent_append; [apply transparent_blank; exact Hws|].
    apply transparent_comma; assumption.
  - apply (balanced_append 0 0 braces brackets); [exact Hvb|].
    apply (balanced_append 0 0 braces brackets); [apply balanced_plain, Hws|].
    change (String "," t) with ("," ++ t).
    apply (balanced_append 0 0 braces brackets); [repeat split|exact Hb].
  - apply closes_of_opens; [exact Hvo|].
    rewrite noSeparator_append. apply andb_false_r.
Qed.

(** A member: white space, the key, white space, the colon, the value. *)
Lemma valueText_member (ws key ws' v : string) :
  Repair.blank ws -> plainString key = true -> Repair.blank ws' ->
  Repair.valueText v ->
  Repair.valueText
    (ws ++ String JS.quote (key ++ String JS.quote (ws' ++ String ":" v))).
Proof.
  intros Hws Hkey Hws' (Hvt & Hvb & Hvo).
  replace (ws ++ String JS.quote (key ++ String JS.quote (ws' ++ String ":" v)))
    with ((ws ++ String JS.quote (key ++ String JS.quote EmptyString))
            ++ (ws' ++ ":") ++ v)
    by (rewrite !append_assoc; simpl; rewrite !append_assoc; reflexivity).
  destruct (valueText_string ws key Hws Hkey) as (Hkt & Hkb & _).
  split; [|split].
  - apply transparent_append; [exact Hkt|].
    apply transparent_append; [|exact Hvt].
    apply transparent_append; [apply transparent_blank; exact Hws'|].
    apply transparent_quiet. reflexivity.
  - apply (balanced_append 0 0 0 0); [exact Hkb|].
    apply (balanced_append 0 0 0 0); [|exact Hvb].
    apply (balanced_append 0 0 0 0); [apply balanced_plain, Hws'|].
    repeat split.
  - rewrite append_assoc. simpl. rewrite append_assoc. simpl.
    apply opens_blank; [exact Hws|]. apply opens_literal.
    apply plainString_count; [reflexivity|exact Hkey].
Qed.

(** *** The parser *)

Lemma forallb_rev {A : Type} (f : A -> bool) (l : list A) :
  forallb f (rev l) = forallb f l.
Proof.
  induction l as [|a l IH]; [reflexivity|].
  simpl. rewrite forallb_app, IH. simpl. rewrite andb_true_r.
  apply andb_comm.
Qed.

Lemma parseElements_acc (fuel : nat) : forall s acc v rest,
  JSON.parseElements fuel s acc = Some (v, rest) -> plain v = true ->
  forallb plain acc = true.
Proof.
  induction fuel as [|fuel IH]; intros s acc v rest H Hv; [discriminate H|].
  simpl in H.
  destruct (JSON.parseValue fuel s) as [[x r]|]; [|discriminate H].
  destruct (JSON.expect "," (JSON.skipSpace r)) as [r'|].
  - apply IH in H; [|exact Hv]. simpl in H.
    apply andb_true_iff in H as [_ H]. exact H.
  - destruct (JSON.expect "]" (JSON.skipSpace r)) as [r'|]; [|discriminate H].
    injection H as <- <-. simpl in Hv. rewrite forallb_app in Hv.
    apply andb_true_iff in Hv as [Hv _]. rewrite forallb_rev in Hv. exact Hv.
Qed.

Lemma parseMembers_acc (fuel : nat) : forall s acc v rest,
  JSON.parseMembers fuel s acc = Some (v, rest) -> plain v = true ->
  forallb (fun member => plainString (fst member) && plain (snd member)) acc
  = true.
Proof.
  induction fuel as [|fuel IH]; intros s acc v rest H Hv; [discriminate H|].
  simpl in H.
  destruct (JSON.expect JS.quote (JSON.skipSpace s)) as [r|]; [|discriminate H].
  destruct (JSON.parseString r) as [[key r1]|]; [|discriminate H].
  destruct (JSON.expect ":" (JSON.skipSpace r1)) as [r2|]; [|discriminate H].
  destruct (JSON.parseValue fuel r2) as [[x r3]|]; [|discriminate H].
  destruct (JSON.expect "," (JSON.skipSpace r3)) as [r4|].
  - apply IH in H; [|exact Hv]. simpl in H.
    apply andb_true_iff in H as [_ H]. exact H.
  - destruct (JSON.expect "}" (JSON.skipSpace r3)) as [r4|]; [|discriminate H].
    injection H as <- <-. simpl in Hv. rewrite forallb_app in Hv.
    apply andb_true_iff in Hv as [Hv _]. rewrite forallb_rev in Hv. exact Hv.
Qed.

(** What follows a value: white space, then a comma or the closer. *)
Lemma after_value (r r' : string) (c : ascii) :
  JSON.expect c (JSON.skipSpace r) = Some r' ->
  exists ws, Repair.blank ws /\ r = ws ++ String c r'.
Proof.
  intros H. apply expect_some in H.
  destruct (skipSpace_split r) as (ws & Hr & Hws).
  exists ws. split; [exact Hws|]. rewrite <- H. exact Hr.
Qed.

Lemma parse_texts (fuel : nat) :
  (forall s v rest,
      JSON.parseValue fuel s = Some (v, rest) -> plain v = true ->
      exists t, s = t ++ rest /\ Repair.valueText t)
  /\ (forall s acc v rest,
        JSON.parseElements fuel s acc = Some (v, rest) -> plain v = true ->
        exists t, s = t ++ rest /\ Repair.tailText 0 (-1) t)
  /\ (forall s acc v rest,
        JSON.parseMembers fuel s acc = Some (v, rest) -> plain v = true ->
        exists t, s = t ++ rest /\ Repair.tailText (-1) 0 t).
Proof.
  induction fuel as [|fuel (IHv & IHe & IHm)].
  { repeat split; intros; discriminate. }
  split; [|split].
  - (* a value *)
    intros s v rest H Hv. cbn [JSON.parseValue] in H.
    destruct (skipSpace_split s) as (ws & Hs & Hws).
    destruct (JSON.skipSpace s) as [|c r] eqn:Es; [discriminate H|].
    rewrite Hs. clear Hs Es.
    destruct (Ascii.eqb_spec c "{") as [->|_].
    { destruct (JSON.expect "}" (JSON.skipSpace r)) as [r'|] eqn:Ec.
      - injection H as <- <-.
        destruct (after_value _ _ _ Ec) as (ws' & Hws' & ->).
        exists (ws ++ String "{" (ws' ++ "}")). split.
        + rewrite !append_assoc. simpl. rewrite append_assoc. reflexivity.
        + destruct (tailText_closer ws' "}" Hws' (or_intror eq_refl))
            as (Ht & Hb & _).
          apply valueText_object; assumption.
      - destruct (IHm _ _ _ _ H Hv) as (t & -> & Ht).
        exists (ws ++ String "{" t). split.
        + rewrite append_assoc. reflexivity.
        + destruct Ht as (Ht & Hb & _). apply valueText_object; assumption. }
    destruct (Ascii.eqb_spec c "[") as [->|_].
    { destruct (JSON.expect "]" (JSON.skipSpace r)) as [r'|] eqn:Ec.
      - injection H as <- <-.
        destruct (after_value _ _ _ Ec) as (ws' & Hws' & ->).
        exists (ws ++ String "[" (ws' ++ "]")). split.
        + rewrite !append_assoc. simpl. rewrite append_assoc. reflexivity.
        + destruct (tailText_closer ws' "]" Hws' (or_introl eq_refl))
            as (Ht & Hb & _).
          apply valueText_array; assumption.
      - destruct (IHe _ _ _ _ H Hv) as (t & -> & Ht).
        exists (ws ++ String "[" t). split.
        + rewrite append_assoc. reflexivity.
        + destruct Ht as (Ht & Hb & _). apply valueText_array; assumption. }
    destruct (Ascii.eqb_spec c JS.quote) as [->|Hq].
    { destruct (JSON.parseString r) as [[str r']|] eqn:Estr; [|discriminate H].
      injection H as <- <-. simpl in Hv.
      destruct (parseString_plain _ _ _ _ (Nat.le_refl _) Estr Hv)
        as (lit & -> & Hlit).
      exists (ws ++ String JS.quote (lit ++ String JS.quote EmptyString)).
      split.
      - rewrite !append_assoc. simpl. rewrite append_assoc. reflexivity.
      - apply valueText_string; assumption. }
    assert (Hword : forall word,
      JS.startsWith (String c r) word = true ->
      plainString word = true ->
      (exists x w, word = String x w /\ Repair.starter x = true
                   /\ Ascii.eqb x JS.quote = false) ->
      exists t, ws ++ String c r
                = t ++ JS.drop (String.length word) (String c r)
             /\ Repair.valueText t).
    { intros word Hw Hp (x & w & -> & Hx & Hxq).
      exists (ws ++ String x w). split.
      - rewrite append_assoc. f_equal. apply (startsWith_split _ _ Hw).
      - apply valueText_primitive; assumption. }
    destruct (JS.startsWith (String c r) "true") eqn:Et.
    { injection H as <- <-. apply (Hword "true" Et eq_refl).
      do 2 eexists. repeat split. }
    destruct (JS.startsWith (String c r) "false") eqn:Ef.
    { injection H as <- <-. apply (Hword "false" Ef eq_refl).
      do 2 eexists. repeat split. }
    destruct (JS.startsWith (String c r) "null") eqn:En.
    { injection H as <- <-. apply (Hword "null" En eq_refl).
      do 2 eexists. repeat split. }
    destruct (JSON.parseNumber (String c r)) as [[q r']|] eqn:Enum;
      [|discriminate H].
    injection H as <- <-.
    destruct (parseNumber_plain _ _ _ Enum) as (x & t & -> & Hp & Hx & Hxq).
    exists (ws ++ String x t). split.
    + rewrite append_assoc. reflexivity.
    + apply valueText_primitive; assumption.
  - (* the elements of an array *)
    intros s acc v rest H Hv. simpl in H.
    destruct (JSON.parseValue fuel s) as [[x r]|] eqn:Ex; [|discriminate H].
    destruct (JSON.expect "," (JSON.skipSpace r)) as [r'|] eqn:Ec.
    + pose proof (parseElements_acc _ _ _ _ _ H Hv) as Hacc. simpl in Hacc.
      apply andb_true_iff in Hacc as [Hx _].
      destruct (IHv _ _ _ Ex Hx) as (tv & -> & Htv).
      destruct (after_value _ _ _ Ec) as (ws & Hws & ->).
      destruct (IHe _ _ _ _ H Hv) as (t & -> & Ht).
      exists (tv ++ ws ++ String "," t). split.
      * rewrite !append_assoc. simpl. reflexivity.
      * apply tailText_more; assumption.
    + destruct (JSON.expect "]" (JSON.skipSpace r)) as [r'|] eqn:Ee;
        [|discriminate H].
      injection H as <- <-. simpl in Hv. rewrite forallb_app in Hv.
      apply andb_true_iff in Hv as [_ Hx]. simpl in Hx.
      rewrite andb_true_r in Hx.
      destruct (IHv _ _ _ Ex Hx) as (tv & -> & Htv).
      destruct (after_value _ _ _ Ee) as (ws & Hws & ->).
      exists (tv ++ ws ++ "]"). split.
      * rewrite !append_assoc. simpl. reflexivity.
      * apply (tailText_last tv ws "]" Htv Hws). left. reflexivity.
  - (* the members of an object *)
    intros s acc v rest H Hv. simpl in H.
    destruct (JSON.expect JS.quote (JSON.skipSpace s)) as [r|] eqn:Eq;
      [|discriminate H].
    destruct (JSON.parseString r) as [[key r1]|] eqn:Ekey; [|discriminate H].
    destruct (JSON.expect ":" (JSON.skipSpace r1)) as [r2|] eqn:Ecolon;
      [|discriminate H].
    destruct (JSON.parseValue fuel r2) as [[x r3]|] eqn:Ex; [|discriminate H].
    assert (Hmember : plainString key = true /\ plain x = true).
    { destruct (JSON.expect "," (JSON.skipSpace r3)) as [r4|].
      - pose proof (parseMembers_acc _ _ _ _ _ H Hv) as Hacc. simpl in Hacc.
        apply andb_true_iff in Hacc as [Hm _].
        apply andb_true_iff in Hm. exact Hm.
      - destruct (JSON.expect "}" (JSON.skipSpace r3)) as [r4|];
          [|discriminate H].
        injection H as <- <-. simpl in Hv. rewrite forallb_app in Hv.
        apply andb_true_iff in Hv as [_ Hm]. simpl in Hm.
        rewrite andb_true_r in Hm. apply andb_true_iff in Hm. exact Hm. }
    destruct Hmember as [Hkey Hx].
    destruct (after_value _ _ _ Eq) as (ws & Hws & ->).
    destruct (parseString_plain _ _ _ _ (Nat.le_refl _) Ekey Hkey)
      as (lit & -> & Hlit).
    destruct (after_value _ _ _ Ecolon) as (ws' & Hws' & ->).
    destruct (IHv _ _ _ Ex Hx) as (tv & -> & Htv).
    pose proof (valueText_member ws lit ws' tv Hws Hlit Hws' Htv) as Hm.
    destruct (JSON.expect "," (JSON.skipSpace r3)) as [r4|] eqn:Ec.
    + destruct (after_value _ _ _ Ec) as (ws'' & Hws'' & ->).
      destruct (IHm _ _ _ _ H Hv) as (t & -> & Ht).
      exists ((ws ++ String JS.quote (lit ++ String JS.quote
                 (ws' ++ String ":" tv))) ++ ws'' ++ String "," t).
      split.
      * rewrite !append_assoc. simpl. rewrite !append_assoc. simpl.
        rewrite !append_assoc. reflexivity.
      * apply tailText_more; assumption.
    + destruct (JSON.expect "}" (JSON.skipSpace r3)) as [r4|] eqn:Ee;
        [|discriminate H].
      injection H as <- <-.
      destruct (after_value _ _ _ Ee) as (ws'' & Hws'' & ->).
      exists ((ws ++ String JS.quote (lit ++ String JS.quote
                 (ws' ++ String ":" tv))) ++ ws'' ++ "}").
      split.
      * rewrite !append_assoc. simpl. rewrite !append_assoc. simpl.
        rewrite !append_assoc. reflexivity.
      * apply (tailText_last _ ws'' "}" Hm Hws''). right. reflexivity.
Qed.

(** *** The whole text *)

Lemma transparent_whole (s : string) :
  Repair.transparent s ->
  GLMService.removeTrailingCommas s = s
  /\ GLMService.dropIncompleteProperty s = s.
Proof.
  intros [H1 H3]. specialize (H1 EmptyString). specialize (H3 EmptyString).
  rewrite append_nil_r in H1, H3. simpl in H1, H3.
  rewrite append_nil_r in H1, H3. split; assumption.
Qed.

Lemma closeString_even (s : string) :
  Nat.even (JS.count JS.quote s) = true -> GLMService.closeString s = s.
Proof. intros H. unfold GLMService.closeString. rewrite H. reflexivity. Qed.

Lemma closeOpen_balanced (s : string) :
  Repair.balanced 0 0 s -> GLMService.closeOpen s = s.
Proof.
  intros (_ & Hb & Hk). unfold GLMService.closeOpen.
  unfold Repair.depth in Hb, Hk. rewrite Hb, Hk. simpl.
  apply append_nil_r.
Qed.

Lemma parse_text (s : string) (v : JSON.value) :
  JSON.parse s = Some v -> plain v = true ->
  Repair.transparent s /\ Repair.balanced 0 0 s.
Proof.
  unfold JSON.parse. intros H Hv.
  destruct (JSON.parseValue _ s) as [[v' rest]|] eqn:Ev; [|discriminate H].
  destruct (skipSpace_split rest) as (ws & Hrest & Hws).
  destruct (JSON.skipSpace rest); [|discriminate H].
  injection H as ->. rewrite append_nil_r in Hrest. subst rest.
  destruct (proj1 (parse_texts _) _ _ _ Ev Hv) as (t & -> & Ht & Hb & _).
  split.
  - apply transparent_append; [exact Ht|apply transparent_blank, Hws].
  - apply (balanced_append 0 0 0 0); [exact Hb|apply balanced_plain, Hws].
Qed.

Lemma fixIncompleteJSON_plain (s : string) (v : JSON.value) :
  JSON.parse s = Some v -> plain v = true ->
  GLMService.fixIncompleteJSON s = s.
Proof.
  intros H Hv. destruct (parse_text s v H Hv) as [Ht Hb].
  destruct (transparent_whole s Ht) as [H1 H3].
  unfold GLMService.fixIncompleteJSON.
  rewrite H1, (closeString_even s (proj1 Hb)), H3.
  apply closeOpen_balanced, Hb.
Qed.

End ValidUnderRepair.

(** C3, amended.  A text that parses as valid JSON and none of whose
    strings, keys included, holds a double quote, a comma, a brace or a
    bracket is returned unchanged by [fixIncompleteJSON], so that it parses
    to the same value.  Whatever its strings hold, a text that parses to a
    value other than [null] does not reach the repair: [parseJSONResponse]
    returns Ok with that value. *)
Theorem fixIncompleteJSON_preserves_plain_valid :
  forall (s : string) (v : JSON.value),
    JSON.parse s = Some v ->
    (plain v = true ->
     GLMService.fixIncompleteJSON s = s
     /\ JSON.parse (GLMService.fixIncompleteJSON s) = Some v)
    /\ (v <> JSON.Null ->
        forall response : string,
          GLMService.candidate response = s ->
          GLMService.parseJSONResponse response = Core.ok v).
Proof.
  intros s v Hparse. split.
  - intros Hplain. rewrite (fixIncompleteJSON_plain s v Hparse Hplain).
    split; [reflexivity|exact Hparse].
  - intros Hnull response Hcandidate.
    unfold GLMService.parseJSONResponse, GLMService.tryParse.
    rewrite Hcandidate, Hparse. destruct v; try reflexivity. contradiction.
Qed.

Lemma fixIncompleteJSON_preserves_plain_valid_witness :
  GLMService.fixIncompleteJSON
    (JS.dq "{'a': [1, 'x: y'], 'b': {'c': null}}")
  = JS.dq "{'a': [1, 'x: y'], 'b': {'c': null}}".
Proof.
  refine (proj1 (proj1 (fixIncompleteJSON_preserves_plain_valid
    (JS.dq "{'a': [1, 'x: y'], 'b': {'c': null}}")
    (JSON.Object
       [("a"%string, JSON.Array [JSON.Number 1; JSON.Str "x: y"]);
        ("b"%string, JSON.Object [("c"%string, JSON.Null)])]) _) _)).
  - vm_compute. reflexivity.
  - vm_compute. reflexivity.
Defined.

(** ** Initialization and the singleton *)

(** C10.  [initialize] succeeds for every non-empty key and so does
    [updateApiKey]; the format of the key is looked at by [callAPI] only: a
    key that does not split into two segments is accepted at
    initialization, and each request then fails on it before anything is
    sent. *)
Theorem initialize_accepts_any_nonempty_key :
  forall (this : GLMService.t) (k : string),
    k <> EmptyString ->
    (Config.apiKey (GLMService.config this) = k ->
     GLMService.initialize this
       = (Core.ok tt, GLMService.setInitialized true this))
    /\ fst (GLMService.updateApiKey k this) = Core.ok tt
    /\ Config.apiKey (GLMService.config (snd (GLMService.updateApiKey k this)))
       = k
    /\ GLMService.initialized (snd (GLMService.updateApiKey k this)) = true
    /\ (length (JS.split "." k) <> 2%nat ->
        forall messages now exchange,
        exists error,
          GLMService.callAPI (snd (GLMService.updateApiKey k this))
            messages now exchange = ([], Rejected error)).
Proof.
  intros this k Hk.
  assert (Hupd : GLMService.updateApiKey k this
            = (Core.ok tt,
               GLMService.setInitialized true
                 (GLMService.setInitialized false
                    (GLMService.setConfig
                       (Config.setApiKey k (GLMService.config this)) this)))).
  { unfold GLMService.updateApiKey, GLMService.initialize. simpl.
    destruct k; [contradiction|reflexivity]. }
  split; [|rewrite Hupd; repeat split].
  - intros Hkey. unfold GLMService.initialize. rewrite Hkey.
    destruct k; [contradiction|reflexivity].
  - intros Hsplit messages now exchange.
    unfold GLMService.callAPI. cbn [snd GLMService.config
      GLMService.setInitialized GLMService.setConfig Config.setApiKey
      Config.apiKey].
    destruct (_ || JS.trimIsEmpty k); [eexists; reflexivity|].
    destruct (negb (JS.includes k ".")); [eexists; reflexivity|].
    unfold generateToken.
    destruct (JS.split "." k) as [|a [|b [|c l]]];
      try (eexists; reflexivity).
    simpl in Hsplit. contradiction.
Qed.

Lemma initialize_accepts_any_nonempty_key_witness :
  fst (GLMService.updateApiKey "no-separator"
         (GLMService.new (Sample.keyOnly "old.key")))
  = Core.ok tt.
Proof.
  apply (initialize_accepts_any_nonempty_key
           (GLMService.new (Sample.keyOnly "old.key")) "no-separator").
  discriminate.
Defined.

(** C9.  Once [glmServiceInstance] is set, [createGLMService] returns the
    reference it holds and changes nothing, whatever configuration it is
    given; so after a first call with [c1] on the fresh module, any run of
    further calls returns the reference of the first, which still denotes
    the service constructed from [c1]. *)
Theorem createGLMService_first_call_wins :
  forall (c1 : GLMConfig.t) (later : list GLMConfig.t),
    (forall (m : ModuleState) (reference : nat) (c2 : GLMConfig.t),
        glmServiceInstance m = Some reference ->
        createGLMService c2 m = (reference, m))
    /\ Forall
         (fun c2 =>
            createGLMService c2 (snd (createGLMService c1 initialModule))
            = createGLMService c1 initialModule)
         later
    /\ fold_left (fun m c2 => snd (createGLMService c2 m)) later
         (snd (createGLMService c1 initialModule))
       = snd (createGLMService c1 initialModule)
    /\ deref (snd (createGLMService c1 initialModule))
         (fst (createGLMService c1 initialModule))
       = Some (GLMService.new c1)
    /\ getGLMService (snd (createGLMService c1 initialModule))
       = Some (fst (createGLMService c1 initialModule)).
Proof.
  intros c1 later.
  assert (Hset : forall m reference c2,
             glmServiceInstance m = Some reference ->
             createGLMService c2 m = (reference, m)).
  { intros m reference c2 H. unfold createGLMService. rewrite H. reflexivity. }
  split; [exact Hset|].
  split; [|split; [|split; reflexivity]].
  - apply Forall_forall. intros c2 _. apply Hset. reflexivity.
  - induction later as [|c2 rest IH]; [reflexivity|].
    cbn [fold_left]. rewrite (Hset _ 0%nat c2) by reflexivity. exact IH.
Qed.

(** A second call with another key returns the first reference, which still
    denotes the service constructed with the first key. *)
Lemma createGLMService_first_call_wins_witness :
  createGLMService (Sample.keyOnly "new.key")
    (snd (createGLMService (Sample.keyOnly "old.key") initialModule))
  = (0%nat, snd (createGLMService (Sample.keyOnly "old.key") initialModule))
  /\ deref (snd (createGLMService (Sample.keyOnly "old.key") initialModule))
       0%nat
     = Some (GLMService.new (Sample.keyOnly "old.key")).
Proof.
  split.
  - apply (proj1 (createGLMService_first_call_wins
                    (Sample.keyOnly "old.key") [Sample.keyOnly "new.key"])).
    reflexivity.
  - apply (createGLMService_first_call_wins
             (Sample.keyOnly "old.key") [Sample.keyOnly "new.key"]).
Defined.

(** ** Retry and backoff *)

Lemma invocations_app (t1 t2 : list Event) :
  invocations (t1 ++ t2) = (invocations t1 + invocations t2)%nat.
Proof. unfold invocations. rewrite filter_app, length_app. reflexivity. Qed.

Lemma backoffs_app (t1 t2 : list Event) :
  backoffs (t1 ++ t2) = backoffs t1 ++ backoffs t2.
Proof.
  induction t1 as [|e t1 IH]; [reflexivity|].
  destruct e; simpl; rewrite IH; reflexivity.
Qed.

Lemma requestsSent_app (t1 t2 : list Event) :
  requestsSent (t1 ++ t2) = (requestsSent t1 + requestsSent t2)%nat.
Proof. unfold requestsSent. rewrite filter_app, length_app. reflexivity. Qed.

Lemma invocations_requests (sent : list Sent) :
  invocations (map Request sent) = 0%nat.
Proof. induction sent; [reflexivity|exact IHsent]. Qed.

Lemma backoffs_requests (sent : list Sent) :
  backoffs (map Request sent) = [].
Proof. induction sent; [reflexivity|exact IHsent]. Qed.

Lemma withoutRequests_app (t1 t2 : list Event) :
  withoutRequests (t1 ++ t2) = withoutRequests t1 ++ withoutRequests t2.
Proof. unfold withoutRequests. apply filter_app. Qed.

Lemma withoutRequests_requests (sent : list Sent) :
  withoutRequests (map Request sent) = [].
Proof. induction sent; [reflexivity|exact IHsent]. Qed.

Lemma retried_inv (e : Err.t) :
  GLMService.retried e = true ->
  JS.includes (Err.message e) "401" = false
  /\ JS.includes (Err.message e) "403" = false
  /\ JS.includes (Err.message e) "400" = false
  /\ GLMService.isRetryableError e = true.
Proof.
  unfold GLMService.retried. intros H.
  repeat (apply andb_true_iff in H; destruct H as [H ?]).
  repeat match goal with
         | X : negb _ = true |- _ => apply negb_true_iff in X
         end.
  auto.
Qed.

Section Retry.

Context {T : Type}.
Variable this : GLMService.t.
Variable random : nat -> Q.
Variable fn : nat -> list Sent * Settled T.
Variable context : string.

Hypothesis failures_retried :
  forall j e, snd (fn j) = Rejected e -> GLMService.retried e = true.





End Retry.

Lemma callWithRetry_initialized {T : Type} (this : GLMService.t) now lag
    random (fn : nat -> list Sent * Settled T) context :
  GLMService.initialized this = true ->
  resultOf (GLMService.callWithRetry this now lag random fn context)
    = fst (GLMService.attempts this random fn context
             (Z.to_nat (Config.maxRetries (GLMService.config this))) 0 None)
  /\ traceOf (GLMService.callWithRetry this now lag random fn context)
    = snd (GLMService.attempts this random fn context
             (Z.to_nat (Config.maxRetries (GLMService.config this))) 0 None).
Proof.
  intros Hinit. unfold GLMService.callWithRetry, resultOf, traceOf.
  rewrite Hinit. cbn [negb].
  destruct (RateLimiter.waitForSlot now lag (GLMService.rateLimiter this)).
  destruct (GLMService.attempts this random fn context _ 0 None).
  split; reflexivity.
Qed.




Lemma statusError_auth (statusCode : Z) (data : string) :
  statusCode = 401 \/ statusCode = 403 ->
  JS.includes (Err.message (GLMService.statusError statusCode data)) "401"
  || JS.includes (Err.message (GLMService.statusError statusCode data)) "403"
  = true.
Proof.
  intros [-> | ->]; apply orb_true_iff; [left|right]; reflexivity.
Qed.

(** C5.  When the first attempt fails with the error [callAPI] raises for an
    HTTP status of 401 or 403, the transport is invoked once, no backoff
    timer is set, and the result is the error AI_AUTH_FAILED, of critical
    severity. *)
Theorem callWithRetry_auth_failure_not_retried :
  forall (T : Type) (this : GLMService.t) (now : Z) (lag : N)
         (random : nat -> Q) (fn : nat -> list Sent * Settled T)
         (context : string) (statusCode : Z) (data : string),
    GLMService.initialized this = true ->
    1 <= Config.maxRetries (GLMService.config this) ->
    statusCode = 401 \/ statusCode = 403 ->
    snd (fn 0%nat) = Rejected (GLMService.statusError statusCode data) ->
    invocations
      (traceOf (GLMService.callWithRetry this now lag random fn context))
    = 1%nat
    /\ backoffs
         (traceOf (GLMService.callWithRetry this now lag random fn context))
       = []
    /\ exists error,
         resultOf (GLMService.callWithRetry this now lag random fn context)
         = Core.err error
         /\ Core.code error = "AI_AUTH_FAILED"%string
         /\ Core.severity error = Core.CRITICAL.
Proof.
  intros T this now lag random fn context statusCode data Hinit HM Hstatus Hfn.
  destruct (callWithRetry_initialized this now lag random fn context Hinit)
    as [-> ->].
  destruct (Z.to_nat (Config.maxRetries (GLMService.config this)))
    as [|remaining] eqn:HMnat; [lia|].
  cbn [GLMService.attempts]. destruct (fn 0%nat) as [sent outcome].
  simpl in Hfn. subst outcome.
  rewrite (statusError_auth statusCode data Hstatus). cbn [fst snd].
  change (Invoke 0 :: map Request sent) with ([Invoke 0] ++ map Request sent).
  rewrite invocations_app, backoffs_app, invocations_requests,
    backoffs_requests.
  repeat split. eexists. repeat split.
Qed.

Lemma callWithRetry_auth_failure_not_retried_witness :
  invocations
    (traceOf (GLMService.callWithRetry (Sample.service "id.secret") 0 0
                Sample.half Sample.unauthorized "recognizeMedications"))
  = 1%nat.
Proof.
  refine (proj1 (callWithRetry_auth_failure_not_retried string
    (Sample.service "id.secret") 0 0%N Sample.half Sample.unauthorized
    "recognizeMedications" 401 "{}" _ _ _ _)); try reflexivity.
  - vm_compute. discriminate.
  - left. reflexivity.
Defined.

(** ** The extraction operations *)

Section MalformedCredential.

Variable this : GLMService.t.
Variable env : Env.

Hypothesis attempts_allowed : 1 <= Config.maxRetries (GLMService.config this).
Hypothesis malformed :
  length (JS.split "." (Config.apiKey (GLMService.config this))) <> 2%nat.




End MalformedCredential.



Lemma callAPI_accepted (this : GLMService.t) messages now exchange :
  keyAccepted (Config.apiKey (GLMService.config this)) = true ->
  exists sent, GLMService.callAPI this messages now exchange = (sent, exchange).
Proof.
  unfold keyAccepted, GLMService.callAPI. intros H.
  apply andb_true_iff in H as [H Hsplit].
  apply andb_true_iff in H as [Htrim Hdot].
  apply negb_true_iff in Htrim. apply Nat.eqb_eq in Hsplit.
  rewrite Htrim, Hdot.
  destruct (Config.apiKey (GLMService.config this)) as [|c k] eqn:Hk.
  { discriminate Htrim. }
  cbn [orb negb]. unfold generateToken.
  destruct (JS.split "." (String c k)) as [|a [|b [|d l]]];
    try discriminate Hsplit.
  eexists. reflexivity.
Qed.

Lemma request_replied (this : GLMService.t) (env : Env) messages context
    response :
  GLMService.initialized this = true ->
  1 <= Config.maxRetries (GLMService.config this) ->
  keyAccepted (Config.apiKey (GLMService.config this)) = true ->
  exchange env 0%nat = Resolved response ->
  exists trace this',
    GLMService.request this env messages context
    = (Core.ok response, trace, this').
Proof.
  intros Hinit HM Hkey Hreply.
  unfold GLMService.request, GLMService.callWithRetry. rewrite Hinit.
  cbn [negb]. destruct (RateLimiter.waitForSlot _ _ _) as [recorded limiter].
  destruct (Z.to_nat (Config.maxRetries (GLMService.config this)))
    as [|remaining] eqn:HMnat; [lia|].
  cbn [GLMService.attempts].
  destruct (callAPI_accepted this messages (attemptClock env 0)
              (exchange env 0) Hkey) as [sent ->].
  rewrite Hreply. do 2 eexists. reflexivity.
Qed.

(** C6, at a failing input.  A reply that is valid JSON but has a number
    where the list of medications is expected, a [null] among the criteria,
    or a text where the procedures of a visit are expected makes the
    operation throw a [TypeError] instead of returning an error Result. *)
Theorem extraction_throws_on_unexpected_shape :
  resultOf (GLMService.recognizeMedications (Sample.service "id.secret")
              (Sample.replying (JS.dq "{'medications': 5}")) "record")
  = Rejected (Err.typeError "map is not a function")
  /\ resultOf (GLMService.extractCriteria (Sample.service "id.secret")
                 (Sample.replying (JS.dq "{'inclusionCriteria': [null]}"))
                 "protocol")
     = Rejected (Err.typeError "Cannot read properties of null")
  /\ resultOf (GLMService.extractVisitSchedule (Sample.service "id.secret")
                 (Sample.replying
                    (JS.dq "{'visitSchedule': [{'procedures': 'none'}]}"))
                 "protocol")
     = Rejected (Err.typeError "map is not a function").
Proof. repeat split; vm_compute; reflexivity. Qed.

(** C8, counterexample.  A reply that is a JSON array of two objects is
    valid JSON and has no [medications] member, yet [recognizeMedications]
    returns the error AI_PARSE_FAILED: the text it tries to parse runs from
    the first opening brace to the last closing brace of the reply.  The
    same happens to a JSON object one of whose strings holds a code fence:
    the text tried is what stands between the fences. *)
Lemma missing_key_counterexample :
  (JSON.parse (JS.dq "[{'a':1},{'b':2}]")
     = Some (JSON.Array [JSON.Object [("a"%string, JSON.Number 1)];
                         JSON.Object [("b"%string, JSON.Number 2)]])
   /\ JSON.get (JSON.Array [JSON.Object [("a"%string, JSON.Number 1)];
                            JSON.Object [("b"%string, JSON.Number 2)]])
        "medications" = Resolved None
   /\ GLMService.candidate (JS.dq "[{'a':1},{'b':2}]")
      = JS.dq "{'a':1},{'b':2}"
   /\ (exists error,
         resultOf (GLMService.recognizeMedications
                     (Sample.service "id.secret")
                     (Sample.replying (JS.dq "[{'a':1},{'b':2}]")) "record")
         = Resolved (Core.err error)
         /\ Core.code error = "AI_PARSE_FAILED"%string)
   /\ resultOf (GLMService.recognizeMedications (Sample.service "id.secret")
                  (Sample.replying (JS.dq "[{'a':1},{'b':2}]")) "record")
      <> Resolved (Core.ok []))
  /\ (JSON.parse (JS.dq "{'note': '```x```'}")
        = Some (JSON.Object [("note"%string, JSON.Str "```x```")])
      /\ JSON.get (JSON.Object [("note"%string, JSON.Str "```x```")])
           "medications" = Resolved None
      /\ GLMService.candidate (JS.dq "{'note': '```x```'}") = "x"%string
      /\ exists error,
           resultOf (GLMService.recognizeMedications
                       (Sample.service "id.secret")
                       (Sample.replying (JS.dq "{'note': '```x```'}"))
                       "record")
           = Resolved (Core.err error)
           /\ Core.code error = "AI_PARSE_FAILED"%string).
Proof.
  split.
  - split; [vm_compute; reflexivity|].
    split; [reflexivity|].
    split; [vm_compute; reflexivity|].
    split; [eexists; split; vm_compute; reflexivity|].
    vm_compute. discriminate.
  - split; [vm_compute; reflexivity|].
    split; [reflexivity|].
    split; [vm_compute; reflexivity|].
    eexists; split; vm_compute; reflexivity.
Qed.

(** C8, amended.  When the value [parseJSONResponse] obtains from the reply
    has no member of the expected name, the operation returns Ok with the
    empty default: the empty list for [medications], [visits] and [items],
    the empty string for [subjectNumber]. *)
Theorem missing_key_gives_empty_default :
  forall (this : GLMService.t) (env : Env) (content summary response : string)
         (data : JSON.value),
    GLMService.initialized this = true ->
    1 <= Config.maxRetries (GLMService.config this) ->
    keyAccepted (Config.apiKey (GLMService.config this)) = true ->
    exchange env 0%nat = Resolved response ->
    GLMService.parseJSONResponse response = Core.ok data ->
    (JSON.get data "medications" = Resolved None ->
     resultOf (GLMService.recognizeMedications this env content)
     = Resolved (Core.ok []))
    /\ (JSON.get data "visits" = Resolved None ->
        resultOf (GLMService.extractSubjectVisitDates this env content summary)
        = Resolved (Core.ok (JSON.Array [])))
    /\ (JSON.get data "items" = Resolved None ->
        resultOf (GLMService.extractSubjectVisitItems this env content summary)
        = Resolved (Core.ok (JSON.Array [])))
    /\ (JSON.get data "subjectNumber" = Resolved None ->
        resultOf (GLMService.extractSubjectNumber this env content)
        = Resolved (Core.ok (JSON.Str EmptyString))).
Proof.
  intros this env content summary response data Hinit HM Hkey Hreply Hparse.
  repeat split; intros Hget;
    match goal with
    | |- resultOf (?op _ _ _) = _ => unfold op
    | |- resultOf (?op _ _ _ _) = _ => unfold op
    end;
    match goal with
    | |- context [GLMService.request this env ?messages ?context] =>
        destruct (request_replied this env messages context response
                    Hinit HM Hkey Hreply) as (trace & this' & ->)
    end;
    rewrite Hparse, Hget; reflexivity.
Qed.

Lemma missing_key_gives_empty_default_witness :
  resultOf (GLMService.recognizeMedications (Sample.service "id.secret")
              (Sample.replying (JS.dq "{'drugs': []}")) "record")
  = Resolved (Core.ok []).
Proof.
  refine (proj1 (missing_key_gives_empty_default
    (Sample.service "id.secret") (Sample.replying (JS.dq "{'drugs': []}"))
    "record" "summary" (JS.dq "{'drugs': []}")
    (JSON.Object [("drugs"%string, JSON.Array [])]) _ _ _ _ _) _);
    try reflexivity.
  vm_compute. discriminate.
Defined.


(** * Further properties *)

(** ** The rate limiter *)

Section Limiter.

Import RateLimiter.

Lemma inWindow_length this now :
  (length (inWindow this now) <= length (requests this))%nat.
Proof. unfold inWindow. apply filter_length_le. Qed.

Lemma run_burst : forall calls clock this,
  Z.of_nat (length (requests this) + length calls)
    <= maxRequests (config this) ->
  Forall (fun a => sleptMs a = 0) (run clock this calls).
Proof.
  induction calls as [|c rest IH]; intros clock this Hroom; [constructor|].
  rewrite run_cons. cbv zeta.
  pose proof (inWindow_length this (clock + Z.of_N (idle c))) as Hkept.
  simpl length in Hroom.
  assert (Hfree : waitTime this (clock + Z.of_N (idle c)) = None).
  { unfold waitTime.
    destruct (maxRequests (config this) <=? _) eqn:E; [lia|reflexivity]. }
  constructor.
  - cbn [sleptMs]. unfold slept. rewrite Hfree. reflexivity.
  - apply IH. simpl. rewrite length_app. simpl. lia.
Qed.




End Limiter.

(** X1.  The first calls on a limiter that was just constructed or reset, as
    many as its ceiling allows, are admitted without delay, however close
    together they are made. *)
Theorem waitForSlot_burst_not_delayed :
  forall (this : RateLimiter.t) (clock : Z) (calls : list RateLimiter.Call),
    Z.of_nat (length calls) <= maxRequests (RateLimiter.config this) ->
    Forall (fun a => RateLimiter.sleptMs a = 0)
      (RateLimiter.run clock (RateLimiter.reset this) calls)
    /\ Forall (fun a => RateLimiter.sleptMs a = 0)
         (RateLimiter.run clock (RateLimiter.new (RateLimiter.config this))
            calls).
Proof.
  intros this clock calls Hlen.
  split; apply run_burst; simpl; exact Hlen.
Qed.

Lemma waitForSlot_burst_not_delayed_witness :
  Forall (fun a => RateLimiter.sleptMs a = 0)
    (RateLimiter.run 0
       (RateLimiter.reset
          (RateLimiter.new {| maxRequests := 2; windowMs := 60000 |}))
       [ {| RateLimiter.idle := 0; RateLimiter.lag := 0 |};
         {| RateLimiter.idle := 5; RateLimiter.lag := 1 |} ]).
Proof.
  apply (waitForSlot_burst_not_delayed
           (RateLimiter.new {| maxRequests := 2; windowMs := 60000 |}) 0
           [ {| RateLimiter.idle := 0; RateLimiter.lag := 0 |};
             {| RateLimiter.idle := 5; RateLimiter.lag := 1 |} ]).
  simpl. lia.
Defined.





(** ** The retry loop *)

Section Loop.

Context {T : Type}.
Variable this : GLMService.t.
Variable random : nat -> Q.
Variable fn : nat -> list Sent * Settled T.
Variable context : string.

(** One turn of the loop on a failure that is retried. *)
Lemma attempts_step remaining attempt lastError sent e :
  fn attempt = (sent, Rejected e) ->
  GLMService.retried e = true ->
  GLMService.attempts this random fn context (S remaining) attempt lastError
  = (fst (GLMService.attempts this random fn context remaining (S attempt)
            (Some e)),
     (Invoke attempt :: map Request sent)
       ++ (if Z.of_nat attempt <? Config.maxRetries (GLMService.config this) - 1
           then [Backoff (GLMService.backoffDelay attempt (random attempt))]
           else [])
       ++ snd (GLMService.attempts this random fn context remaining
                 (S attempt) (Some e))).
Proof.
  intros Hfn Hr.
  apply retried_inv in Hr as (H1 & H3 & H0 & Hre).
  cbn [GLMService.attempts]. rewrite Hfn, H1, H3, H0, Hre. cbn [orb negb].
  destruct (GLMService.attempts this random fn context remaining (S attempt)
              (Some e)) as [result later].
  reflexivity.
Qed.

(** One turn of the loop on a failure that is not retried. *)
Lemma attempts_fatal remaining attempt lastError sent e :
  fn attempt = (sent, Rejected e) ->
  GLMService.retried e = false ->
  snd (GLMService.attempts this random fn context (S remaining) attempt
         lastError) = Invoke attempt :: map Request sent
  /\ exists error,
       fst (GLMService.attempts this random fn context (S remaining) attempt
              lastError) = Core.err error
       /\ reports e attempt context error.
Proof.
  intros Hfn Hr. cbn [GLMService.attempts]. rewrite Hfn.
  unfold GLMService.retried in Hr. unfold reports.
  destruct (JS.includes (Err.message e) "401"
            || JS.includes (Err.message e) "403") eqn:Hauth.
  { cbn [fst snd]. split; [reflexivity|]. eexists. split; [reflexivity|].
    cbn. repeat split; try discriminate. }
  apply orb_false_iff in Hauth as [H1 H3]. rewrite H1, H3 in Hr.
  destruct (JS.includes (Err.message e) "400") eqn:H0.
  { cbn [fst snd]. split; [reflexivity|]. eexists. split; [reflexivity|].
    cbn. repeat split; try discriminate. }
  cbn [negb andb] in Hr. rewrite Hr. cbn [negb fst snd].
  split; [reflexivity|]. eexists. split; [reflexivity|].
  cbn. repeat split; try discriminate.
Qed.

Lemma trace_head attempt (sent : list Sent) (rest : list Event) :
  invocations ((Invoke attempt :: map Request sent) ++ rest)
    = S (invocations rest)
  /\ withoutRequests ((Invoke attempt :: map Request sent) ++ rest)
     = Invoke attempt :: withoutRequests rest
  /\ backoffs ((Invoke attempt :: map Request sent) ++ rest) = backoffs rest
  /\ requestsSent ((Invoke attempt :: map Request sent) ++ rest)
     = (length sent + requestsSent rest)%nat.
Proof.
  change (Invoke attempt :: map Request sent)
    with ([Invoke attempt] ++ map Request sent).
  rewrite !invocations_app, !withoutRequests_app, !backoffs_app,
    !requestsSent_app, invocations_requests, withoutRequests_requests,
    backoffs_requests.
  repeat split.
  unfold requestsSent at 1 2. simpl.
  clear. induction sent as [|s l IH]; simpl; [reflexivity|].
  simpl in IH. lia.
Qed.


(** Whatever the transport does, the loop invokes it at most once per
    iteration, and sets a timer only between two invocations. *)
Lemma attempts_bounded remaining : forall attempt lastError,
  (attempt + remaining)%nat
    = Z.to_nat (Config.maxRetries (GLMService.config this)) ->
  (invocations
     (snd (GLMService.attempts this random fn context remaining attempt
             lastError)) <= remaining)%nat
  /\ (length (backoffs
        (snd (GLMService.attempts this random fn context remaining attempt
                lastError)))
      <= invocations
           (snd (GLMService.attempts this random fn context remaining attempt
                   lastError)) - 1)%nat
  /\ Forall (fun d => exists j, (attempt <= j)%nat
                /\ Z.of_nat j < Config.maxRetries (GLMService.config this) - 1
                /\ d = GLMService.backoffDelay j (random j))
       (backoffs
          (snd (GLMService.attempts this random fn context remaining attempt
                  lastError)))
  /\ ((forall j, (length (fst (fn j)) <= 1)%nat) ->
      (requestsSent
         (snd (GLMService.attempts this random fn context remaining attempt
                 lastError))
       <= invocations
            (snd (GLMService.attempts this random fn context remaining attempt
                    lastError)))%nat).
Proof.
  induction remaining as [|remaining IH]; intros attempt lastError HM.
  - cbn. repeat split; try lia. constructor.
  - destruct (fn attempt) as [sent outcome] eqn:Hfn.
    assert (Hone : (forall j, (length (fst (fn j)) <= 1)%nat) ->
                   (length sent <= 1)%nat).
    { intros H. specialize (H attempt). rewrite Hfn in H. exact H. }
    assert (Hshort :
      forall result : Core.Result T,
        (invocations (snd (result, Invoke attempt :: map Request sent))
         <= S remaining)%nat
        /\ (length (backoffs (snd (result, Invoke attempt :: map Request sent)))
            <= invocations
                 (snd (result, Invoke attempt :: map Request sent)) - 1)%nat
        /\ Forall (fun d => exists j, (attempt <= j)%nat
                /\ Z.of_nat j < Config.maxRetries (GLMService.config this) - 1
                /\ d = GLMService.backoffDelay j (random j))
             (backoffs (snd (result, Invoke attempt :: map Request sent)))
        /\ ((forall j, (length (fst (fn j)) <= 1)%nat) ->
            (requestsSent (snd (result, Invoke attempt :: map Request sent))
             <= invocations
                  (snd (result, Invoke attempt :: map Request sent)))%nat)).
    { intros result. cbn [snd].
      rewrite <- (app_nil_r (Invoke attempt :: map Request sent)).
      destruct (trace_head attempt sent []) as (-> & _ & -> & ->).
      cbn. repeat split; try lia; [constructor|].
      intros H. apply Hone in H. lia. }
    destruct outcome as [r|e].
    { cbn [GLMService.attempts]. rewrite Hfn. apply Hshort. }
    destruct (GLMService.retried e) eqn:Hr.
    + rewrite (attempts_step _ _ _ _ _ Hfn Hr). cbn [snd].
      destruct (IH (S attempt) (Some e)) as (Hinv & Hback & Hall & Hsent);
        [lia|].
      set (later := snd (GLMService.attempts this random fn context remaining
                           (S attempt) (Some e))) in *.
      set (pause := if Z.of_nat attempt
                         <? Config.maxRetries (GLMService.config this) - 1
                    then [Backoff (GLMService.backoffDelay attempt
                                     (random attempt))]
                    else []).
      destruct (trace_head attempt sent (pause ++ later))
        as (-> & _ & -> & ->).
      rewrite invocations_app, backoffs_app, requestsSent_app, length_app.
      assert (Hpause : invocations pause = 0%nat /\ requestsSent pause = 0%nat
                       /\ (length (backoffs pause) <= 1)%nat
                       /\ (remaining = 0%nat -> backoffs pause = [])).
      { unfold pause.
        destruct (Z.of_nat attempt
                  <? Config.maxRetries (GLMService.config this) - 1) eqn:E;
          cbn; repeat split; try lia. }
      destruct Hpause as (-> & -> & Hp1 & Hp0).
      split; [simpl; lia|]. split; [|split].
      * destruct remaining as [|remaining'].
        { rewrite Hp0 by reflexivity. simpl. lia. }
        assert (1 <= invocations later)%nat; [|simpl; lia].
        unfold later. cbn [GLMService.attempts].
        destruct (fn (S attempt)) as [sent' outcome']. clear.
        destruct outcome' as [r'|e']; [cbn; lia|].
        repeat match goal with
               | |- context [if ?b then _ else _] => destruct b
               | |- context [let '(_, _) := ?p in _] => destruct p
               end; cbn; lia.
      * apply Forall_app. split.
        -- unfold pause.
           destruct (Z.of_nat attempt
                     <? Config.maxRetries (GLMService.config this) - 1) eqn:E;
             cbn; constructor; [|constructor].
           exists attempt. repeat split; lia.
        -- eapply Forall_impl; [|exact Hall].
           intros d (j & Hj & Hlt & ->). exists j. repeat split; lia.
      * intros H. specialize (Hsent H). apply Hone in H. simpl. lia.
    + destruct (attempts_fatal remaining attempt lastError sent e Hfn Hr)
        as (Htrace & error & Hres & _).
      rewrite Htrace. apply (Hshort (Core.err error)).
Qed.

(** When every attempt fails and is retried, the error returned is the one
    built from the failure of the last attempt. *)
Lemma attempts_last remaining : forall attempt lastError,
  Z.of_nat (attempt + remaining)
    = Config.maxRetries (GLMService.config this) ->
  (forall j, (attempt <= j < attempt + remaining)%nat ->
     exists e, snd (fn j) = Rejected e /\ GLMService.retried e = true) ->
  fst (GLMService.attempts this random fn context remaining attempt lastError)
  = Core.err
      (GLMService.exhausted this context
         (match remaining with
          | O => lastError
          | S _ =>
              match snd (fn (attempt + remaining - 1)%nat) with
              | Rejected e => Some e
              | Resolved _ => None
              end
          end))
  /\ requestsSent
       (snd (GLMService.attempts this random fn context remaining attempt
               lastError))
     = fold_right (fun j n => (length (fst (fn j)) + n)%nat) 0%nat
         (seq attempt remaining).
Proof.
  induction remaining as [|remaining IH]; intros attempt lastError HM Hall.
  - split; reflexivity.
  - destruct (Hall attempt) as (e & He & Hr); [lia|].
    destruct (fn attempt) as [sent outcome] eqn:Hfn. simpl in He.
    subst outcome. rewrite (attempts_step _ _ _ _ _ Hfn Hr). cbn [fst snd].
    destruct (IH (S attempt) (Some e)) as [Hres Hsent]; [lia| |].
    { intros j Hj. apply Hall. lia. }
    rewrite Hres. split.
    + destruct remaining as [|remaining'].
      * replace (attempt + 1 - 1)%nat with attempt by lia. rewrite Hfn.
        reflexivity.
      * replace (S attempt + S remaining' - 1)%nat
          with (attempt + S (S remaining') - 1)%nat by lia.
        reflexivity.
    + match goal with
      | |- requestsSent (_ ++ ?p ++ ?l) = _ =>
          destruct (trace_head attempt sent (p ++ l)) as (_ & _ & _ & ->)
      end.
      rewrite requestsSent_app, Hsent. cbn [seq fold_right]. rewrite Hfn.
      cbn [fst].
      destruct (Z.of_nat attempt <? _); reflexivity.
Qed.

End Loop.





(** X5.  When every attempt fails and is retried, the error returned after
    the last one is AI_REQUEST_FAILED; it carries the message of the last
    failure (or [Unknown error] when that message is empty), the number of
    attempts allowed and the code of the last failure, and its user message
    is chosen by that code: a text of its own for ECONNRESET, ETIMEDOUT and
    ENOTFOUND, the general one otherwise. *)
Theorem callWithRetry_exhausted_reports_last_failure :
  forall (T : Type) (this : GLMService.t) (now : Z) (lag : N)
         (random : nat -> Q) (fn : nat -> list Sent * Settled T)
         (context : string) (e : Err.t),
    GLMService.initialized this = true ->
    1 <= Config.maxRetries (GLMService.config this) ->
    (forall j, Z.of_nat j < Config.maxRetries (GLMService.config this) ->
       exists e', snd (fn j) = Rejected e' /\ GLMService.retried e' = true) ->
    snd (fn (Z.to_nat (Config.maxRetries (GLMService.config this) - 1)))
      = Rejected e ->
    exists error,
      resultOf (GLMService.callWithRetry this now lag random fn context)
      = Core.err error
      /\ Core.code error = "AI_REQUEST_FAILED"%string
      /\ Core.category error = Core.NETWORK
      /\ Core.severity error = Core.CRITICAL
      /\ Core.technicalMessage error
         = match Err.message e with
           | EmptyString => "Unknown error"%string
           | message => message
           end
      /\ Core.context error
         = Some [("attempts"%string,
                  Core.CtxNumber (Config.maxRetries (GLMService.config this)));
                 ("context"%string, Core.CtxString context);
                 ("errorCode"%string, GLMService.ctxCode (Err.code e))]
      /\ (Err.code e = Some "ECONNRESET"%string ->
          Core.userMessage error
          = "API连接被服务器中断，可能是服务器繁忙或请求过大，请稍后重试"%string)
      /\ (Err.code e = Some "ETIMEDOUT"%string ->
          Core.userMessage error
          = "API请求超时，请检查网络连接或稍后重试"%string)
      /\ (Err.code e = Some "ENOTFOUND"%string ->
          Core.userMessage error
          = "无法连接到API服务器，请检查网络设置"%string)
      /\ (Err.code e = None ->
          Core.userMessage error = "AI请求失败，请检查网络连接"%string).
Proof.
  intros T this now lag random fn context e Hinit HM Hall Hlast.
  destruct (callWithRetry_initialized this now lag random fn context Hinit)
    as [-> _].
  destruct (attempts_last this random fn context
              (Z.to_nat (Config.maxRetries (GLMService.config this)))
              0%nat None) as [-> _]; [lia| |].
  { intros j Hj. apply Hall. lia. }
  destruct (Z.to_nat (Config.maxRetries (GLMService.config this)))
    as [|remaining] eqn:HMnat; [lia|].
  replace (0 + S remaining - 1)%nat
    with (Z.to_nat (Config.maxRetries (GLMService.config this) - 1)) by lia.
  rewrite Hlast.
  eexists. split; [reflexivity|].
  unfold GLMService.exhausted. cbn.
  repeat match goal with |- _ /\ _ => split end;
    try reflexivity; intros ->; reflexivity.
Qed.

Lemma callWithRetry_exhausted_reports_last_failure_witness :
  exists error,
    resultOf (GLMService.callWithRetry (Sample.service "id.secret") 0 0
                Sample.half
                (fun _ : nat => (@nil Sent, @Rejected string Sample.ECONNRESET))
                "extractCriteria")
    = Core.err error
    /\ Core.code error = "AI_REQUEST_FAILED"%string.
Proof.
  destruct (callWithRetry_exhausted_reports_last_failure string
    (Sample.service "id.secret") 0 0%N Sample.half
    (fun _ : nat => (@nil Sent, @Rejected string Sample.ECONNRESET))
    "extractCriteria" Sample.ECONNRESET) as (error & Hres & Hcode & _);
    try reflexivity.
  - vm_compute. discriminate.
  - intros j _. exists Sample.ECONNRESET. split; reflexivity.
  - exists error. split; assumption.
Defined.

(** X6.  When the number of attempts allowed is not positive, which a
    negative [maxRetries] gives since only zero is replaced by the default,
    [callWithRetry] takes a slot of the rate limiter, never invokes the
    transport, and returns AI_REQUEST_FAILED with [Unknown error] as its
    technical message. *)
Theorem callWithRetry_without_attempts :
  forall (T : Type) (this : GLMService.t) (now : Z) (lag : N)
         (random : nat -> Q) (fn : nat -> list Sent * Settled T)
         (context : string),
    GLMService.initialized this = true ->
    Config.maxRetries (GLMService.config this) <= 0 ->
    traceOf (GLMService.callWithRetry this now lag random fn context) = []
    /\ (exists error,
          resultOf (GLMService.callWithRetry this now lag random fn context)
          = Core.err error
          /\ Core.code error = "AI_REQUEST_FAILED"%string
          /\ Core.technicalMessage error = "Unknown error"%string)
    /\ GLMService.rateLimiter
         (serviceOf (GLMService.callWithRetry this now lag random fn context))
       = snd (RateLimiter.waitForSlot now lag (GLMService.rateLimiter this))
    /\ (forall (config : GLMConfig.t) (n : Z),
          GLMConfig.maxRetries config = Some n -> n < 0 ->
          Config.maxRetries (GLMService.config (GLMService.new config)) = n).
Proof.
  intros T this now lag random fn context Hinit HM.
  destruct (callWithRetry_initialized this now lag random fn context Hinit)
    as [-> ->].
  replace (Z.to_nat (Config.maxRetries (GLMService.config this)))
    with 0%nat by lia.
  cbn [GLMService.attempts fst snd].
  split; [reflexivity|]. split; [eexists; repeat split|]. split.
  - unfold GLMService.callWithRetry, serviceOf. rewrite Hinit. cbn [negb].
    destruct (RateLimiter.waitForSlot now lag (GLMService.rateLimiter this)).
    reflexivity.
  - intros config n Hn Hneg. cbn. rewrite Hn. cbn.
    destruct (n =? 0) eqn:E; [lia|reflexivity].
Qed.

Lemma callWithRetry_without_attempts_witness :
  traceOf (GLMService.callWithRetry
             (snd (GLMService.initialize
                     (GLMService.new
                        {| GLMConfig.apiKey := "id.secret";
                           GLMConfig.model := None;
                           GLMConfig.temperature := None;
                           GLMConfig.topP := None;
                           GLMConfig.maxTokens := None;
                           GLMConfig.timeout := None;
                           GLMConfig.maxRetries := Some (-1);
                           GLMConfig.maxRequestsPerMinute := None;
                           GLMConfig.proxy := None |})))
             0 0 Sample.half (Sample.failsTwice "reply"%string)
             "extractCriteria")
  = [].
Proof.
  refine (proj1 (callWithRetry_without_attempts string _ 0 0%N Sample.half
    (Sample.failsTwice "reply"%string) "extractCriteria" _ _));
    [reflexivity|vm_compute; discriminate].
Defined.

(** ** Credentials and requests *)

Section Strings.

Local Open Scope string_scope.

Lemma startsWith_nil (s : string) : JS.startsWith s EmptyString = true.
Proof. destruct s; reflexivity. Qed.

Lemma startsWith_app_l (a b n : string) :
  JS.startsWith a n = true -> JS.startsWith (a ++ b) n = true.
Proof.
  revert a. induction n as [|x n IH]; intros a H; [apply startsWith_nil|].
  destruct a as [|y a]; [discriminate H|]. simpl in *.
  apply andb_true_iff in H as [-> H]. apply IH. exact H.
Qed.

Lemma includes_app_l (a b n : string) :
  JS.includes a n = true -> JS.includes (a ++ b) n = true.
Proof.
  induction a as [|y a IH]; intros H.
  - simpl in H. rewrite orb_false_r in H. destruct n; [|discriminate H].
    destruct b; reflexivity.
  - cbn [JS.includes] in H. apply orb_true_iff in H as [H|H].
    + pose proof (startsWith_app_l (String y a) b n H) as H'.
      change (String y a ++ b) with (String y (a ++ b)) in *.
      cbn [JS.includes]. rewrite H'. reflexivity.
    + change (String y a ++ b) with (String y (a ++ b)).
      cbn [JS.includes]. rewrite (IH H). apply orb_true_r.
Qed.

Lemma includes_app_r (a b n : string) :
  JS.includes b n = true -> JS.includes (a ++ b) n = true.
Proof.
  intros H. induction a as [|y a IH]; [exact H|].
  change (String y a ++ b) with (String y (a ++ b)).
  cbn [JS.includes]. rewrite IH. apply orb_true_r.
Qed.

(** A text that starts with a character foreign to the needle completes no
    match begun before it. *)
Lemma startsWith_app_foreign (c : ascii) (t' : string) :
  forall (n d : string),
    n <> EmptyString -> JS.count c n = 0%nat ->
    JS.startsWith (d ++ String c t') n = JS.startsWith d n.
Proof.
  induction n as [|a n IH]; intros d Hn Hc; [contradiction|].
  simpl in Hc. destruct (Ascii.eqb_spec a c) as [->|Hac]; [discriminate|].
  destruct d as [|x d].
  - simpl. destruct (Ascii.eqb_spec a c); [contradiction|reflexivity].
  - simpl. destruct n as [|a' n'].
    + destruct (d ++ String c t'), d; reflexivity.
    + rewrite IH; [reflexivity|discriminate|exact Hc].
Qed.


Lemma split_length (c : ascii) (s : string) :
  length (JS.split c s) = S (JS.count c s).
Proof.
  induction s as [|a s IH]; [reflexivity|]. simpl.
  destruct (Ascii.eqb a c); simpl.
  - rewrite IH. reflexivity.
  - destruct (JS.split c s); simpl in *; lia.
Qed.

Lemma split_one (c : ascii) : forall (t p : string),
  JS.split c t = [p] -> t = p /\ JS.count c t = 0%nat.
Proof.
  induction t as [|z t IH]; intros p H.
  - injection H as <-. split; reflexivity.
  - pose proof (split_length c t) as Hlen. simpl in H |- *.
    destruct (Ascii.eqb z c).
    + destruct (JS.split c t); [discriminate Hlen|discriminate H].
    + destruct (JS.split c t) as [|part [|q l]]; try discriminate H;
        [discriminate Hlen|].
      injection H as <-. destruct (IH part eq_refl) as [-> Hc].
      split; [reflexivity|exact Hc].
Qed.

Lemma split_two (c : ascii) : forall (s a b : string),
  JS.split c s = [a; b] ->
  s = a ++ String c b /\ JS.count c a = 0%nat /\ JS.count c b = 0%nat.
Proof.
  induction s as [|x s IH]; intros a b H; [discriminate H|].
  simpl in H. destruct (Ascii.eqb_spec x c) as [->|Hx].
  - injection H as <- Hs. destruct (split_one c s b Hs) as [-> Hc].
    repeat split. exact Hc.
  - destruct (JS.split c s) as [|part [|q [|r l]]] eqn:Es;
      try discriminate H.
    injection H as <- <-. destruct (IH part q eq_refl) as (-> & Ha & Hb).
    repeat split; [|exact Hb]. simpl.
    destruct (Ascii.eqb_spec x c); [contradiction|exact Ha].
Qed.

End Strings.



Section Credential.

Local Open Scope string_scope.

Lemma includes_count (c : ascii) (s : string) :
  JS.count c s <> 0%nat -> JS.includes s (String c EmptyString) = true.
Proof.
  induction s as [|a s IH]; intros H; [contradiction|].
  cbn [JS.includes JS.startsWith]. simpl in H.
  rewrite (Ascii.eqb_sym c a).
  destruct (Ascii.eqb a c); [destruct s; reflexivity|].
  cbn [andb orb]. apply IH. exact H.
Qed.

Lemma count_includes (c : ascii) (s : string) :
  JS.count c s = 0%nat -> JS.includes s (String c EmptyString) = false.
Proof.
  induction s as [|a s IH]; intros H; [reflexivity|].
  cbn [JS.includes JS.startsWith]. simpl in H.
  rewrite (Ascii.eqb_sym c a).
  destruct (Ascii.eqb a c); [discriminate H|].
  cbn [andb orb]. apply IH. exact H.
Qed.


Lemma byte_not_dot (c : ascii) :
  N_of_ascii c <> 46%N -> Ascii.eqb c "." = false.
Proof.
  intros H. destruct (Ascii.eqb_spec c "."); [subst; contradiction|reflexivity].
Qed.

(** White space holds no full stop. *)
Lemma skipWs_count : forall (n : nat) (s : string),
  (String.length s <= n)%nat ->
  JS.count "." (JS.skipWs s) = JS.count "." s.
Proof.
  induction n as [|n IH]; intros s Hlen.
  { destruct s; [reflexivity|simpl in Hlen; lia]. }
  destruct s as [|c1 r1]; [reflexivity|]. simpl in Hlen.
  cbn [JS.skipWs]. destruct (JS.isAsciiSpace c1) eqn:E1.
  { rewrite IH by lia. simpl. rewrite byte_not_dot; [reflexivity|].
    unfold JS.isAsciiSpace in E1. bytes; lia. }
  destruct r1 as [|c2 r2]; [reflexivity|]. simpl in Hlen.
  destruct (JS.isSpace2 c1 c2) eqn:E2.
  { rewrite IH by lia. simpl.
    unfold JS.isSpace2 in E2.
    rewrite !byte_not_dot; [reflexivity| |]; bytes; lia. }
  destruct r2 as [|c3 r3]; [reflexivity|]. simpl in Hlen.
  destruct (JS.isSpace3 c1 c2 c3) eqn:E3; [|reflexivity].
  rewrite IH by lia. simpl.
  unfold JS.isSpace3 in E3.
  rewrite !byte_not_dot; [reflexivity| | |]; bytes; lia.
Qed.

Lemma keyAccepted_count (key : string) :
  keyAccepted key = true <-> JS.count "." key = 1%nat.
Proof.
  unfold keyAccepted. rewrite !andb_true_iff, negb_true_iff, Nat.eqb_eq,
    split_length.
  split; [intros [_ H]; lia|]. intros H. repeat split; [| |lia].
  - unfold JS.trimIsEmpty.
    pose proof (skipWs_count (String.length key) key (le_n _)) as Hc.
    destruct (JS.skipWs key); [simpl in Hc; lia|reflexivity].
  - apply includes_count. lia.
Qed.

Lemma callAPI_sent (this : GLMService.t) messages now exchange :
  keyAccepted (Config.apiKey (GLMService.config this)) = true ->
  exists id secret,
    Config.apiKey (GLMService.config this) = id ++ "." ++ secret
    /\ GLMService.callAPI this messages now exchange
       = ([{| url := GLMService.baseURL this;
              token := {| api_key := id; exp := (now + 3600000)%Z;
                          timestamp := now; secret := secret |};
              body :=
                {| body_model := Config.model (GLMService.config this);
                   body_messages := messages;
                   body_temperature :=
                     Config.temperature (GLMService.config this);
                   body_top_p := Config.topP (GLMService.config this);
                   body_max_tokens :=
                     Config.maxTokens (GLMService.config this) |} |}],
          exchange).
Proof.
  unfold keyAccepted, GLMService.callAPI. intros H.
  apply andb_true_iff in H as [H Hsplit].
  apply andb_true_iff in H as [Htrim Hdot].
  apply negb_true_iff in Htrim. apply Nat.eqb_eq in Hsplit.
  rewrite Htrim, Hdot.
  destruct (Config.apiKey (GLMService.config this)) as [|c k] eqn:Hk.
  { discriminate Htrim. }
  cbn [orb negb]. unfold generateToken.
  destruct (JS.split "." (String c k)) as [|a [|b [|d l]]] eqn:Es;
    try discriminate Hsplit.
  exists a, b. split; [|reflexivity].
  apply (split_two "." (String c k) a b Es).
Qed.

Lemma callAPI_refused (this : GLMService.t) messages now exchange :
  keyAccepted (Config.apiKey (GLMService.config this)) = false ->
  exists message,
    GLMService.callAPI this messages now exchange
      = ([], Rejected (Err.new message))
    /\ In message credentialMessages.
Proof.
  unfold keyAccepted, GLMService.callAPI. intros H.
  destruct (JS.trimIsEmpty _).
  { rewrite orb_true_r. eexists. split; [reflexivity|]. simpl. auto. }
  rewrite orb_false_r.
  destruct (Config.apiKey (GLMService.config this)) as [|c k] eqn:Hk.
  { eexists. split; [reflexivity|]. simpl. auto. }
  destruct (JS.includes (String c k) ".").
  2:{ eexists. split; [reflexivity|]. simpl. auto. }
  cbn [negb andb] in H. apply Nat.eqb_neq in H.
  cbn [negb]. unfold generateToken.
  destruct (JS.split "." (String c k)) as [|a [|b [|d l]]];
    try (eexists; split; [reflexivity|]; simpl; auto).
  simpl in H. contradiction.
Qed.

End Credential.

(** X7.  [callAPI] writes a request exactly when the key holds one full
    stop.  The request then goes to the endpoint of the service with the
    model, temperature, top_p and max_tokens of its configuration and the
    messages given, under a token whose key and secret are the two halves of
    the configured key and which expires 3,600,000 ms after its timestamp.
    With any other key nothing is written and the promise is rejected with
    one of the three credential messages. *)
Theorem callAPI_writes_request_iff_one_separator :
  forall (this : GLMService.t) (messages : list Message) (now : Z)
         (exchange : Settled string),
    (JS.count "." (Config.apiKey (GLMService.config this)) = 1%nat ->
     exists id secret : string,
       Config.apiKey (GLMService.config this)
         = (id ++ "." ++ secret)%string
       /\ GLMService.callAPI this messages now exchange
          = ([{| url := GLMService.baseURL this;
                 token := {| api_key := id; exp := now + 3600000;
                             timestamp := now; secret := secret |};
                 body :=
                   {| body_model := Config.model (GLMService.config this);
                      body_messages := messages;
                      body_temperature :=
                        Config.temperature (GLMService.config this);
                      body_top_p := Config.topP (GLMService.config this);
                      body_max_tokens :=
                        Config.maxTokens (GLMService.config this) |} |}],
             exchange))
    /\ (JS.count "." (Config.apiKey (GLMService.config this)) <> 1%nat ->
        exists message : string,
          GLMService.callAPI this messages now exchange
            = ([], Rejected (Err.new message))
          /\ In message credentialMessages).
Proof.
  intros this messages now exchange. split; intros H.
  - apply callAPI_sent. apply keyAccepted_count. exact H.
  - apply callAPI_refused.
    destruct (keyAccepted _) eqn:E; [|reflexivity].
    apply keyAccepted_count in E. contradiction.
Qed.

Lemma callAPI_writes_request_iff_one_separator_witness :
  exists id secret : string,
    "id.secret"%string = (id ++ "." ++ secret)%string
    /\ GLMService.callAPI (Sample.service "id.secret") [] 7 (Resolved "{}"%string)
       = ([{| url := GLMService.baseURL (Sample.service "id.secret");
              token := {| api_key := id; exp := 7 + 3600000;
                          timestamp := 7; secret := secret |};
              body :=
                {| body_model := "glm-4"; body_messages := [];
                   body_temperature := 3 # 10; body_top_p := 7 # 10;
                   body_max_tokens := 10000 |} |}],
          Resolved "{}"%string).
Proof.
  apply (proj1 (callAPI_writes_request_iff_one_separator
                  (Sample.service "id.secret") [] 7 (Resolved "{}"%string))).
  reflexivity.
Defined.

Section Request.

Variable this : GLMService.t.
Variable env : Env.
Variable messages : list Message.
Variable context : string.


Lemma request_initialized :
  GLMService.initialized this = true ->
  GLMService.request this env messages context
  = (GLMService.attempts this (random env) (transport this env messages) context
       (Z.to_nat (Config.maxRetries (GLMService.config this))) 0 None,
     GLMService.setRateLimiter
       (snd (RateLimiter.waitForSlot (now env) (lag env)
               (GLMService.rateLimiter this))) this).
Proof.
  intros Hinit. unfold GLMService.request, GLMService.callWithRetry.
  rewrite Hinit. cbn [negb].
  destruct (RateLimiter.waitForSlot _ _ _). reflexivity.
Qed.

Lemma callAPI_at_most_one :
  forall j, (length (fst ((transport this env messages) j)) <= 1)%nat.
Proof.
  intros j. unfold transport.
  destruct (keyAccepted (Config.apiKey (GLMService.config this))) eqn:Hkey.
  - destruct (callAPI_sent this messages (attemptClock env j)
                (exchange env j) Hkey) as (id & secret & _ & ->).
    simpl. lia.
  - destruct (callAPI_refused this messages (attemptClock env j)
                (exchange env j) Hkey) as (message & -> & _).
    simpl. lia.
Qed.

Hypothesis Hinit : GLMService.initialized this = true.
Hypothesis Hkey : keyAccepted (Config.apiKey (GLMService.config this)) = true.

Lemma transport_accepted (j : nat) :
  snd ((transport this env messages) j) = exchange env j /\ length (fst ((transport this env messages) j)) = 1%nat.
Proof.
  unfold transport.
  destruct (callAPI_sent this messages (attemptClock env j) (exchange env j)
              Hkey) as (id & secret & _ & ->).
  split; reflexivity.
Qed.

(** A first exchange that fails and is not retried ends the operation. *)
Lemma request_fatal (e : Err.t) :
  1 <= Config.maxRetries (GLMService.config this) ->
  exchange env 0%nat = Rejected e ->
  GLMService.retried e = false ->
  (exists error,
      resultOf (GLMService.request this env messages context) = Core.err error
      /\ reports e 0 context error)
  /\ invocations (traceOf (GLMService.request this env messages context))
     = 1%nat
  /\ requestsSent (traceOf (GLMService.request this env messages context))
     = 1%nat
  /\ backoffs (traceOf (GLMService.request this env messages context)) = [].
Proof.
  intros HM He Hfatal. rewrite request_initialized by exact Hinit.
  unfold resultOf, traceOf. cbn [fst snd].
  destruct (Z.to_nat (Config.maxRetries (GLMService.config this)))
    as [|remaining] eqn:HMnat; [lia|].
  destruct (callAPI_sent this messages (attemptClock env 0) (exchange env 0)
              Hkey) as (id & secret & _ & Hcall).
  match type of Hcall with
  | _ = (?l, _) =>
      assert (Hc : (transport this env messages) 0%nat = (l, Rejected e))
        by (unfold transport; rewrite Hcall, He; reflexivity)
  end.
  destruct (attempts_fatal this (random env) (transport this env messages) context remaining
              0%nat None _ e Hc Hfatal) as (-> & error & -> & Hrep).
  split; [exists error; split; [reflexivity|exact Hrep]|].
  repeat split.
Qed.

(** When every exchange fails and is retried, a request is written at each
    attempt and the error of the last one is reported. *)
Lemma request_exhausted (errors : nat -> Err.t) :
  1 <= Config.maxRetries (GLMService.config this) ->
  (forall j, exchange env j = Rejected (errors j)) ->
  (forall j, GLMService.retried (errors j) = true) ->
  resultOf (GLMService.request this env messages context)
  = Core.err
      (GLMService.exhausted this context
         (Some (errors
                  (Z.to_nat (Config.maxRetries (GLMService.config this) - 1)))))
  /\ Z.of_nat (requestsSent
                 (traceOf (GLMService.request this env messages context)))
     = Config.maxRetries (GLMService.config this).
Proof.
  intros HM Hex Hretried. rewrite request_initialized by exact Hinit.
  unfold resultOf, traceOf. cbn [fst snd].
  destruct (attempts_last this (random env) (transport this env messages) context
              (Z.to_nat (Config.maxRetries (GLMService.config this)))
              0%nat None) as [-> ->]; [lia| |].
  { intros j _. exists (errors j).
    rewrite (proj1 (transport_accepted j)), Hex. split; [reflexivity|].
    apply Hretried. }
  split.
  - destruct (Z.to_nat (Config.maxRetries (GLMService.config this)))
      as [|remaining] eqn:HMnat; [lia|].
    replace (0 + S remaining - 1)%nat
      with (Z.to_nat (Config.maxRetries (GLMService.config this) - 1)) by lia.
    rewrite (proj1 (transport_accepted _)), Hex. reflexivity.
  - assert (Hsum : forall n a,
      fold_right (fun j m => (length (fst ((transport this env messages) j)) + m)%nat) 0%nat
        (seq a n) = n).
    { induction n as [|n IH]; intros a; [reflexivity|].
      cbn [seq fold_right]. rewrite IH, (proj2 (transport_accepted a)).
      reflexivity. }
    rewrite Hsum. lia.
Qed.

End Request.

(** X8.  Whatever the environment does, one operation invokes the transport
    at most [maxRetries] times, writes at most one request per invocation,
    and sets a backoff timer only between two invocations, each with the
    delay of the attempt it follows. *)
Theorem request_effort_bounded :
  forall (this : GLMService.t) (env : Env) (messages : list Message)
         (context : string),
    Z.of_nat (invocations
                (traceOf (GLMService.request this env messages context)))
      <= Z.max 0 (Config.maxRetries (GLMService.config this))
    /\ (requestsSent (traceOf (GLMService.request this env messages context))
        <= invocations
             (traceOf (GLMService.request this env messages context)))%nat
    /\ (length (backoffs
                  (traceOf (GLMService.request this env messages context)))
        <= invocations
             (traceOf (GLMService.request this env messages context)) - 1)%nat
    /\ Forall (fun d => exists j,
                 Z.of_nat j < Config.maxRetries (GLMService.config this) - 1
                 /\ d = GLMService.backoffDelay j (random env j))
         (backoffs (traceOf (GLMService.request this env messages context))).
Proof.
  intros this env messages context.
  destruct (GLMService.initialized this) eqn:Hinit.
  - rewrite (request_initialized this env messages context Hinit).
    unfold traceOf. cbn [fst snd].
    destruct (attempts_bounded this (random env) (transport this env messages)
                context
                (Z.to_nat (Config.maxRetries (GLMService.config this)))
                0%nat None eq_refl) as (Hinv & Hback & Hall & Hsent).
    split; [lia|]. split; [|split; [exact Hback|]].
    + apply Hsent. apply callAPI_at_most_one.
    + eapply Forall_impl; [|exact Hall].
      intros d (j & _ & Hj & ->). exists j. split; [exact Hj|reflexivity].
  - unfold GLMService.request, GLMService.callWithRetry. rewrite Hinit.
    cbn. repeat split; try lia. constructor.
Qed.

(** X9.  The rate limiter sees an operation, not its requests: when every
    exchange fails with an error that is retried, the operation writes
    [maxRetries] requests, and yet the limiter has recorded one timestamp
    for it. *)
Theorem retries_bypass_rate_limiter :
  forall (this : GLMService.t) (env : Env) (messages : list Message)
         (context : string) (errors : nat -> Err.t),
    GLMService.initialized this = true ->
    keyAccepted (Config.apiKey (GLMService.config this)) = true ->
    1 <= Config.maxRetries (GLMService.config this) ->
    (forall j, exchange env j = Rejected (errors j)) ->
    (forall j, GLMService.retried (errors j) = true) ->
    Z.of_nat (requestsSent
                (traceOf (GLMService.request this env messages context)))
      = Config.maxRetries (GLMService.config this)
    /\ RateLimiter.requests
         (GLMService.rateLimiter
            (serviceOf (GLMService.request this env messages context)))
       = RateLimiter.inWindow (GLMService.rateLimiter this) (now env)
           ++ [now env
               + RateLimiter.slept (GLMService.rateLimiter this) (now env)
               + Z.of_N (lag env)].
Proof.
  intros this env messages context errors Hinit Hkey HM Hex Hretried.
  split.
  - apply (request_exhausted this env messages context Hinit Hkey errors HM
             Hex Hretried).
  - rewrite (request_initialized this env messages context Hinit).
    reflexivity.
Qed.

Lemma retries_bypass_rate_limiter_witness :
  Z.of_nat (requestsSent
              (traceOf (GLMService.request (Sample.service "id.secret")
                          (Scenario.failing Sample.ECONNRESET) []
                          "extractCriteria")))
  = 3.
Proof.
  refine (proj1 (retries_bypass_rate_limiter (Sample.service "id.secret")
    (Scenario.failing Sample.ECONNRESET) [] "extractCriteria"
    (fun _ => Sample.ECONNRESET) _ _ _ _ _)); try reflexivity.
  vm_compute. discriminate.
Defined.

Section Disabled.

Variable this : GLMService.t.
Hypothesis off : GLMService.initialized this = false.

Lemma request_refused env messages context :
  exists error,
    GLMService.request this env messages context = (Core.err error, [], this)
    /\ Core.code error = "AI_NOT_INITIALIZED"%string
    /\ Core.category error = Core.DOMAIN.
Proof.
  unfold GLMService.request, GLMService.callWithRetry. rewrite off.
  eexists. repeat split.
Qed.

End Disabled.

(** X10.  [updateApiKey] with the empty key switches the service off: it
    returns the error AI_NO_API_KEY, leaves the service not initialized
    even if it was initialized before, and each of the six operations then
    returns AI_NOT_INITIALIZED without invoking the transport and without
    taking a slot of the rate limiter. *)
Theorem updateApiKey_empty_disables_service :
  forall (this : GLMService.t) (env : Env) (content summary : string),
    (exists error,
        fst (GLMService.updateApiKey EmptyString this) = Core.err error
        /\ Core.code error = "AI_NO_API_KEY"%string
        /\ Core.category error = Core.DOMAIN
        /\ Core.severity error = Core.CRITICAL)
    /\ GLMService.initialized
         (snd (GLMService.updateApiKey EmptyString this)) = false
    /\ GLMService.rateLimiter (snd (GLMService.updateApiKey EmptyString this))
       = GLMService.rateLimiter this
    /\ refused (snd (GLMService.updateApiKey EmptyString this))
         (GLMService.extractCriteria
            (snd (GLMService.updateApiKey EmptyString this)) env content)
    /\ refused (snd (GLMService.updateApiKey EmptyString this))
         (GLMService.extractVisitSchedule
            (snd (GLMService.updateApiKey EmptyString this)) env content)
    /\ refused (snd (GLMService.updateApiKey EmptyString this))
         (GLMService.recognizeMedications
            (snd (GLMService.updateApiKey EmptyString this)) env content)
    /\ refused (snd (GLMService.updateApiKey EmptyString this))
         (GLMService.extractSubjectNumber
            (snd (GLMService.updateApiKey EmptyString this)) env content)
    /\ refused (snd (GLMService.updateApiKey EmptyString this))
         (GLMService.extractSubjectVisitDates
            (snd (GLMService.updateApiKey EmptyString this)) env content
            summary)
    /\ refused (snd (GLMService.updateApiKey EmptyString this))
         (GLMService.extractSubjectVisitItems
            (snd (GLMService.updateApiKey EmptyString this)) env content
            summary).
Proof.
  intros this env content summary.
  set (this' := snd (GLMService.updateApiKey EmptyString this)).
  assert (Hoff : GLMService.initialized this' = false) by reflexivity.
  split; [eexists; repeat split|]. split; [reflexivity|].
  split; [reflexivity|].
  repeat split;
    match goal with
    | |- exists _, resultOf (?op _ _ _) = _ /\ _ => unfold op
    | |- exists _, resultOf (?op _ _ _ _) = _ /\ _ => unfold op
    | |- context [traceOf (?op _ _ _)] => unfold op
    | |- context [traceOf (?op _ _ _ _)] => unfold op
    | |- context [serviceOf (?op _ _ _)] => unfold op
    | |- context [serviceOf (?op _ _ _ _)] => unfold op
    end;
    match goal with
    | |- context [GLMService.request this' env ?messages ?context] =>
        destruct (request_refused this' Hoff env messages context)
          as (error & -> & Hcode & Hcat)
    end;
    cbn [resultOf traceOf serviceOf fst snd]; try reflexivity.
  all: exists error; repeat split; assumption.
Qed.

Section Defaults.

Lemma orZ_nonzero (x : option Z) (fallback : Z) :
  fallback <> 0 -> Config.orZ x fallback <> 0.
Proof.
  intros H. unfold Config.orZ. destruct x as [n|]; [|exact H].
  destruct (n =? 0) eqn:E; [exact H|]. apply Z.eqb_neq. exact E.
Qed.

Lemma orQ_nonzero (x : option Q) (fallback : Q) :
  ~ (fallback == 0)%Q -> ~ (Config.orQ x fallback == 0)%Q.
Proof.
  intros H. unfold Config.orQ. destruct x as [q|]; [|exact H].
  destruct (Qeq_bool q 0) eqn:E; [exact H|].
  apply Qeq_bool_neq. exact E.
Qed.

End Defaults.

(** X11.  The constructor replaces an option that is missing, zero or the
    empty text by its default, so that a zero cannot be configured: a
    temperature of 0 asked for becomes 0.3, and no service has a zero
    temperature, top_p, max_tokens, timeout, number of attempts or ceiling
    of requests per minute, nor an empty model.  Every request the service
    writes carries the temperature, top_p, max_tokens and model so
    resolved. *)
Theorem constructor_replaces_zero_by_default :
  forall (config : GLMConfig.t),
    (forall q : Q, GLMConfig.temperature config = Some q -> (q == 0)%Q ->
       Config.temperature (GLMService.config (GLMService.new config))
       = 3 # 10)
    /\ ~ (Config.temperature (GLMService.config (GLMService.new config))
          == 0)%Q
    /\ ~ (Config.topP (GLMService.config (GLMService.new config)) == 0)%Q
    /\ Config.maxTokens (GLMService.config (GLMService.new config)) <> 0
    /\ Config.timeout (GLMService.config (GLMService.new config)) <> 0
    /\ Config.maxRetries (GLMService.config (GLMService.new config)) <> 0
    /\ Config.maxRequestsPerMinute
         (GLMService.config (GLMService.new config)) <> 0
    /\ Config.model (GLMService.config (GLMService.new config))
       <> EmptyString
    /\ forall (messages : list Message) (now : Z) (exchange : Settled string)
              (sent : Sent),
         In sent (fst (GLMService.callAPI
                         (snd (GLMService.initialize (GLMService.new config)))
                         messages now exchange)) ->
         ~ (body_temperature (body sent) == 0)%Q
         /\ ~ (body_top_p (body sent) == 0)%Q
         /\ body_max_tokens (body sent) <> 0
         /\ body_model (body sent) <> EmptyString.
Proof.
  intros config.
  assert (Ht : ~ (Config.temperature (GLMService.config (GLMService.new config))
                  == 0)%Q) by (apply orQ_nonzero; discriminate).
  assert (Hp : ~ (Config.topP (GLMService.config (GLMService.new config))
                  == 0)%Q) by (apply orQ_nonzero; discriminate).
  assert (Hk : Config.maxTokens (GLMService.config (GLMService.new config))
               <> 0) by (apply orZ_nonzero; discriminate).
  assert (Hm : Config.model (GLMService.config (GLMService.new config))
               <> EmptyString).
  { cbn. unfold Config.orString.
    destruct (GLMConfig.model config) as [[|c s]|]; discriminate. }
  repeat match goal with |- _ /\ _ => split end;
    try assumption; try (apply orZ_nonzero; discriminate).
  - intros q Hq Hzero. cbn. rewrite Hq. cbn.
    apply Qeq_bool_iff in Hzero. rewrite Hzero. reflexivity.
  - intros messages now exchange sent Hin.
    set (this := snd (GLMService.initialize (GLMService.new config))) in *.
    assert (Hcfg : GLMService.config this
                   = GLMService.config (GLMService.new config)).
    { unfold this, GLMService.initialize.
      destruct (Config.apiKey _); reflexivity. }
    destruct (keyAccepted (Config.apiKey (GLMService.config this))) eqn:Hkey.
    + destruct (callAPI_sent this messages now exchange Hkey)
        as (id & secret & _ & Hcall).
      rewrite Hcall in Hin. destruct Hin as [<-|[]].
      cbn [body body_temperature body_top_p body_max_tokens body_model].
      rewrite Hcfg. repeat split; assumption.
    + destruct (callAPI_refused this messages now exchange Hkey)
        as (message & Hcall & _).
      rewrite Hcall in Hin. destruct Hin.
Qed.

Lemma constructor_replaces_zero_by_default_witness :
  Config.temperature
    (GLMService.config
       (GLMService.new
          {| GLMConfig.apiKey := "id.secret";
             GLMConfig.model := None;
             GLMConfig.temperature := Some 0%Q;
             GLMConfig.topP := None;
             GLMConfig.maxTokens := None;
             GLMConfig.timeout := None;
             GLMConfig.maxRetries := None;
             GLMConfig.maxRequestsPerMinute := None;
             GLMConfig.proxy := None |}))
  = 3 # 10.
Proof.
  apply (proj1 (constructor_replaces_zero_by_default
                  {| GLMConfig.apiKey := "id.secret";
                     GLMConfig.model := None;
                     GLMConfig.temperature := Some 0%Q;
                     GLMConfig.topP := None;
                     GLMConfig.maxTokens := None;
                     GLMConfig.timeout := None;
                     GLMConfig.maxRetries := None;
                     GLMConfig.maxRequestsPerMinute := None;
                     GLMConfig.proxy := None |}) 0%Q);
    reflexivity.
Defined.

(** ** Responses and their classification *)

Section Classification.

Local Open Scope string_scope.

Lemma retried_false_auth (e : Err.t) :
  JS.includes (Err.message e) "401" || JS.includes (Err.message e) "403"
    = true ->
  GLMService.retried e = false.
Proof.
  intros H. unfold GLMService.retried.
  apply orb_true_iff in H as [-> | ->]; [reflexivity|].
  rewrite andb_false_r. reflexivity.
Qed.

Lemma statusError_message (statusCode : Z) (data : string) :
  Err.message (GLMService.statusError statusCode data)
  = ("API returned status " ++ JS.decimal statusCode) ++ ": " ++ data.
Proof.
  unfold GLMService.statusError. cbn [Err.message Err.new].
  rewrite <- append_assoc. reflexivity.
Qed.

Lemma statusError_mentions (statusCode : Z) (data needle : string) :
  JS.includes data needle = true ->
  JS.includes (Err.message (GLMService.statusError statusCode data)) needle
  = true.
Proof.
  intros H. rewrite statusError_message.
  apply includes_app_r. apply includes_app_r. exact H.
Qed.

End Classification.

(** X12.  The error of a response is classified by the digits of its text,
    body included: a response of any status other than 200 whose body
    holds 401 or 403 is reported as AI_AUTH_FAILED, the error of an invalid
    key, after a single request, even when the status is one of a server
    failure. *)
Theorem error_body_digits_read_as_auth_failure :
  forall (this : GLMService.t) (env : Env) (messages : list Message)
         (context : string) (statusCode : Z) (data : string),
    GLMService.initialized this = true ->
    keyAccepted (Config.apiKey (GLMService.config this)) = true ->
    1 <= Config.maxRetries (GLMService.config this) ->
    statusCode <> 200 ->
    JS.includes data "401" = true \/ JS.includes data "403" = true ->
    Wire.promised (Wire.settle this (Wire.Ended statusCode data))
      = Some (exchange env 0%nat) ->
    (exists error,
        resultOf (GLMService.request this env messages context)
        = Core.err error
        /\ Core.code error = "AI_AUTH_FAILED"%string
        /\ Core.userMessage error
           = "API密钥无效或权限不足，请检查设置"%string)
    /\ requestsSent (traceOf (GLMService.request this env messages context))
       = 1%nat
    /\ backoffs (traceOf (GLMService.request this env messages context)) = [].
Proof.
  intros this env messages context statusCode data Hinit Hkey HM Hstatus
    Hbody Hwire.
  assert (Hex : exchange env 0%nat
                = Rejected (GLMService.statusError statusCode data)).
  { cbn [Wire.settle] in Hwire. unfold Wire.onEnd in Hwire.
    destruct (statusCode =? 200) eqn:E; [lia|]. cbn in Hwire.
    injection Hwire as <-. reflexivity. }
  assert (Hauth :
    (JS.includes (Err.message (GLMService.statusError statusCode data)) "401"
     || JS.includes (Err.message (GLMService.statusError statusCode data))
          "403") = true).
  { apply orb_true_iff.
    destruct Hbody as [H|H]; [left|right]; apply statusError_mentions;
      exact H. }
  destruct (request_fatal this env messages context Hinit Hkey _ HM Hex
              (retried_false_auth _ Hauth))
    as ((error & Hres & Hrep) & _ & Hsent & Hback).
  split; [|split; assumption].
  exists error. split; [exact Hres|].
  destruct Hrep as (_ & _ & Hcase & _).
  destruct (Hcase Hauth) as (Hcode & _ & Huser). split; assumption.
Qed.

Lemma error_body_digits_read_as_auth_failure_witness :
  exists error,
    resultOf (GLMService.request (Sample.service "id.secret")
                (Scenario.failing
                   (GLMService.statusError 500 "request 7401 failed"))
                [] "extractCriteria")
    = Core.err error
    /\ Core.code error = "AI_AUTH_FAILED"%string
    /\ Core.userMessage error = "API密钥无效或权限不足，请检查设置"%string.
Proof.
  refine (proj1 (error_body_digits_read_as_auth_failure
    (Sample.service "id.secret")
    (Scenario.failing (GLMService.statusError 500 "request 7401 failed"))
    [] "extractCriteria" 500 "request 7401 failed" _ _ _ _ _ _));
    try reflexivity.
  - vm_compute. discriminate.
  - discriminate.
  - left. reflexivity.
Defined.

Section Patterns.

Local Open Scope string_scope.

Lemma startsWithCI_app_l (a b n : string) :
  GLMService.startsWithCI a n = true ->
  GLMService.startsWithCI (a ++ b) n = true.
Proof.
  revert a. induction n as [|x n IH]; intros a H.
  { destruct (a ++ b); reflexivity. }
  destruct a as [|y a]; [discriminate H|]. simpl in *.
  apply andb_true_iff in H as [-> H]. apply IH. exact H.
Qed.

Lemma testCI_app_l (a b n : string) :
  GLMService.testCI a n = true -> GLMService.testCI (a ++ b) n = true.
Proof.
  induction a as [|y a IH]; intros H.
  - simpl in H. rewrite orb_false_r in H. destruct n; [|discriminate H].
    destruct b; reflexivity.
  - cbn [GLMService.testCI] in H. apply orb_true_iff in H as [H|H].
    + pose proof (startsWithCI_app_l (String y a) b n H) as H'.
      change (String y a ++ b) with (String y (a ++ b)) in *.
      cbn [GLMService.testCI]. rewrite H'. reflexivity.
    + change (String y a ++ b) with (String y (a ++ b)).
      cbn [GLMService.testCI]. rewrite (IH H). apply orb_true_r.
Qed.

Lemma server_error_retried (k : nat) (data : string) :
  (k < 100)%nat ->
  JS.includes data "401" = false ->
  JS.includes data "403" = false ->
  JS.includes data "400" = false ->
  GLMService.retried (GLMService.statusError (500 + Z.of_nat k) data) = true.
Proof.
  intros Hk H1 H3 H0.
  unfold GLMService.retried, GLMService.isRetryableError,
    GLMService.statusError.
  cbn [Err.message Err.new Err.code].
  do 100 (destruct k as [|k];
    [ match goal with
      | |- context [JS.decimal ?z] =>
          let d := eval vm_compute in (JS.decimal z) in
          change (JS.decimal z) with d
      end;
      cbn [append JS.includes JS.startsWith GLMService.test5xx Ascii.eqb
           Bool.eqb andb orb negb GLMService.isDigit N_of_ascii N.leb
           N.compare Pos.compare Pos.compare_cont N_of_digits N.add N.mul
           Pos.add Pos.mul Pos.succ];
      rewrite H1, H3, H0; cbn [negb andb]; apply orb_true_r
    | ]).
  lia.
Qed.


Lemma network_digits (m n : string) :
  n = "400" \/ n = "401" \/ n = "403" ->
  JS.includes ("Network error: " ++ m) n = JS.includes m n.
Proof.
  intros [-> | [-> | ->]];
    cbn [append JS.includes JS.startsWith Ascii.eqb Bool.eqb andb orb];
    reflexivity.
Qed.


Lemma onError_retried (e : Err.t) :
  JS.includes (Err.message e) "401" = false ->
  JS.includes (Err.message e) "403" = false ->
  JS.includes (Err.message e) "400" = false ->
  GLMService.retried (Wire.onError e) = true.
Proof.
  intros H1 H3 H0. unfold GLMService.retried, Wire.onError.
  cbn [Err.message Err.new]. rewrite !network_digits by auto.
  rewrite H1, H3, H0. cbn [negb andb].
  unfold GLMService.isRetryableError. cbn [Err.message Err.new Err.code].
  assert (GLMService.testCI ("Network error: " ++ Err.message e) "network"
          = true) as -> by (apply testCI_app_l; reflexivity).
  rewrite !orb_true_r. reflexivity.
Qed.

End Patterns.

Lemma attempts_invoked {T : Type} (this : GLMService.t) random
    (fn : nat -> list Sent * Settled T) context remaining attempt lastError :
  (1 <= invocations
          (snd (GLMService.attempts this random fn context (S remaining)
                  attempt lastError)))%nat.
Proof.
  cbn [GLMService.attempts]. destruct (fn attempt) as [sent outcome].
  destruct outcome as [r|e]; [cbn; lia|].
  repeat match goal with
         | |- context [if ?b then _ else _] => destruct b
         | |- context [let '(_, _) := ?p in _] => destruct p
         end; cbn; lia.
Qed.

(** X13.  A response whose status is a server failure, from 500 to 599, and
    whose body holds none of 400, 401 and 403 is retried: when at least two
    attempts are allowed, the operation sets the first backoff timer and
    invokes the transport again. *)
Theorem server_failure_is_retried :
  forall (this : GLMService.t) (env : Env) (messages : list Message)
         (context : string) (statusCode : Z) (data : string),
    GLMService.initialized this = true ->
    keyAccepted (Config.apiKey (GLMService.config this)) = true ->
    2 <= Config.maxRetries (GLMService.config this) ->
    500 <= statusCode <= 599 ->
    JS.includes data "400" = false ->
    JS.includes data "401" = false ->
    JS.includes data "403" = false ->
    Wire.promised (Wire.settle this (Wire.Ended statusCode data))
      = Some (exchange env 0%nat) ->
    GLMService.retried (GLMService.statusError statusCode data) = true
    /\ (2 <= invocations
               (traceOf (GLMService.request this env messages context)))%nat
    /\ hd_error
         (backoffs (traceOf (GLMService.request this env messages context)))
       = Some (GLMService.backoffDelay 0 (random env 0%nat)).
Proof.
  intros this env messages context statusCode data Hinit Hkey HM Hstatus
    H0 H1 H3 Hwire.
  assert (Hex : exchange env 0%nat
                = Rejected (GLMService.statusError statusCode data)).
  { cbn [Wire.settle] in Hwire. unfold Wire.onEnd in Hwire.
    destruct (statusCode =? 200) eqn:E; [lia|]. cbn in Hwire.
    injection Hwire as <-. reflexivity. }
  assert (Hretried :
    GLMService.retried (GLMService.statusError statusCode data) = true).
  { replace statusCode with (500 + Z.of_nat (Z.to_nat (statusCode - 500)))
      by lia.
    apply server_error_retried; [lia|assumption..]. }
  split; [exact Hretried|].
  rewrite (request_initialized this env messages context Hinit).
  unfold traceOf. cbn [fst snd].
  destruct (Z.to_nat (Config.maxRetries (GLMService.config this)))
    as [|[|remaining]] eqn:HMnat; try lia.
  destruct (callAPI_sent this messages (attemptClock env 0) (exchange env 0)
              Hkey) as (id & secret & _ & Hcall).
  match type of Hcall with
  | _ = (?l, _) =>
      assert (Hc : transport this env messages 0%nat
                   = (l, Rejected (GLMService.statusError statusCode data)))
        by (unfold transport; rewrite Hcall, Hex; reflexivity)
  end.
  rewrite (attempts_step this (random env) (transport this env messages)
             context _ 0%nat None _ _ Hc Hretried).
  cbn [snd].
  assert ((Z.of_nat 0 <? Config.maxRetries (GLMService.config this) - 1)
          = true) as -> by (apply Z.ltb_lt; lia).
  pose proof (attempts_invoked this (random env)
                (transport this env messages) context remaining 1%nat
                (Some (GLMService.statusError statusCode data))) as Hnext.
  set (later := snd (GLMService.attempts this (random env)
                       (transport this env messages) context (S remaining)
                       1%nat _)) in *.
  match goal with
  | |- context [(Invoke 0 :: map Request ?s) ++ ?rest] =>
      destruct (trace_head 0 s rest) as (-> & _ & -> & _)
  end.
  rewrite invocations_app. cbn [app backoffs hd_error].
  split; [lia|reflexivity].
Qed.

Lemma server_failure_is_retried_witness :
  (2 <= invocations
          (traceOf (GLMService.request (Sample.service "id.secret")
                      (Scenario.failing
                         (GLMService.statusError 503 "busy"))
                      [] "extractCriteria")))%nat.
Proof.
  refine (proj1 (proj2 (server_failure_is_retried
    (Sample.service "id.secret")
    (Scenario.failing (GLMService.statusError 503 "busy"))
    [] "extractCriteria" 503 "busy" _ _ _ _ _ _ _ _)));
    try reflexivity.
  - vm_compute. discriminate.
  - lia.
Defined.



(** X15.  The error of a request that fails on the network reaches
    [callWithRetry] as a new error, [Network error:] followed by the
    message, which has no code.  Such a failure is retried unless its
    message holds 400, 401 or 403; and when every attempt fails so, the
    error returned has the general user message and no error code in its
    context, whatever code the failures had, ECONNRESET, ETIMEDOUT and
    ENOTFOUND included. *)
Theorem network_failures_lose_their_code :
  forall (this : GLMService.t) (env : Env) (messages : list Message)
         (context : string) (errors : nat -> Err.t),
    GLMService.initialized this = true ->
    keyAccepted (Config.apiKey (GLMService.config this)) = true ->
    1 <= Config.maxRetries (GLMService.config this) ->
    (forall j, Wire.promised (Wire.settle this (Wire.Failed (errors j)))
               = Some (exchange env j)) ->
    (forall j, JS.includes (Err.message (errors j)) "400" = false
               /\ JS.includes (Err.message (errors j)) "401" = false
               /\ JS.includes (Err.message (errors j)) "403" = false) ->
    (exists error,
        resultOf (GLMService.request this env messages context)
        = Core.err error
        /\ Core.code error = "AI_REQUEST_FAILED"%string
        /\ Core.userMessage error = "AI请求失败，请检查网络连接"%string
        /\ Core.technicalMessage error
           = ("Network error: "
              ++ Err.message
                   (errors (Z.to_nat
                      (Config.maxRetries (GLMService.config this) - 1))))%string
        /\ Core.context error
           = Some [("attempts"%string,
                    Core.CtxNumber
                      (Config.maxRetries (GLMService.config this)));
                   ("context"%string, Core.CtxString context);
                   ("errorCode"%string, Core.CtxUndefined)])
    /\ Z.of_nat (requestsSent
                   (traceOf (GLMService.request this env messages context)))
       = Config.maxRetries (GLMService.config this).
Proof.
  intros this env messages context errors Hinit Hkey HM Hwire Hclean.
  destruct (request_exhausted this env messages context Hinit Hkey
              (fun j => Wire.onError (errors j)) HM) as [Hres Hsent].
  { intros j. specialize (Hwire j). cbn in Hwire. injection Hwire as <-.
    reflexivity. }
  { intros j. destruct (Hclean j) as (H0 & H1 & H3).
    apply onError_retried; assumption. }
  split; [|exact Hsent].
  eexists. split; [exact Hres|]. repeat split.
Qed.

Lemma network_failures_lose_their_code_witness :
  exists error,
    resultOf (GLMService.request (Sample.service "id.secret")
                (Scenario.failing (Wire.onError Sample.ECONNRESET))
                [] "extractCriteria")
    = Core.err error
    /\ Core.code error = "AI_REQUEST_FAILED"%string
    /\ Core.userMessage error = "AI请求失败，请检查网络连接"%string.
Proof.
  destruct (network_failures_lose_their_code (Sample.service "id.secret")
    (Scenario.failing (Wire.onError Sample.ECONNRESET)) [] "extractCriteria"
    (fun _ => Sample.ECONNRESET)) as ((error & Hres & Hcode & Huser & _) & _);
    try reflexivity.
  - vm_compute. discriminate.
  - intros j. repeat split.
  - exists error. repeat split; assumption.
Defined.

(** X16.  A response of status 200 whose body is valid JSON but gives no
    content (no first choice, no message, no content member, or a content
    that is empty or otherwise falsy) is rejected with [Empty response
    content from API], which is not retried: the operation returns
    AI_REQUEST_FAILED after that single request. *)
Theorem empty_content_is_not_retried :
  forall (this : GLMService.t) (env : Env) (messages : list Message)
         (context data : string) (response : JSON.value)
         (content : option JSON.value),
    GLMService.initialized this = true ->
    keyAccepted (Config.apiKey (GLMService.config this)) = true ->
    1 <= Config.maxRetries (GLMService.config this) ->
    JSON.parse data = Some response ->
    Wire.content response = Resolved content ->
    match content with
    | Some text => JSON.truthy text
    | None => false
    end = false ->
    Wire.promised (Wire.settle this (Wire.Ended 200 data))
      = Some (exchange env 0%nat) ->
    (exists error,
        resultOf (GLMService.request this env messages context)
        = Core.err error
        /\ Core.code error = "AI_REQUEST_FAILED"%string
        /\ Core.technicalMessage error
           = "Empty response content from API"%string
        /\ Core.context error
           = Some [("attempts"%string, Core.CtxNumber 1);
                   ("context"%string, Core.CtxString context)])
    /\ requestsSent (traceOf (GLMService.request this env messages context))
       = 1%nat
    /\ backoffs (traceOf (GLMService.request this env messages context)) = [].
Proof.
  intros this env messages context data response content Hinit Hkey HM
    Hparse Hcontent Hfalsy Hwire.
  assert (Hex : exchange env 0%nat
                = Rejected (Err.new "Empty response content from API")).
  { cbn [Wire.settle] in Hwire. unfold Wire.onEnd in Hwire.
    rewrite Hparse, Hcontent in Hwire. cbn in Hwire.
    destruct content as [text|]; [rewrite Hfalsy in Hwire|];
      cbn in Hwire; injection Hwire as <-; reflexivity. }
  destruct (request_fatal this env messages context Hinit Hkey _ HM Hex
              eq_refl) as ((error & Hres & Hrep) & _ & Hsent & Hback).
  split; [|split; assumption].
  exists error. split; [exact Hres|].
  destruct Hrep as (Htech & _ & _ & _ & Hcase).
  destruct (Hcase eq_refl eq_refl) as (Hcode & _ & _ & Hctx).
  repeat split; assumption.
Qed.

Lemma empty_content_is_not_retried_witness :
  exists error,
    resultOf (GLMService.request (Sample.service "id.secret")
                (Scenario.failing
                   (Err.new "Empty response content from API"))
                [] "extractCriteria")
    = Core.err error
    /\ Core.code error = "AI_REQUEST_FAILED"%string
    /\ Core.technicalMessage error
       = "Empty response content from API"%string
    /\ Core.context error
       = Some [("attempts"%string, Core.CtxNumber 1);
               ("context"%string, Core.CtxString "extractCriteria")].
Proof.
  refine (proj1 (empty_content_is_not_retried (Sample.service "id.secret")
    (Scenario.failing (Err.new "Empty response content from API"))
    [] "extractCriteria" (JS.dq "{'choices': []}")
    (JSON.Object [("choices"%string, JSON.Array [])]) None _ _ _ _ _ _ _));
    try reflexivity.
  vm_compute. discriminate.
Defined.

(** X17.  A response of status 200 whose first choice holds a non-empty text
    as the content of its message gives that text to the operation, which
    returns it after a single request whatever the text is. *)
Theorem content_of_first_choice_is_returned :
  forall (this : GLMService.t) (env : Env) (messages : list Message)
         (context data text : string) (response : JSON.value),
    GLMService.initialized this = true ->
    keyAccepted (Config.apiKey (GLMService.config this)) = true ->
    1 <= Config.maxRetries (GLMService.config this) ->
    JSON.parse data = Some response ->
    Wire.content response = Resolved (Some (JSON.Str text)) ->
    text <> EmptyString ->
    Wire.promised (Wire.settle this (Wire.Ended 200 data))
      = Some (exchange env 0%nat) ->
    resultOf (GLMService.request this env messages context) = Core.ok text
    /\ requestsSent (traceOf (GLMService.request this env messages context))
       = 1%nat
    /\ backoffs (traceOf (GLMService.request this env messages context)) = [].
Proof.
  intros this env messages context data text response Hinit Hkey HM Hparse
    Hcontent Htext Hwire.
  assert (Hex : exchange env 0%nat = Resolved text).
  { cbn [Wire.settle] in Hwire. unfold Wire.onEnd in Hwire.
    rewrite Hparse, Hcontent in Hwire. cbn in Hwire.
    destruct text; [contradiction|]. cbn in Hwire.
    injection Hwire as <-. reflexivity. }
  rewrite (request_initialized this env messages context Hinit).
  unfold resultOf, traceOf. cbn [fst snd].
  destruct (Z.to_nat (Config.maxRetries (GLMService.config this)))
    as [|remaining] eqn:HMnat; [lia|].
  cbn [GLMService.attempts]. unfold transport.
  destruct (callAPI_sent this messages (attemptClock env 0) (exchange env 0)
              Hkey) as (id & secret & _ & ->).
  rewrite Hex. repeat split.
Qed.

Lemma content_of_first_choice_is_returned_witness :
  resultOf (GLMService.request (Sample.service "id.secret")
              (Sample.replying "{}") [] "extractCriteria")
  = Core.ok "{}"%string.
Proof.
  refine (proj1 (content_of_first_choice_is_returned
    (Sample.service "id.secret") (Sample.replying "{}") [] "extractCriteria"
    (JS.dq "{'choices': [{'message': {'content': '{}'}}]}") "{}"
    (JSON.Object
       [("choices"%string,
         JSON.Array
           [JSON.Object
              [("message"%string,
                JSON.Object [("content"%string, JSON.Str "{}")])]])])
    _ _ _ _ _ _ _)); try reflexivity.
  - vm_compute. discriminate.
  - discriminate.
Defined.

(** ** Reading the reply *)

Section Extraction.

Local Open Scope string_scope.

Lemma skipWs_spaces (ws x : string) :
  asciiSpaces ws = true -> JS.skipWs (ws ++ x) = JS.skipWs x.
Proof.
  induction ws as [|c ws IH]; intros H; [reflexivity|].
  simpl in H. apply andb_true_iff in H as [Hc Hws].
  simpl. rewrite Hc. apply IH. exact Hws.
Qed.

Lemma skipWs_ascii (c : ascii) (r : string) :
  JS.isAsciiSpace c = false -> (N_of_ascii c < 128)%N ->
  JS.skipWs (String c r) = String c r.
Proof.
  intros Hs Hc. cbn [JS.skipWs]. rewrite Hs.
  destruct r as [|c2 r2]; [reflexivity|].
  assert (JS.isSpace2 c c2 = false) as ->.
  { unfold JS.isSpace2. destruct (N.eqb_spec (N_of_ascii c) 194); [lia|].
    reflexivity. }
  destruct r2 as [|c3 r3]; [reflexivity|].
  assert (JS.isSpace3 c c2 c3 = false) as ->; [|reflexivity].
  unfold JS.isSpace3. cbv zeta.
  destruct (N.eqb_spec (N_of_ascii c) 225); [lia|].
  destruct (N.eqb_spec (N_of_ascii c) 226); [lia|].
  destruct (N.eqb_spec (N_of_ascii c) 227); [lia|].
  destruct (N.eqb_spec (N_of_ascii c) 239); [lia|].
  reflexivity.
Qed.

(** White space is skipped up to a closing brace at the latest. *)
Lemma skipWs_keeps_brace (rest : string) : forall (n : nat) (t : string),
  (String.length t <= n)%nat ->
  exists p u, t = p ++ u
              /\ JS.skipWs (t ++ String "}" rest) = u ++ String "}" rest.
Proof.
  assert (Hbrace : forall r, JS.skipWs (String "}" r) = String "}" r).
  { intros r. apply skipWs_ascii; [reflexivity|]. vm_compute. reflexivity. }
  induction n as [|n IH]; intros t Hlen.
  { destruct t; [|simpl in Hlen; lia]. exists EmptyString, EmptyString.
    split; [reflexivity|]. apply Hbrace. }
  destruct t as [|c1 t1].
  { exists EmptyString, EmptyString. split; [reflexivity|]. apply Hbrace. }
  simpl in Hlen.
  assert (Hstay : exists p u, String c1 t1 = p ++ u
            /\ String c1 t1 ++ String "}" rest = u ++ String "}" rest).
  { exists EmptyString, (String c1 t1). split; reflexivity. }
  assert (Hskip : forall (pre t' : string),
            String c1 t1 = pre ++ t' -> (String.length t' <= n)%nat ->
            exists p u, String c1 t1 = p ++ u
              /\ JS.skipWs (t' ++ String "}" rest) = u ++ String "}" rest).
  { intros pre t' Heq Hl. destruct (IH t' Hl) as (p & u & -> & Hs).
    exists (pre ++ p), u. split; [|exact Hs].
    rewrite Heq. symmetry. apply append_assoc. }
  change (String c1 t1 ++ String "}" rest)
    with (String c1 (t1 ++ String "}" rest)).
  cbn [JS.skipWs]. destruct (JS.isAsciiSpace c1) eqn:E1.
  { apply (Hskip (String c1 EmptyString) t1); [reflexivity|lia]. }
  destruct t1 as [|c2 t2].
  { cbn [append].
    assert (JS.isSpace2 c1 "}" = false) as ->.
    { unfold JS.isSpace2. rewrite andb_false_r. reflexivity. }
    destruct rest as [|c3 r3]; [exact Hstay|].
    assert (JS.isSpace3 c1 "}" c3 = false) as ->; [|exact Hstay].
    unfold JS.isSpace3. cbv zeta.
    change (N_of_ascii "}") with 125%N.
    cbn [N.eqb Pos.eqb]. rewrite !andb_false_r. reflexivity. }
  cbn [append]. simpl in Hlen. destruct (JS.isSpace2 c1 c2) eqn:E2.
  { apply (Hskip (String c1 (String c2 EmptyString)) t2); [reflexivity|lia]. }
  destruct t2 as [|c3 t3].
  { cbn [append].
    assert (JS.isSpace3 c1 c2 "}" = false) as ->; [|exact Hstay].
    unfold JS.isSpace3. cbv zeta.
    change (N_of_ascii "}") with 125%N.
    cbn [N.eqb N.leb N.compare Pos.eqb Pos.compare Pos.compare_cont].
    rewrite !andb_false_r. reflexivity. }
  cbn [append]. simpl in Hlen.
  destruct (JS.isSpace3 c1 c2 c3) eqn:E3; [|exact Hstay].
  apply (Hskip (String c1 (String c2 (String c3 EmptyString))) t3);
    [reflexivity|lia].
Qed.

Lemma take_app_one (a : string) (c : ascii) (x : string) :
  JS.take (S (String.length a)) (a ++ String c x) = a ++ String c EmptyString.
Proof.
  induction a as [|d a IH]; [destruct x; reflexivity|].
  change (JS.take (S (String.length (String d a)))
            (String d a ++ String c x))
    with (String d (JS.take (S (String.length a)) (a ++ String c x))).
  rewrite IH. reflexivity.
Qed.

Lemma startsWith_other (c : ascii) (r o : string) :
  Ascii.eqb c "`" = false -> JS.startsWith (String c r) (String "`" o) = false.
Proof.
  intros H. cbn [JS.startsWith]. rewrite (Ascii.eqb_sym "`" c), H.
  reflexivity.
Qed.

Lemma startsWith_fence_no (u x : string) :
  JS.count "`" u = 0%nat ->
  JS.startsWith (u ++ String "}" x) GLMService.fence = false.
Proof.
  destruct u as [|c u]; [reflexivity|]. intros H. cbn [JS.count] in H.
  destruct (Ascii.eqb c "`") eqn:Ec; [discriminate|].
  apply (startsWith_other c (u ++ String "}" x) "``" Ec).
Qed.

Lemma count_suffix (c : ascii) (p u : string) :
  JS.count c (p ++ u) = 0%nat -> JS.count c u = 0%nat.
Proof. rewrite count_append. lia. Qed.

(** The lazy group runs to the closing brace that precedes the closing
    fence. *)
Lemma lazyToFence_body (ws2 post : string) :
  asciiSpaces ws2 = true ->
  forall t : string,
    JS.count "`" t = 0%nat ->
    GLMService.lazyToFence
      (t ++ String "}" (ws2 ++ GLMService.fence ++ post))
    = Some (t ++ "}").
Proof.
  intros Hws.
  assert (Hend : GLMService.lazyToFence (ws2 ++ GLMService.fence ++ post)
                 = Some EmptyString).
  { assert (Hs : JS.startsWith
                   (JS.skipWs (ws2 ++ GLMService.fence ++ post))
                   GLMService.fence = true).
    { rewrite (skipWs_spaces ws2 _ Hws).
      unfold GLMService.fence at 1. cbn [append].
      rewrite skipWs_ascii; [|reflexivity|vm_compute; reflexivity].
      destruct post; reflexivity. }
    destruct (ws2 ++ GLMService.fence ++ post); cbn [GLMService.lazyToFence];
      rewrite Hs; reflexivity. }
  assert (Hno : forall t, JS.count "`" t = 0%nat ->
            JS.startsWith
              (JS.skipWs (t ++ String "}" (ws2 ++ GLMService.fence ++ post)))
              GLMService.fence = false).
  { intros t Ht.
    destruct (skipWs_keeps_brace (ws2 ++ GLMService.fence ++ post)
                (String.length t) t (le_n _)) as (p & u & Heq & ->).
    apply startsWith_fence_no. subst t. apply (count_suffix _ p u Ht). }
  induction t as [|c t IH]; intros Ht.
  - pose proof (Hno EmptyString eq_refl) as H0.
    cbn [append] in H0 |- *. cbn [GLMService.lazyToFence].
    rewrite H0, Hend. reflexivity.
  - pose proof (Hno (String c t) Ht) as Hc.
    change (String c t ++ String "}" (ws2 ++ GLMService.fence ++ post))
      with (String c (t ++ String "}" (ws2 ++ GLMService.fence ++ post)))
      in *.
    cbn [GLMService.lazyToFence]. rewrite Hc, IH; [reflexivity|].
    simpl in Ht. destruct (Ascii.eqb c "`"); [discriminate|exact Ht].
Qed.

Lemma startsWith_self (a x : string) : JS.startsWith (a ++ x) a = true.
Proof.
  induction a as [|c a IH]; [apply startsWith_nil|].
  simpl. rewrite Ascii.eqb_refl. exact IH.
Qed.

Lemma drop_app (a x : string) : JS.drop (String.length a) (a ++ x) = x.
Proof. induction a as [|c a IH]; [destruct x; reflexivity|exact IH]. Qed.

Lemma take_app (a x : string) : JS.take (String.length a) (a ++ x) = a.
Proof.
  induction a as [|c a IH]; [destruct x; reflexivity|].
  simpl. rewrite IH. reflexivity.
Qed.

(** The first match of a pattern that starts with a backquote, in a text
    whose first backquote starts the opener. *)
Lemma matchFence_first (o x group : string) :
  GLMService.lazyToFence
    (JS.skipWs (JS.drop (String.length (String "`" o)) (String "`" o ++ x)))
    = Some group ->
  forall pre : string,
    JS.count "`" pre = 0%nat ->
    GLMService.matchFence (String "`" o) (pre ++ String "`" o ++ x)
    = Some group.
Proof.
  intros Hgroup. induction pre as [|c pre IH]; intros Hpre.
  - change (EmptyString ++ String "`" o ++ x) with (String "`" (o ++ x)).
    cbn [GLMService.matchFence].
    change (String "`" (o ++ x)) with (String "`" o ++ x).
    rewrite startsWith_self, Hgroup. reflexivity.
  - simpl in Hpre. destruct (Ascii.eqb c "`") eqn:Ec; [discriminate|].
    change (String c pre ++ String "`" o ++ x)
      with (String c (pre ++ String "`" o ++ x)).
    cbn [GLMService.matchFence].
    rewrite (startsWith_other c _ o Ec). apply IH. exact Hpre.
Qed.

Lemma matchFence_none (o : string) : forall s : string,
  JS.count "`" s = 0%nat -> GLMService.matchFence (String "`" o) s = None.
Proof.
  induction s as [|c s IH]; intros H; [reflexivity|].
  simpl in H. destruct (Ascii.eqb c "`") eqn:Ec; [discriminate|].
  cbn [GLMService.matchFence]. rewrite (startsWith_other c s o Ec).
  apply IH. exact H.
Qed.

Lemma indexOf_app (c : ascii) (x : string) : forall pre : string,
  JS.count c pre = 0%nat ->
  JS.indexOf c (pre ++ String c x) = Some (String.length pre).
Proof.
  induction pre as [|a pre IH]; intros H.
  - simpl. rewrite Ascii.eqb_refl. reflexivity.
  - simpl in H |- *. destruct (Ascii.eqb a c); [discriminate|].
    rewrite (IH H). reflexivity.
Qed.

Lemma lastIndexOf_none (c : ascii) : forall s : string,
  JS.count c s = 0%nat -> JS.lastIndexOf c s = None.
Proof.
  induction s as [|a s IH]; intros H; [reflexivity|].
  simpl in H |- *. destruct (Ascii.eqb a c); [discriminate|].
  rewrite (IH H). reflexivity.
Qed.

Lemma lastIndexOf_app (c : ascii) (post : string) :
  JS.count c post = 0%nat ->
  forall x : string,
    JS.lastIndexOf c (x ++ String c post) = Some (String.length x).
Proof.
  intros Hpost. induction x as [|a x IH].
  - simpl. rewrite (lastIndexOf_none c post Hpost), Ascii.eqb_refl.
    reflexivity.
  - simpl. rewrite IH. reflexivity.
Qed.

Lemma parseMembers_object : forall (fuel : nat) (s : string) acc v r,
  JSON.parseMembers fuel s acc = Some (v, r) -> exists ms, v = JSON.Object ms.
Proof.
  induction fuel as [|fuel IH]; intros s acc v r H; [discriminate H|].
  cbn [JSON.parseMembers] in H.
  destruct (JSON.expect JS.quote (JSON.skipSpace s)); [|discriminate H].
  destruct (JSON.parseString s0) as [[key r1]|]; [|discriminate H].
  destruct (JSON.expect ":" (JSON.skipSpace r1)); [|discriminate H].
  destruct (JSON.parseValue fuel s1) as [[v' r3]|]; [|discriminate H].
  destruct (JSON.expect "," (JSON.skipSpace r3)).
  - apply (IH _ _ _ _ H).
  - destruct (JSON.expect "}" (JSON.skipSpace r3)); [|discriminate H].
    injection H as <- _. eexists. reflexivity.
Qed.

Lemma parse_brace (r : string) (v : JSON.value) :
  JSON.parse (String "{" r) = Some v -> exists ms, v = JSON.Object ms.
Proof.
  unfold JSON.parse. intros H.
  destruct (JSON.parseValue _ _) as [[v' rest]|] eqn:E; [|discriminate H].
  destruct (JSON.skipSpace rest); [|discriminate H]. injection H as <-.
  destruct (2 * String.length (String "{" r) + 2)%nat as [|fuel];
    [discriminate E|].
  cbn [JSON.parseValue JSON.skipSpace JSON.isJsonSpace] in E.
  change (JSON.isJsonSpace "{") with false in E. cbv iota in E.
  change (Ascii.eqb "{" "{") with true in E. cbv iota in E.
  destruct (JSON.expect "}" (JSON.skipSpace r)).
  - injection E as <- _. eexists. reflexivity.
  - apply (parseMembers_object _ _ _ _ _ E).
Qed.

Lemma parseJSONResponse_object (response r : string) (v : JSON.value) :
  GLMService.candidate response = String "{" r ->
  JSON.parse (String "{" r) = Some v ->
  GLMService.parseJSONResponse response = Core.ok v.
Proof.
  intros Hc Hp. unfold GLMService.parseJSONResponse, GLMService.tryParse.
  rewrite Hc, Hp. destruct (parse_brace r v Hp) as [ms ->]. reflexivity.
Qed.

End Extraction.

(** X18.  A reply that wraps a JSON object in a fence opened by three
    backquotes and [json], whatever prose without backquotes precedes the
    fence and whatever follows it, is read through the object alone: the
    text between the fences, without the white space around it, is what
    [parseJSONResponse] parses, and its value is what it returns. *)
Theorem parseJSONResponse_unwraps_json_fence :
  forall (pre ws1 body ws2 post : string),
    JS.count "`" pre = 0%nat ->
    JS.count "`" body = 0%nat ->
    asciiSpaces ws1 = true ->
    asciiSpaces ws2 = true ->
    GLMService.candidate
      (pre ++ "```json" ++ ws1 ++ "{" ++ body ++ "}" ++ ws2 ++ "```" ++ post)
    = ("{" ++ body ++ "}")%string
    /\ forall v : JSON.value,
         JSON.parse ("{" ++ body ++ "}") = Some v ->
         GLMService.parseJSONResponse
           (pre ++ "```json" ++ ws1 ++ "{" ++ body ++ "}" ++ ws2 ++ "```"
                ++ post)
         = Core.ok v.
Proof.
  intros pre ws1 body ws2 post Hpre Hbody Hws1 Hws2.
  assert (Hc : GLMService.candidate
    (pre ++ "```json" ++ ws1 ++ "{" ++ body ++ "}" ++ ws2 ++ "```" ++ post)
    = ("{" ++ body ++ "}")%string).
  { unfold GLMService.candidate.
    rewrite (matchFence_first "``json"
               (ws1 ++ "{" ++ body ++ "}" ++ ws2 ++ "```" ++ post)
               ("{" ++ body ++ "}")); [reflexivity| |exact Hpre].
    rewrite drop_app, (skipWs_spaces ws1 _ Hws1).
    change ("{" ++ body ++ "}" ++ ws2 ++ "```" ++ post)%string
      with (String "{" (body ++ "}" ++ ws2 ++ "```" ++ post)).
    rewrite skipWs_ascii; [|reflexivity|vm_compute; reflexivity].
    change (String "{" (body ++ "}" ++ ws2 ++ "```" ++ post))
      with (String "{" body
              ++ String "}" (ws2 ++ GLMService.fence ++ post))%string.
    rewrite (lazyToFence_body ws2 post Hws2 (String "{" body)); [reflexivity|].
    exact Hbody. }
  split; [exact Hc|]. intros v Hv.
  apply (parseJSONResponse_object _ (body ++ "}") v); assumption.
Qed.

Lemma parseJSONResponse_unwraps_json_fence_witness :
  GLMService.candidate
    ("Here it is: " ++ "```json" ++ String "010" EmptyString ++ "{"
       ++ JS.dq "'subjectNumber': 'S-001'" ++ "}" ++ String "010" EmptyString
       ++ "```" ++ " Done.")
  = ("{" ++ JS.dq "'subjectNumber': 'S-001'" ++ "}")%string.
Proof.
  apply (parseJSONResponse_unwraps_json_fence "Here it is: "
           (String "010" EmptyString) (JS.dq "'subjectNumber': 'S-001'")
           (String "010" EmptyString) " Done."); reflexivity.
Defined.

(** X19.  In a reply without backquotes, the prose before the first opening
    brace and after the last closing brace is ignored: the text from the one
    to the other is what [parseJSONResponse] parses, and its value is what
    it returns. *)
Theorem parseJSONResponse_ignores_prose_around_object :
  forall (pre body post : string),
    JS.count "`" (pre ++ "{" ++ body ++ "}" ++ post) = 0%nat ->
    JS.count "{" pre = 0%nat ->
    JS.count "}" post = 0%nat ->
    GLMService.candidate (pre ++ "{" ++ body ++ "}" ++ post)
    = ("{" ++ body ++ "}")%string
    /\ forall v : JSON.value,
         JSON.parse ("{" ++ body ++ "}") = Some v ->
         GLMService.parseJSONResponse (pre ++ "{" ++ body ++ "}" ++ post)
         = Core.ok v.
Proof.
  intros pre body post Htick Hpre Hpost.
  assert (Hc : GLMService.candidate (pre ++ "{" ++ body ++ "}" ++ post)
               = ("{" ++ body ++ "}")%string).
  { unfold GLMService.candidate, GLMService.fence.
    rewrite !matchFence_none by exact Htick.
    unfold GLMService.matchObject.
    change ("{" ++ body ++ "}" ++ post)%string
      with (String "{" (body ++ "}" ++ post)).
    rewrite (indexOf_app "{" _ pre Hpre), drop_app.
    change (String "{" (body ++ "}" ++ post))
      with (String "{" body ++ String "}" post)%string.
    rewrite (lastIndexOf_app "}" post Hpost (String "{" body)).
    rewrite take_app_one. reflexivity. }
  split; [exact Hc|]. intros v Hv.
  apply (parseJSONResponse_object _ (body ++ "}") v); assumption.
Qed.

Lemma parseJSONResponse_ignores_prose_around_object_witness :
  GLMService.candidate
    ("Result: " ++ "{" ++ JS.dq "'visits': []" ++ "}" ++ " (end)")
  = ("{" ++ JS.dq "'visits': []" ++ "}")%string.
Proof.
  apply (parseJSONResponse_ignores_prose_around_object "Result: "
           (JS.dq "'visits': []") " (end)"); reflexivity.
Defined.

Section Steps.

Local Open Scope string_scope.

Lemma lastIndexOf_some (c : ascii) : forall s : string,
  JS.count c s <> 0%nat -> exists i, JS.lastIndexOf c s = Some i.
Proof.
  induction s as [|a s IH]; intros H; [contradiction|].
  simpl in H |- *. destruct (JS.lastIndexOf c s) as [i|].
  - eexists. reflexivity.
  - destruct (Ascii.eqb a c); [eexists; reflexivity|].
    destruct (IH H) as [i Hi]. discriminate Hi.
Qed.

Lemma lastIndexOf_bound (c : ascii) : forall (s : string) (i : nat),
  JS.lastIndexOf c s = Some i -> (i < String.length s)%nat.
Proof.
  induction s as [|a s IH]; intros i H; [discriminate H|].
  simpl in H |- *. destruct (JS.lastIndexOf c s) as [j|].
  - injection H as <-. specialize (IH j eq_refl). lia.
  - destruct (Ascii.eqb a c); [|discriminate H]. injection H as <-. lia.
Qed.

Lemma count_repeat (c d : ascii) (n : nat) :
  JS.count c (JS.repeatChar d n) = if Ascii.eqb d c then n else 0%nat.
Proof.
  induction n as [|n IH]; [destruct (Ascii.eqb d c); reflexivity|].
  simpl. rewrite IH. destruct (Ascii.eqb d c); reflexivity.
Qed.

End Steps.

(** X20.  Step 2 of the repair, on a text cut inside a string literal: when
    the text before the quote that opens the literal holds a positive even
    number of quotes, the text is cut after that quote and a quote is added,
    so that the literal becomes the empty string and what had been received
    of it is dropped; when that quote is the only one of the text, nothing
    is changed and the literal stays open.  A text with an even number of
    quotes is left as it is. *)
Theorem closeString_drops_partial_literal :
  forall (before partial : string),
    JS.count JS.quote partial = 0%nat ->
    Nat.even (JS.count JS.quote before) = true ->
    (JS.count JS.quote before <> 0%nat ->
     GLMService.closeString
       (before ++ String JS.quote partial)
     = (before ++ String JS.quote (String JS.quote EmptyString))%string)
    /\ (JS.count JS.quote before = 0%nat ->
        GLMService.closeString (before ++ String JS.quote partial)
        = (before ++ String JS.quote partial)%string)
    /\ GLMService.closeString before = before.
Proof.
  intros before partial Hpartial Heven.
  assert (Hodd : Nat.even (JS.count JS.quote
                             (before ++ String JS.quote partial)) = false).
  { rewrite count_append. cbn [JS.count]. rewrite Ascii.eqb_refl, Hpartial.
    replace (JS.count JS.quote before + (1 + 0))%nat
      with (S (JS.count JS.quote before)) by lia.
    rewrite Nat.even_succ, <- Nat.negb_even, Heven. reflexivity. }
  assert (Hlast : JS.lastIndexOf JS.quote (before ++ String JS.quote partial)
                  = Some (String.length before))
    by (apply lastIndexOf_app; exact Hpartial).
  split; [|split].
  - intros Hsome. unfold GLMService.closeString.
    rewrite Hodd, Hlast. cbn [negb]. rewrite take_app.
    destruct (lastIndexOf_some JS.quote before Hsome) as [i Hi].
    rewrite Hi. pose proof (lastIndexOf_bound _ _ _ Hi) as Hlt.
    apply Nat.ltb_lt in Hlt. rewrite Hlt.
    replace (String.length before + 1)%nat with (S (String.length before))
      by lia.
    rewrite take_app_one, append_assoc. reflexivity.
  - intros Hnone. unfold GLMService.closeString.
    rewrite Hodd, Hlast. cbn [negb]. rewrite take_app.
    rewrite (lastIndexOf_none JS.quote before Hnone). reflexivity.
  - apply closeString_even. exact Heven.
Qed.

Lemma closeString_drops_partial_literal_witness :
  GLMService.closeString (JS.dq "{'name': 'Aspi")
  = JS.dq "{'name': ''".
Proof.
  apply (proj1 (closeString_drops_partial_literal
                  (JS.dq "{'name': ") "Aspi" eq_refl eq_refl)).
  discriminate.
Defined.

(** X21.  After the repair no bracket and no brace is left open by count:
    the text returned holds at least as many closing brackets as opening
    ones, and at least as many closing braces as opening ones. *)
Theorem fixIncompleteJSON_closes_by_count :
  forall s : string,
    (JS.count "[" (GLMService.fixIncompleteJSON s)
     <= JS.count "]" (GLMService.fixIncompleteJSON s))%nat
    /\ (JS.count "{" (GLMService.fixIncompleteJSON s)
        <= JS.count "}" (GLMService.fixIncompleteJSON s))%nat.
Proof.
  intros s. unfold GLMService.fixIncompleteJSON.
  generalize (GLMService.dropIncompleteProperty
                (GLMService.closeString (GLMService.removeTrailingCommas s))).
  intros fixed. unfold GLMService.closeOpen.
  rewrite !count_append, !count_repeat.
  change (Ascii.eqb "]" "[") with false. change (Ascii.eqb "}" "[") with false.
  change (Ascii.eqb "]" "]") with true. change (Ascii.eqb "}" "]") with false.
  change (Ascii.eqb "]" "{") with false. change (Ascii.eqb "}" "{") with false.
  change (Ascii.eqb "]" "}") with false. change (Ascii.eqb "}" "}") with true.
  cbv iota. split; lia.
Qed.

Section Subject.




End Subject.


(** ** Mapping the reply *)

Section Mapping.

Context {A B : Type}.
Variable callback : A -> nat -> Settled B.


End Mapping.





Section Rejection.

Context {A B : Type}.
Variable callback : A -> nat -> Settled B.


End Rejection.

Section Medication.

Variable clock : Z.




End Medication.



(** ** The handlers *)

Section Settings.

Local Open Scope string_scope.




End Settings.




(** X27.  What [recognizeMedications] throws does not reach the renderer:
    when the value read from the reply has under [medications] something
    that is truthy and is not an array (a number, a text, an object), the
    operation throws, and the handler of [ai:recognizeMedications] answers
    with an error object of code AI_RECOGNIZE_MEDICATIONS_FAILED. *)
Theorem recognizeMedications_handler_reports_wrong_shape :
  forall (m : ModuleState) (reference : nat) (service : GLMService.t)
         (env : Env) (content response : string) (data v : JSON.value),
    getGLMService m = Some reference ->
    deref m reference = Some service ->
    GLMService.initialized service = true ->
    keyAccepted (Config.apiKey (GLMService.config service)) = true ->
    1 <= Config.maxRetries (GLMService.config service) ->
    exchange env 0%nat = Resolved response ->
    GLMService.parseJSONResponse response = Core.ok data ->
    JSON.get data "medications" = Resolved (Some v) ->
    JSON.truthy v = true ->
    (forall elements, v <> JSON.Array elements) ->
    (exists e, resultOf (GLMService.recognizeMedications service env content)
               = Rejected e
               /\ Err.kind e = Err.TypeError)
    /\ exists technicalMessage,
         resultOf (AIHandler.recognizeMedications env content m)
         = Failure "AI_RECOGNIZE_MEDICATIONS_FAILED" "识别用药信息失败"
             technicalMessage.
Proof.
  intros m reference service env content response data v Hget Hderef Hinit
    Hkey HM Hreply Hparse Hmeds Htruthy Hshape.
  assert (Hop : resultOf (GLMService.recognizeMedications service env content)
                = Rejected (Err.typeError "map is not a function")).
  { unfold GLMService.recognizeMedications.
    destruct (request_replied service env
                [GLMService.system;
                 GLMService.user
                   (formatPrompt MEDICATION_RECOGNITION_PROMPT
                      [("content"%string, truncateContent content 8000)])]
                "recognizeMedications" response Hinit HM Hkey Hreply)
      as (trace & this' & ->).
    cbn [resultOf fst]. rewrite Hparse, Hmeds. cbn [andThen].
    unfold JSON.orEmptyArray. rewrite Htruthy.
    destruct v; try reflexivity. exfalso. apply (Hshape elements).
    reflexivity. }
  split; [eexists; split; [exact Hop|reflexivity]|].
  unfold AIHandler.recognizeMedications, AIHandler.handle.
  rewrite Hget, Hderef.
  destruct (GLMService.recognizeMedications service env content)
    as [[outcome trace] service'].
  cbn [resultOf fst] in Hop |- *. subst outcome.
  eexists. reflexivity.
Qed.

Lemma recognizeMedications_handler_reports_wrong_shape_witness :
  exists technicalMessage,
    resultOf (AIHandler.recognizeMedications
                (Sample.replying (JS.dq "{'medications': 5}")) "record"
                {| heap := [Sample.service "id.secret"];
                   glmServiceInstance := Some 0%nat |})
    = Failure "AI_RECOGNIZE_MEDICATIONS_FAILED" "识别用药信息失败"
        technicalMessage.
Proof.
  refine (proj2 (recognizeMedications_handler_reports_wrong_shape
    {| heap := [Sample.service "id.secret"]; glmServiceInstance := Some 0%nat |}
    0%nat (Sample.service "id.secret")
    (Sample.replying (JS.dq "{'medications': 5}")) "record"
    (JS.dq "{'medications': 5}")
    (JSON.Object [("medications"%string, JSON.Number 5)]) (JSON.Number 5)
    _ _ _ _ _ _ _ _ _ _)); try reflexivity.
  - vm_compute. discriminate.
  - intros elements. discriminate.
Defined.

(** ** The prompts *)

Section Format.

Local Open Scope string_scope.

Lemma getSubstitution_plain (matched before after : string) :
  forall value : string,
    JS.count "$" value = 0%nat ->
    Prompts.getSubstitution matched before after value = value.
Proof.
  induction value as [|c r IH]; intros H; [reflexivity|].
  cbn [JS.count] in H. cbn [Prompts.getSubstitution].
  destruct (Ascii.eqb c "$"); [discriminate H|].
  rewrite (IH H). reflexivity.
Qed.

Lemma getSubstitution_app (matched before after rest : string) :
  forall x : string,
    JS.count "$" x = 0%nat ->
    Prompts.getSubstitution matched before after (x ++ rest)
    = x ++ Prompts.getSubstitution matched before after rest.
Proof.
  induction x as [|c r IH]; intros H; [reflexivity|].
  cbn [JS.count] in H.
  change (String c r ++ rest) with (String c (r ++ rest)).
  cbn [Prompts.getSubstitution].
  destruct (Ascii.eqb c "$"); [discriminate H|].
  rewrite (IH H). reflexivity.
Qed.

Lemma wordKey_count (c : ascii) :
  wordChar c = false ->
  forall key, wordKey key = true -> JS.count c key = 0%nat.
Proof.
  intros Hc. induction key as [|x key IH]; intros H; [reflexivity|].
  simpl in H. apply andb_true_iff in H as [Hx Hkey]. cbn [JS.count].
  destruct (Ascii.eqb_spec x c) as [->|_].
  - rewrite Hc in Hx. discriminate Hx.
  - apply IH. exact Hkey.
Qed.

Variable key : string.
Hypothesis key_word : wordKey key = true.

Lemma placeholder_tail :
  JS.count "{" (key ++ "}") = 0%nat /\ key ++ "}" <> EmptyString.
Proof.
  split.
  - rewrite count_append, (wordKey_count "{" eq_refl key key_word).
    reflexivity.
  - destruct key; discriminate.
Qed.

(** A match of the placeholder does not begin before the one that is
    written out and run into it. *)
Lemma startsWith_placeholder (a' b : string) :
  a' <> EmptyString ->
  JS.startsWith (a' ++ Prompts.placeholder key ++ b) (Prompts.placeholder key)
  = JS.startsWith a' (Prompts.placeholder key).
Proof.
  destruct a' as [|x a'']; [contradiction|]. intros _.
  unfold Prompts.placeholder.
  change ("{" ++ key ++ "}") with (String "{" (key ++ "}")).
  change (String x a'' ++ String "{" (key ++ "}") ++ b)
    with (String x (a'' ++ String "{" ((key ++ "}") ++ b))).
  cbn [JS.startsWith]. f_equal.
  destruct placeholder_tail as [Hc Hn].
  apply (startsWith_app_foreign "{" ((key ++ "}") ++ b) (key ++ "}") a'' Hn
           Hc).
Qed.

Lemma includes_head (s n : string) :
  JS.includes s n = false -> JS.startsWith s n = false.
Proof.
  destruct s; cbn [JS.includes]; intros H; apply orb_false_iff in H as [H _];
    exact H.
Qed.

Lemma includes_tail (c : ascii) (s n : string) :
  JS.includes (String c s) n = false -> JS.includes s n = false.
Proof.
  cbn [JS.includes]. intros H. apply orb_false_iff in H as [_ H]. exact H.
Qed.

Lemma replaceFrom_none (pattern value : string) : forall (b before : string),
  JS.includes b pattern = false ->
  Prompts.replaceFrom pattern value before b 0 = b.
Proof.
  induction b as [|c b IH]; intros before H; [reflexivity|].
  cbn [Prompts.replaceFrom]. rewrite (includes_head _ _ H).
  rewrite IH; [reflexivity|]. apply (includes_tail c). exact H.
Qed.

Lemma replaceFrom_skip (pattern value b : string) :
  forall (t before : string),
    Prompts.replaceFrom pattern value before (t ++ b) (String.length t)
    = Prompts.replaceFrom pattern value (before ++ t) b 0.
Proof.
  induction t as [|c t IH]; intros before.
  - cbn [append String.length]. rewrite append_nil_r. reflexivity.
  - change (String c t ++ b) with (String c (t ++ b)).
    cbn [Prompts.replaceFrom String.length]. rewrite IH, append_assoc.
    reflexivity.
Qed.

Lemma replaceFrom_placeholder (value b : string) :
  JS.includes b (Prompts.placeholder key) = false ->
  forall (a before : string),
    JS.includes a (Prompts.placeholder key) = false ->
    Prompts.replaceFrom (Prompts.placeholder key) value before
      (a ++ Prompts.placeholder key ++ b) 0
    = a ++ Prompts.getSubstitution (Prompts.placeholder key) (before ++ a) b
             value
        ++ b.
Proof.
  intros Hb. induction a as [|c a IH]; intros before Ha.
  - cbn [append]. rewrite append_nil_r.
    unfold Prompts.placeholder at 2.
    change (("{" ++ key ++ "}") ++ b) with (String "{" ((key ++ "}") ++ b)).
    cbn [Prompts.replaceFrom].
    change (String "{" ((key ++ "}") ++ b))
      with (Prompts.placeholder key ++ b).
    rewrite startsWith_self, drop_app. f_equal.
    assert (Hlen : (String.length (Prompts.placeholder key) - 1)%nat
                   = String.length (key ++ "}")).
    { unfold Prompts.placeholder. cbn [append String.length]. lia. }
    rewrite Hlen, replaceFrom_skip. apply replaceFrom_none. exact Hb.
  - change (String c a ++ Prompts.placeholder key ++ b)
      with (String c (a ++ Prompts.placeholder key ++ b)).
    cbn [Prompts.replaceFrom].
    change (String c (a ++ Prompts.placeholder key ++ b))
      with (String c a ++ Prompts.placeholder key ++ b).
    rewrite startsWith_placeholder by discriminate.
    rewrite (includes_head _ _ Ha).
    rewrite IH by (apply (includes_tail c); exact Ha).
    rewrite append_assoc. reflexivity.
Qed.

End Format.

(** X28.  [formatPrompt] on a template that holds the placeholder of its one
    parameter once: a value without dollar sign takes the place of the
    placeholder as it is, the text before and the text after being kept. *)
Theorem formatPrompt_substitutes_plain_value :
  forall (a b key value : string),
    wordKey key = true ->
    JS.includes a (Prompts.placeholder key) = false ->
    JS.includes b (Prompts.placeholder key) = false ->
    JS.count "$" value = 0%nat ->
    Prompts.formatPrompt (a ++ Prompts.placeholder key ++ b) [(key, value)]
    = (a ++ value ++ b)%string.
Proof.
  intros a b key value Hkey Ha Hb Hvalue. cbn [Prompts.formatPrompt].
  rewrite (replaceFrom_placeholder key Hkey value b Hb a EmptyString Ha).
  rewrite getSubstitution_plain by exact Hvalue. reflexivity.
Qed.

Lemma formatPrompt_substitutes_plain_value_witness :
  Prompts.formatPrompt
    ("Records: " ++ Prompts.placeholder "content" ++ " Answer in JSON.")
    [("content", "aspirin 100mg")]%string
  = ("Records: " ++ "aspirin 100mg" ++ " Answer in JSON.")%string.
Proof.
  apply (formatPrompt_substitutes_plain_value "Records: " " Answer in JSON."
           "content" "aspirin 100mg"); reflexivity.
Defined.

(** X29.  A value is not inserted as it is when it holds a dollar sign
    followed by a dollar sign, an ampersand, a backquote or an apostrophe:
    [formatPrompt] then writes, in the place of the two characters, a single
    dollar sign, the placeholder itself, the text of the template before the
    placeholder, or the text of the template after it. *)
Theorem formatPrompt_expands_dollar_patterns :
  forall (a b key x y : string),
    wordKey key = true ->
    JS.includes a (Prompts.placeholder key) = false ->
    JS.includes b (Prompts.placeholder key) = false ->
    JS.count "$" x = 0%nat ->
    JS.count "$" y = 0%nat ->
    Prompts.formatPrompt (a ++ Prompts.placeholder key ++ b)
      [(key, (x ++ "$$" ++ y)%string)]
    = (a ++ (x ++ "$" ++ y) ++ b)%string
    /\ Prompts.formatPrompt (a ++ Prompts.placeholder key ++ b)
         [(key, (x ++ "$&" ++ y)%string)]
       = (a ++ (x ++ Prompts.placeholder key ++ y) ++ b)%string
    /\ Prompts.formatPrompt (a ++ Prompts.placeholder key ++ b)
         [(key, (x ++ "$`" ++ y)%string)]
       = (a ++ (x ++ a ++ y) ++ b)%string
    /\ Prompts.formatPrompt (a ++ Prompts.placeholder key ++ b)
         [(key, (x ++ "$'" ++ y)%string)]
       = (a ++ (x ++ b ++ y) ++ b)%string.
Proof.
  intros a b key x y Hkey Ha Hb Hx Hy. cbn [Prompts.formatPrompt].
  repeat split;
    rewrite (replaceFrom_placeholder key Hkey _ b Hb a EmptyString Ha),
      getSubstitution_app by exact Hx;
    cbn [append Prompts.getSubstitution Ascii.eqb Bool.eqb];
    rewrite getSubstitution_plain by exact Hy; reflexivity.
Qed.

Lemma formatPrompt_expands_dollar_patterns_witness :
  Prompts.formatPrompt
    ("Records: " ++ Prompts.placeholder "content" ++ " Answer in JSON.")
    [("content"%string, ("cost: " ++ "$$" ++ "5")%string)]
  = ("Records: " ++ ("cost: " ++ "$" ++ "5") ++ " Answer in JSON.")%string.
Proof.
  apply (formatPrompt_expands_dollar_patterns "Records: " " Answer in JSON."
           "content" "cost: " "5"); reflexivity.
Defined.

(** X30.  [truncateContent] keeps a text of at most twice [maxTokens] code
    units as it is; of a longer text it keeps the first twice [maxTokens]
    code units and appends a notice of twelve code units.  The result is
    never longer than twice [maxTokens] plus twelve, and truncating it again
    changes nothing. *)
Theorem truncateContent_bounds_the_content :
  forall (content : Prompts.units) (maxTokens : Z),
    0 <= maxTokens ->
    (Z.of_nat (length content) <= 2 * maxTokens ->
     Prompts.truncateContent content maxTokens = content)
    /\ (2 * maxTokens < Z.of_nat (length content) ->
        Prompts.truncateContent content maxTokens
        = firstn (Z.to_nat (2 * maxTokens)) content ++ Prompts.notice)
    /\ Z.of_nat (length (Prompts.truncateContent content maxTokens))
       <= 2 * maxTokens + 12
    /\ Prompts.truncateContent (Prompts.truncateContent content maxTokens)
         maxTokens
       = Prompts.truncateContent content maxTokens.
Proof.
  intros content maxTokens Hpos. unfold Prompts.truncateContent.
  replace (maxTokens * 2) with (2 * maxTokens) by lia.
  destruct (Z.of_nat (length content) <=? 2 * maxTokens) eqn:E.
  - apply Z.leb_le in E. rewrite (proj2 (Z.leb_le _ _) E).
    repeat split; try reflexivity; lia.
  - apply Z.leb_gt in E.
    assert (Hlen : length (firstn (Z.to_nat (2 * maxTokens)) content)
                   = Z.to_nat (2 * maxTokens)).
    { apply firstn_length_le. lia. }
    assert (Hlong : (Z.of_nat (length (firstn (Z.to_nat (2 * maxTokens))
                                          content ++ Prompts.notice))
                     <=? 2 * maxTokens) = false).
    { apply Z.leb_gt. rewrite length_app, Hlen.
      change (length Prompts.notice) with 12%nat. lia. }
    rewrite Hlong.
    split; [lia|]. split; [reflexivity|]. split.
    + rewrite length_app, Hlen.
      change (length Prompts.notice) with 12%nat. lia.
    + f_equal. rewrite firstn_app, Hlen, Nat.sub_diag, firstn_O, app_nil_r.
      rewrite firstn_firstn. f_equal. lia.
Qed.

Lemma truncateContent_bounds_the_content_witness :
  Prompts.truncateContent [72; 105; 33]%N 1
  = firstn (Z.to_nat (2 * 1)) [72; 105; 33]%N ++ Prompts.notice.
Proof.
  apply (proj1 (proj2 (truncateContent_bounds_the_content [72; 105; 33]%N 1
                         ltac:(lia)))).
  simpl. lia.
Defined.
